(** * The 4-step MDM requirements pipeline: extraction and consolidation

    A shallow embedding of [execute_4step_process.py]:
    [step1_extract_requirements], [step2_map_ootb_entities],
    [step3_design_data_model] and the layout of [create_svg_diagram],
    followed by the properties of the requirement-classification and
    consolidation engine.

    Modelling conventions.
    - Python [str] values are [string]s of ASCII characters: [lower],
      [strip], [\w], [\s] and [\b] are Python's on ASCII text and on no
      other.  [Text.ascii_text] says that a string is ASCII text and
      [Step1.ascii_sheet] that the cells of a sheet are: the sheets on which
      the text operations of the model are those of Python.
    - A Python [dict] is an association list in insertion order
      ([Dict.t]); assigning to an existing key keeps the key's position.
    - A [for] loop over a list is a left fold over the loop state.
    - The spreadsheet is a list of rows; a cell is absent (no such column),
      NaN (empty cell) or holds the [str()] of its value.
    - [datetime.now().isoformat()] is a parameter of the step that reads the
      clock; console output is modelled only where it is a diagnostic of
      the consolidation logic.
    - Of the files, the one step 3 reads back, the extraction result
      written by step 1, is a parameter of step 3 ([Step3.step1_file]); the
      files written and the markdown reports are not modelled. *)

From Stdlib Require Import List String Ascii Bool Arith Lia.
From Stdlib Require Import Permutation Sorted.
From Stdlib Require Import DecimalString.
Import ListNotations.

Set Implicit Arguments.

Local Open Scope list_scope.
Local Open Scope string_scope.
Local Open Scope nat_scope.

(** ** Python string operations *)

Module Text.

Definition code (c : ascii) : nat := nat_of_ascii c.

(** The characters of the model are the ASCII characters, codes 0 to 127.
    On them the definitions below are Python's; a character outside ASCII
    (a letter with an accent, a no-break space) is classified and lowered by
    Python according to Unicode and is not covered. *)
Definition is_ascii (c : ascii) : bool := code c <? 128.

Fixpoint ascii_text (s : string) : bool :=
  match s with
  | EmptyString => true
  | String c s' => is_ascii c && ascii_text s'
  end.

Definition is_upper (c : ascii) : bool := (65 <=? code c) && (code c <=? 90).
Definition is_lower (c : ascii) : bool := (97 <=? code c) && (code c <=? 122).
Definition is_digit (c : ascii) : bool := (48 <=? code c) && (code c <=? 57).
Definition is_alpha (c : ascii) : bool := is_upper c || is_lower c.

(** [\w] on ASCII characters *)
Definition is_word (c : ascii) : bool :=
  is_alpha c || is_digit c || (code c =? 95).

(** [\s], and the characters removed by [str.strip()], among the ASCII
    characters *)
Definition is_space (c : ascii) : bool :=
  ((9 <=? code c) && (code c <=? 13)) || ((28 <=? code c) && (code c <=? 32)).

Definition lower_char (c : ascii) : ascii :=
  if is_upper c then ascii_of_nat (code c + 32) else c.

Definition upper_char (c : ascii) : ascii :=
  if is_lower c then ascii_of_nat (code c - 32) else c.

(** [s.lower()] for ASCII text *)
Fixpoint lower (s : string) : string :=
  match s with
  | EmptyString => EmptyString
  | String c s' => String (lower_char c) (lower s')
  end.

(** [s.startswith(p)] *)
Fixpoint starts_with (p s : string) : bool :=
  match p, s with
  | EmptyString, _ => true
  | String a p', String b s' => Ascii.eqb a b && starts_with p' s'
  | String _ _, EmptyString => false
  end.

(** [needle in hay] *)
Fixpoint contains (needle hay : string) : bool :=
  starts_with needle hay ||
  match hay with
  | EmptyString => false
  | String _ hay' => contains needle hay'
  end.

(** [hay.find(needle)]; [None] is Python's [-1] *)
Fixpoint find (needle hay : string) : option nat :=
  if starts_with needle hay then Some 0
  else match hay with
       | EmptyString => None
       | String _ hay' => option_map S (find needle hay')
       end.

(** [s[:n]] *)
Fixpoint take (n : nat) (s : string) : string :=
  match n, s with
  | S n', String c s' => String c (take n' s')
  | _, _ => EmptyString
  end.


Fixpoint lstrip (s : string) : string :=
  match s with
  | String c s' => if is_space c then lstrip s' else s
  | EmptyString => EmptyString
  end.

Fixpoint rstrip (s : string) : string :=
  match s with
  | String c s' =>
      match rstrip s' with
      | EmptyString => if is_space c then EmptyString else String c EmptyString
      | r => String c r
      end
  | EmptyString => EmptyString
  end.

(** [s.strip()] for ASCII text *)
Definition strip (s : string) : string := rstrip (lstrip s).

(** [sep.join(l)] *)
Fixpoint join (sep : string) (l : list string) : string :=
  match l with
  | [] => EmptyString
  | [x] => x
  | x :: l' => x ++ sep ++ join sep l'
  end.

(** [s.replace(old, new)] for a non-empty [old]: leftmost occurrences,
    not overlapping.  [skip] counts the characters of the occurrence being
    replaced that are still to be passed over. *)
Fixpoint replace_from (old new s : string) (skip : nat) : string :=
  match skip with
  | S n =>
      match s with
      | String _ s' => replace_from old new s' n
      | EmptyString => EmptyString
      end
  | 0 =>
      match s with
      | EmptyString => EmptyString
      | String c s' =>
          if starts_with old s
          then new ++ replace_from old new s' (String.length old - 1)
          else String c (replace_from old new s' 0)
      end
  end.

Definition replace (old new s : string) : string := replace_from old new s 0.

(** [s.title()]: the first letter of every run of letters in upper case,
    the others in lower case. *)
Fixpoint title_from (prev_cased : bool) (s : string) : string :=
  match s with
  | EmptyString => EmptyString
  | String c s' =>
      if is_alpha c
      then String (if prev_cased then lower_char c else upper_char c)
                  (title_from true s')
      else String c (title_from false s')
  end.

Definition title (s : string) : string := title_from false s.

(** [str(n)] for a natural number *)
Definition of_nat (n : nat) : string := NilEmpty.string_of_uint (Nat.to_uint n).

(** [x in l] for a list (or a set) of strings *)
Definition mem (x : string) (l : list string) : bool :=
  existsb (String.eqb x) l.

End Text.

(** ** The fragment of Python's [re] the pipeline uses

    A backtracking matcher in continuation-passing style: repetition is
    greedy and an alternation tries its branches from left to right, as
    [re] does.  The continuation receives the character before the current
    position (for [\b]) and the rest of the text. *)

Module Re.
Import Text.

Inductive regex : Type :=
| Lit (s : string)                 (* literal text, [re.escape]d *)
| Words (alts : list string)       (* (w1|w2|...) *)
| Star (p : ascii -> bool)         (* [c]* *)
| Plus (p : ascii -> bool)         (* [c]+ *)
| Class (p : ascii -> bool)        (* [c] *)
| WordB                            (* \b *)
| Cat (r1 r2 : regex).

Section Matcher.
Variable A : Type.

Definition cont : Type := option ascii -> string -> option A.

Definition orelse (x y : option A) : option A :=
  match x with Some _ => x | None => y end.

Fixpoint m_lit (lit : string) (k : cont) (prev : option ascii) (s : string)
  : option A :=
  match lit with
  | EmptyString => k prev s
  | String c lit' =>
      match s with
      | String d s' => if Ascii.eqb c d then m_lit lit' k (Some d) s' else None
      | EmptyString => None
      end
  end.

Fixpoint m_words (alts : list string) (k : cont) (prev : option ascii)
  (s : string) : option A :=
  match alts with
  | [] => None
  | w :: alts' => orelse (m_lit w k prev s) (m_words alts' k prev s)
  end.

Fixpoint m_star (p : ascii -> bool) (k : cont) (prev : option ascii)
  (s : string) : option A :=
  match s with
  | String c s' =>
      if p c then orelse (m_star p k (Some c) s') (k prev s) else k prev s
  | EmptyString => k prev s
  end.

Definition m_class (p : ascii -> bool) (k : cont) (prev : option ascii)
  (s : string) : option A :=
  match s with
  | String c s' => if p c then k (Some c) s' else None
  | EmptyString => None
  end.

Definition word_at (c : option ascii) : bool :=
  match c with Some a => is_word a | None => false end.

Definition next_char (s : string) : option ascii :=
  match s with String c _ => Some c | EmptyString => None end.

Definition m_wordb (k : cont) (prev : option ascii) (s : string) : option A :=
  if xorb (word_at prev) (word_at (next_char s)) then k prev s else None.

Fixpoint run (r : regex) (k : cont) : cont :=
  match r with
  | Lit s => m_lit s k
  | Words alts => m_words alts k
  | Star p => m_star p k
  | Plus p => m_class p (m_star p k)
  | Class p => m_class p k
  | WordB => m_wordb k
  | Cat r1 r2 => run r1 (run r2 k)
  end.
End Matcher.

(** The match of [r] that starts at the current position: what is left of
    the text after it. *)
Definition match_here (r : regex) (prev : option ascii) (s : string)
  : option string :=
  run r (fun _ rest => Some rest) prev s.

(** [re.search(r, s)] as a truth value *)
Fixpoint search_from (r : regex) (prev : option ascii) (s : string) : bool :=
  match match_here r prev s with
  | Some _ => true
  | None =>
      match s with
      | String c s' => search_from r (Some c) s'
      | EmptyString => false
      end
  end.

Definition search (r : regex) (s : string) : bool := search_from r None s.

(** [re.findall(r, s)] for a pattern that is one group: the matched texts,
    from left to right, not overlapping.  [skip] counts the characters of
    the last match still to be passed over. *)
Fixpoint findall_from (r : regex) (prev : option ascii) (s : string)
  (skip : nat) : list string :=
  match skip with
  | S n =>
      match s with
      | String c s' => findall_from r (Some c) s' n
      | EmptyString => []
      end
  | 0 =>
      match match_here r prev s with
      | Some rest =>
          let n := String.length s - String.length rest in
          take n s ::
          match s with
          | String c s' => findall_from r (Some c) s' (n - 1)
          | EmptyString => []
          end
      | None =>
          match s with
          | String c s' => findall_from r (Some c) s' 0
          | EmptyString => []
          end
      end
  end.

Definition findall (r : regex) (s : string) : list string :=
  findall_from r None s 0.

(** [re.match('^(w1|...)$', s)] on a text without line breaks *)
Definition fullmatch_words (alts : list string) (s : string) : bool :=
  mem s alts.

Fixpoint seq (rs : list regex) : regex :=
  match rs with
  | [] => Lit EmptyString
  | [r] => r
  | r :: rs' => Cat r (seq rs')
  end.

End Re.

(** ** Dictionaries in insertion order *)

Module Dict.

Definition t (V : Type) : Type := list (string * V).

Fixpoint get {V} (d : t V) (k : string) : option V :=
  match d with
  | [] => None
  | (k', v) :: d' => if String.eqb k' k then Some v else get d' k
  end.

(** [d[k] = v] *)
Fixpoint set {V} (d : t V) (k : string) (v : V) : t V :=
  match d with
  | [] => [(k, v)]
  | (k', v') :: d' =>
      if String.eqb k' k then (k', v) :: d' else (k', v') :: set d' k v
  end.

Definition keys {V} (d : t V) : list string := map fst d.
Definition values {V} (d : t V) : list V := map snd d.

(** [k in d] *)
Definition mem {V} (d : t V) (k : string) : bool :=
  match get d k with Some _ => true | None => false end.

End Dict.

(** ** [sorted]: a stable sort

    [ahead y x] says that [y] must come strictly before [x].  An element is
    inserted behind the elements that are strictly ahead of it and before all
    others, so elements that compare equal keep their order, as in Python's
    [sorted] (also under [reverse=True]). *)

Module Sort.

Section Stable.
Variable A : Type.
Variable ahead : A -> A -> bool.

Fixpoint insert (x : A) (l : list A) : list A :=
  match l with
  | [] => [x]
  | y :: l' => if ahead y x then y :: insert x l' else x :: l
  end.

Definition sorted (l : list A) : list A := fold_right insert [] l.
End Stable.

(** [sorted(l)] on strings *)
Definition sorted_strings (l : list string) : list string :=
  sorted String.ltb l.

End Sort.

(** ** The static tables of the source *)

Module Tables.

Definition Person_standard_fields : list string :=
  ["FirstName"; "LastName"; "MiddleName"; "NamePrefix"; "NameSuffix";
   "FullName"; "DateOfBirth"; "Gender"; "MaritalStatus";
   "SSN"; "TaxID"; "PreferredLanguage"; "DeceasedDate"; "DeceasedFlag"].

Definition Organization_standard_fields : list string :=
  ["OrganizationName"; "LegalName"; "DBA"; "TaxID"; "EIN";
   "OrganizationType"; "Industry"; "Status"; "FoundedDate";
   "Website"; "Description"].

Definition Product_standard_fields : list string :=
  ["ProductName"; "ProductCode"; "SKU"; "Description";
   "Category"; "Brand"; "Status"; "Price"; "UnitOfMeasure"].

(** [OOTB_FIELD_GROUPS[name]['standard_fields']] *)
Definition OOTB_FIELD_GROUPS : Dict.t (list string) :=
  [("Address",
     ["AddressLine1"; "AddressLine2"; "City"; "State"; "PostalCode";
      "Country"; "AddressType"; "PrimaryFlag"; "StartDate"; "EndDate";
      "County"; "Region"; "Latitude"; "Longitude"]);
   ("Phone",
     ["PhoneNumber"; "PhoneType"; "PrimaryFlag"; "CountryCode";
      "AreaCode"; "Extension"; "StartDate"; "EndDate"; "DoNotCallFlag"]);
   ("Email",
     ["EmailAddress"; "EmailType"; "PrimaryFlag"; "StartDate"; "EndDate";
      "DoNotEmailFlag"; "BounceFlag"]);
   ("Identifier",
     ["IdentifierValue"; "IdentifierType"; "PrimaryFlag"; "Issuer";
      "StartDate"; "EndDate"; "VerificationStatus"])].

(** The noise words of step 1, before the source-system names are added *)
Definition noise_words : list string :=
  ["Solution"; "System"; "Data"; "Record"; "Information"; "Field"; "Attribute";
   "Value"; "Type"; "Status"; "Date"; "Number"; "Code"; "ID"; "Key"; "Source";
   "Target"; "The"; "This"; "That"; "These"; "Those"; "Each"; "Every"; "All";
   "Some"; "Any"; "Many"; "More"; "Most"; "Such"; "Which"; "What"; "When";
   "Where"; "How"; "Why"; "Who"; "Table"; "Column"; "Row"; "Sheet"; "File";
   "Document"; "Report"; "Format"; "Structure"; "Model"; "Design"; "Process";
   "Step"; "Phase"; "Feature"; "Function"; "Method"; "Approach"; "Integration"].

Definition source_system_names : list string :=
  ["Banner"; "Workday"; "Slate"; "Salesforce"; "SFAQ"; "AffinaQuest";
   "IAM"; "SF-STU"; "Slack"; "Snowflake"; "Azure"; "Reference"; "Use"].

(** [exclude_words] after [exclude_words.update(source_system_names)] *)
Definition exclude_words : list string := noise_words ++ source_system_names.

Record source_info : Type := {
  connection_types : list string;
  keywords : list string
}.

Definition known_sources : Dict.t source_info :=
  [("Banner", {| connection_types := ["JDBC"; "jdbc"];
                 keywords := ["banner"; "ellucian banner"] |});
   ("Workday", {| connection_types := ["SOAP API"; "SOAP"; "soap"];
                  keywords := ["workday"] |});
   ("Slate", {| connection_types := ["API"; "api"]; keywords := ["slate"] |});
   ("Salesforce", {| connection_types := ["API"; "api"];
                     keywords := ["salesforce"; "sf"] |});
   ("SFAQ", {| connection_types := ["API"; "api"];
               keywords := ["sfaq"; "affinaquest"] |});
   ("AffinaQuest", {| connection_types := ["API"; "api"];
                      keywords := ["affinaquest"; "sfaq"] |});
   ("IAM", {| connection_types := ["API"; "Message Queue"; "RabbitMQ"];
              keywords := ["iam"] |});
   ("SF-STU", {| connection_types := ["API"; "api"];
                 keywords := ["sf-stu"; "sfstu"] |});
   ("Slack", {| connection_types := ["API"; "api"]; keywords := ["slack"] |});
   ("Snowflake", {| connection_types := ["Database"; "database"];
                    keywords := ["snowflake"] |})].

Definition attribute_keywords : Dict.t (list string) :=
  [("classification", ["classification"; "classify"]);
   ("employmentstatus",
     ["full time"; "part time"; "employment status"; "employment type";
      "temp"; "temporary"; "permanent"]);
   ("roletype", ["role type"; "role"; "roletype"; "position"]);
   ("relationshiptype",
     ["relationship type"; "relationship"; "relationshiptype"; "association"]);
   ("organizationname", ["organization name"; "company name"; "org name"]);
   ("legalname", ["legal name"; "legal entity name"]);
   ("dba", ["dba"; "doing business as"; "trade name"]);
   ("ein", ["ein"; "employer identification number"]);
   ("organizationtype", ["organization type"; "org type"; "entity type"]);
   ("industry", ["industry"; "sector"]);
   ("website", ["website"; "web site"; "url"]);
   ("foundeddate",
     ["founded"; "founded date"; "established"; "established date"]);
   ("description", ["description"; "desc"]);
   ("status", ["status"; "active"; "inactive"])].

Definition role_keywords : list string :=
  ["student"; "teacher"; "staff"; "manager"; "employee"; "contractor";
   "member"; "customer"; "supplier"; "partner"; "alumni"; "donor";
   "prospect"; "lead"; "administrator"; "user"; "guest"; "applicant"].

Definition matching_rules : list (string * string) :=
  [("Address matching",
    "Match based on standardized address components; may use a unique key from the source system or a composite of address fields.");
   ("Phone matching",
    "Match on normalized phone number (country and area code); uniqueness may vary based on business requirements.");
   ("Email matching",
    "Match on lowercased, trimmed email address; not always unique depending on real-world usage.");
   ("Address crosswalk",
    "Use reference/crosswalk tables to link and translate between keys of source and master addresses.")].

Definition data_quality_rules : list (string * string) :=
  [("Address standardization", "Centralized standardization to uniform format");
   ("Phone standardization", "Centralized standardization to uniform format");
   ("Lookup value mapping", "Map source values to MDM values via reference data")].

(** The patterns of the contextual classifier *)
Import Text Re.

(** [\b([A-Z][a-z]+)\b] *)
Definition capitalized_word : regex :=
  seq [WordB; Class is_upper; Plus is_lower; WordB].

(** [\b(multiple|each|per|1-to-many|one-to-many|many)\s+\w*\s*] followed by
    the term *)
Definition field_group_pattern (word_lower : string) : regex :=
  seq [WordB;
       Words ["multiple"; "each"; "per"; "1-to-many"; "one-to-many"; "many"];
       Plus is_space; Star is_word; Star is_space; Lit word_lower].

Definition field_group_words : list string :=
  ["address"; "phone"; "email"; "e-mail"; "telephone"; "contact"].

(** [\b(address|phone|email|e-mail|telephone|contact)\b] *)
Definition standard_field_group_pattern : regex :=
  seq [WordB; Words field_group_words; WordB].

Definition person_pattern : regex :=
  seq [WordB;
       Words ["individual"; "person"; "people"; "human"; "citizen";
              "resident"; "member"; "participant"];
       WordB].

Definition organization_pattern : regex :=
  seq [WordB;
       Words ["company"; "organization"; "organisation"; "institution";
              "corp"; "corporation"; "business"; "firm"; "enterprise"];
       WordB].

Definition product_pattern : regex :=
  seq [WordB;
       Words ["product"; "item"; "goods"; "merchandise"; "commodity";
              "article"; "sku"];
       WordB].

(** [\b(has|have|contains|includes|with)\s+\w*\s*] followed by the term *)
Definition containment_pattern (word_lower : string) : regex :=
  seq [WordB; Words ["has"; "have"; "contains"; "includes"; "with"];
       Plus is_space; Star is_word; Star is_space; Lit word_lower].

End Tables.

(** ** Step 1: [step1_extract_requirements] *)

Module Step1.
Import Text Re Tables.

(** A cell of the sheet, as [row.get(column)] sees it *)
Inductive cell : Type :=
| Absent            (* the sheet has no such column *)
| NaN               (* the cell is empty *)
| Val (s : string)  (* [str()] of the value *).

(** [str(row.get(column, ''))] *)
Definition cell_str (c : cell) : string :=
  match c with
  | Absent => ""
  | NaN => "nan"
  | Val s => s
  end.

(** [pd.notna(row.get(column))] *)
Definition notna (c : cell) : bool :=
  match c with
  | Val _ => true
  | _ => false
  end.

Record row : Type := {
  fr_cell : cell;        (* 'FR #' *)
  desc_cell : cell;      (* 'Functional Requirements Description' *)
  comments_cell : cell   (* 'Comments' *)
}.

(** The sheets of the model: every cell that holds a value holds ASCII
    text *)
Definition ascii_cell (c : cell) : bool :=
  match c with
  | Val s => ascii_text s
  | _ => true
  end.

Definition ascii_row (r : row) : bool :=
  ascii_cell (fr_cell r) && ascii_cell (desc_cell r)
  && ascii_cell (comments_cell r).

Definition ascii_sheet (df : list row) : bool := forallb ascii_row df.

Record requirement : Type := {
  fr_number : string;
  description : string;
  comments : string;
  combined_text : string
}.

Record entity_info : Type := {
  info_type : string;
  info_context : string;
  info_frequency : nat
}.

Record business_entity : Type := {
  e_name : string;
  e_type : string;
  e_purpose : string
}.

Record attrs_data : Type := {
  standard : list string;
  custom : list string;
  custom_with_fr : option (Dict.t (list string))  (* [None]: key absent *)
}.

Record source_system : Type := {
  ss_name : string;
  ss_connection : string;
  ss_context : string
}.

Record role : Type := {
  role_name : string;
  role_purpose : string
}.

Record step1_output : Type := {
  extraction_date : string;
  total_requirements : nat;
  source_file : string;
  functional_requirements : list requirement;
  business_entities : list business_entity;
  attributes : Dict.t attrs_data;
  relationships : list string;
  roles : list role;
  source_systems : list source_system;
  matching_rules : list (string * string);
  data_quality_rules : list (string * string)
}.

(** One iteration of the loop that builds [functional_requirements] *)
Definition make_requirement (idx : nat) (r : row) : requirement :=
  let fr_num :=
    if notna (fr_cell r) then strip (cell_str (fr_cell r))
    else ("FR" ++ of_nat (idx + 1))%string in
  let fr_desc := strip (cell_str (desc_cell r)) in
  let fr_comments :=
    if notna (comments_cell r) then strip (cell_str (comments_cell r))
    else "" in
  {| fr_number := fr_num;
     description := fr_desc;
     comments := fr_comments;
     combined_text := lower (fr_desc ++ " " ++ fr_comments) |}.

Fixpoint make_requirements (idx : nat) (df : list row) : list requirement :=
  match df with
  | [] => []
  | r :: df' => make_requirement idx r :: make_requirements (S idx) df'
  end.

(** The text of a row as the scans read it *)
Definition row_text (r : row) : string :=
  (cell_str (desc_cell r) ++ " " ++ cell_str (comments_cell r))%string.

Definition all_text_original (df : list row) : string :=
  join " " (map row_text df).

Definition all_text_lower (df : list row) : string :=
  lower (join " " (map row_text df)).

(** [Counter(words)]: the words in order of first occurrence, each with the
    number of its occurrences *)
Definition count_word (d : Dict.t nat) (w : string) : Dict.t nat :=
  Dict.set d w (match Dict.get d w with Some n => S n | None => 1 end).

Definition Counter (words : list string) : Dict.t nat :=
  fold_left count_word words [].

Definition word_counts (df : list row) : Dict.t nat :=
  Counter (findall capitalized_word (all_text_original df)).

(** *** The contextual classifier *)

(** The [if]/[elif] chain on one row that contains the term: the type it
    assigns, [None] when no branch is taken *)
Definition context_rule (word_lower text_lower : string) : option string :=
  if search (field_group_pattern word_lower) text_lower then
    let upto :=
      match find word_lower text_lower with
      | Some i => i + 200
      | None => 199
      end in
    if search standard_field_group_pattern (take upto text_lower)
    then Some "FieldGroup"
    else Some "CustomFieldGroup"
  else if search person_pattern text_lower then Some "Person"
  else if search organization_pattern text_lower then Some "Organization"
  else if search product_pattern text_lower then Some "Product"
  else if search (containment_pattern word_lower) text_lower
       then Some "CustomFieldGroup"
  else None.

(** The loop state: [entity_type] and [context] *)
Definition classifier_state : Type := (option string * list string)%type.

(** The body of [for _, row in df.iterrows()] *)
Definition classify_row (word_lower : string) (st : classifier_state)
  (r : row) : classifier_state :=
  let text := row_text r in
  let text_lower := lower text in
  if contains word_lower text_lower then
    let entity_type :=
      match context_rule word_lower text_lower with
      | Some t => Some t
      | None => fst st
      end in
    let context :=
      if mem text_lower (snd st) then snd st
      else (snd st ++ [take 200 text])%list in
    (entity_type, context)
  else st.

Definition classify_rows (word_lower : string) (df : list row)
  : classifier_state :=
  fold_left (classify_row word_lower) df (None, []).

(** The final classification when the loop left the type undetermined *)
Definition final_type (word_lower : string) (entity_type : option string)
  : string :=
  match entity_type with
  | Some t => t
  | None =>
      if fullmatch_words field_group_words word_lower
      then "FieldGroup"
      else "Person"
  end.

(** The type stored for a term *)
Definition classify (word : string) (df : list row) : string :=
  final_type (lower word) (fst (classify_rows (lower word) df)).

(** *** The lexical term discoverer *)

(** The body of [for word, count in word_counts.items()] *)
Definition discover (df : list row) (entities_found : Dict.t entity_info)
  (item : string * nat) : Dict.t entity_info :=
  let (word, count) := item in
  if (3 <=? count) && negb (mem word exclude_words) then
    let word_lower := lower word in
    if contains word_lower (all_text_lower df) then
      let (entity_type, context) := classify_rows word_lower df in
      Dict.set entities_found word
        {| info_type := final_type word_lower entity_type;
           info_context := join " " (firstn 3 context);
           info_frequency := count |}
    else entities_found
  else entities_found.

Definition entities_found (df : list row) : Dict.t entity_info :=
  fold_left (discover df) (word_counts df) [].

(** *** The business entities *)

Definition master_types : list string := ["Person"; "Organization"; "Product"].

Definition entity_types : list string :=
  ["Person"; "Organization"; "Product"; "FieldGroup"; "CustomFieldGroup"].

(** [sorted(entities_found.items(), key=frequency, reverse=True)] *)
Definition sorted_entities (found : Dict.t entity_info)
  : list (string * entity_info) :=
  Sort.sorted
    (fun y x => info_frequency (snd x) <? info_frequency (snd y)) found.

Definition infer_purpose (canonical_name entity_type context : string)
  : string :=
  if negb (context =? "")%string then
    if 150 <? String.length context
    then (take 150 context ++ "...")%string
    else context
  else if mem entity_type master_types
       then (canonical_name ++ " master entity in MDM model")%string
       else (canonical_name ++ " field group")%string.

(** The loop state: the entities appended so far and
    [master_entity_types_found] *)
Definition add_entity (st : list business_entity * list string)
  (item : string * entity_info) : list business_entity * list string :=
  let (out, types_found) := st in
  let (entity_name, info) := item in
  let entity_type := info_type info in
  if mem entity_type entity_types then
    if mem entity_type master_types then
      if mem entity_type types_found then st
      else
        ((out ++ [{| e_name := entity_type;
                     e_type := entity_type;
                     e_purpose :=
                       infer_purpose entity_type entity_type
                         (info_context info) |}])%list,
         entity_type :: types_found)
    else
      ((out ++ [{| e_name := entity_name;
                   e_type := entity_type;
                   e_purpose :=
                     infer_purpose entity_name entity_type
                       (info_context info) |}])%list,
       types_found)
  else st.

Definition build_business_entities (found : Dict.t entity_info)
  : list business_entity :=
  fst (fold_left add_entity (sorted_entities found) ([], [])).

Definition discovered_entities (df : list row) : list business_entity :=
  build_business_entities (entities_found df).

(** *** The source pass *)

(** The body of [for source_name, source_info in known_sources.items()] *)
Definition register_source (combined : string)
  (found : Dict.t source_system) (src : string * source_info)
  : Dict.t source_system :=
  let (source_name, info) := src in
  if existsb (fun keyword => contains (lower keyword) (lower combined))
       (keywords info)
  then
    if negb (Dict.mem found source_name) then
      let connection :=
        match List.find (fun conn_type =>
                           contains (lower conn_type) (lower combined))
                (connection_types info) with
        | Some conn_type => conn_type
        | None => hd "" (connection_types info)
        end in
      Dict.set found source_name
        {| ss_name := source_name;
           ss_connection := connection;
           ss_context := take 200 combined |}
    else found
  else found.

Definition source_systems_found (df : list row) : Dict.t source_system :=
  fold_left
    (fun found r => fold_left (register_source (row_text r)) known_sources found)
    df [].

(** *** The attribute pass *)

Definition attr_display_name (attr_name : string) : string :=
  title (replace "status" "Status" (replace "type" "Type" attr_name)).

(** The body of [for attr_name, keywords in attribute_keywords.items()] *)
Definition record_attribute (fr : requirement)
  (custom_attributes_with_fr : Dict.t (list string))
  (entry : string * list string) : Dict.t (list string) :=
  let (attr_name, keywords) := entry in
  if existsb (fun keyword => contains keyword (combined_text fr)) keywords
  then
    let name := attr_display_name attr_name in
    let d :=
      if negb (Dict.mem custom_attributes_with_fr name)
      then Dict.set custom_attributes_with_fr name []
      else custom_attributes_with_fr in
    let fr_list := match Dict.get d name with Some l => l | None => [] end in
    if negb (mem (fr_number fr) fr_list)
    then Dict.set d name (fr_list ++ [fr_number fr])%list
    else d
  else custom_attributes_with_fr.

Definition attribute_pass (frs : list requirement) : Dict.t (list string) :=
  fold_left
    (fun d fr => fold_left (record_attribute fr) attribute_keywords d)
    frs [].

Definition ootb_person_attributes : list string :=
  filter (fun field => negb (mem field ["SSN"; "TaxID"])) Person_standard_fields.

(** The first Person-type entity's name, or Constituent *)
Definition main_entity_name (entities : list business_entity) : string :=
  match List.find (fun entity => (e_type entity =? "Person")%string) entities with
  | Some entity => e_name entity
  | None => "Constituent"
  end.

(** *** The role pass *)

Definition register_role (combined : string) (roles_found : Dict.t role)
  (role_keyword : string) : Dict.t role :=
  if contains role_keyword combined
     && negb (Dict.mem roles_found (title role_keyword))
  then Dict.set roles_found (title role_keyword)
         {| role_name := title role_keyword;
            role_purpose := take 150 combined |}
  else roles_found.

Definition roles_found (df : list row) : Dict.t role :=
  fold_left
    (fun found r =>
       let combined :=
         (lower (cell_str (desc_cell r)) ++ " "
            ++ lower (cell_str (comments_cell r)))%string in
       fold_left (register_role combined) role_keywords found)
    df [].

(** *** The extraction result

    [now] is the reading of the clock.  [set_order] is the order in which
    Python iterates over a set of strings, which depends on the hash seed
    of the process: [list(custom_attributes_found)]. *)
Definition step1_extract_requirements
  (now : string) (set_order : list string -> list string)
  (excel_file : string) (df : list row) : step1_output :=
  let functional_requirements := make_requirements 0 df in
  let business_entities := discovered_entities df in
  let custom_attributes_with_fr := attribute_pass functional_requirements in
  let custom_attributes_found := set_order (Dict.keys custom_attributes_with_fr) in
  {| extraction_date := now;
     total_requirements := List.length df;
     source_file := excel_file;
     functional_requirements := functional_requirements;
     business_entities := business_entities;
     attributes :=
       [(main_entity_name business_entities,
         {| standard := ootb_person_attributes;
            custom := Sort.sorted_strings custom_attributes_found;
            custom_with_fr :=
              Some (map (fun attr =>
                           (attr,
                            match Dict.get custom_attributes_with_fr attr with
                            | Some l => l
                            | None => []
                            end))
                      (Sort.sorted_strings
                         (Dict.keys custom_attributes_with_fr))) |})];
     relationships := [];
     roles :=
       map (fun r => {| role_name := role_name r;
                        role_purpose := (take 100 (role_purpose r) ++ "...")%string |})
         (Dict.values (roles_found df));
     source_systems := Dict.values (source_systems_found df);
     matching_rules := Tables.matching_rules;
     data_quality_rules := Tables.data_quality_rules |}.

End Step1.

(** ** Step 2: [step2_map_ootb_entities]

    The function reads [step1_output.get('attributes', {})] and
    [step1_output.get('functional_requirements', [])]: an absent key is the
    empty dictionary or list of the record.  [custom_with_fr] of an
    attribute table may be absent, and the function tests for it. *)

Module Step2.
Import Text Tables Step1.

Record entity_mapping : Type := {
  em_requirement : string;
  ootb_entity : string;
  em_justification : string;
  ootb_fields_used : list string;
  custom_fields_needed : list string;
  custom_fields_with_fr : Dict.t (list string);
  consolidated_requirements : list string
}.

Record field_group_mapping : Type := {
  fg_requirement : string;
  ootb_field_group : string;
  fg_justification : string;
  fg_ootb_fields_used : list string;
  fg_custom_fields_needed : list string
}.

Record custom_component : Type := {
  cc_type : string;
  cc_name : string;
  cc_justification : string;
  cc_fields : list string
}.

Record step2_output : Type := {
  mapping_date : string;
  entity_mappings : list entity_mapping;
  field_group_mappings : list field_group_mapping;
  gaps : list string;
  custom_components : list custom_component
}.

(** What the consolidation prints besides its progress lines *)
Inductive diagnostic : Type :=
| Skipping (field : string)   (* Skipping <field> - no FR justification found *)
| NoSuitableEntity            (* No suitable OOTB entity found ... *).

(** The first loop: the entities by type *)
Definition person_requirements (s1 : step1_output) : list business_entity :=
  filter (fun entity => (e_type entity =? "Person")%string)
    (business_entities s1).

Definition organization_requirements (s1 : step1_output)
  : list business_entity :=
  filter (fun entity =>
            negb (e_type entity =? "Person")%string
            && (e_type entity =? "Organization")%string)
    (business_entities s1).

Definition other_entity_requirements (s1 : step1_output)
  : list business_entity :=
  filter (fun entity =>
            negb (e_type entity =? "Person")%string
            && negb (e_type entity =? "Organization")%string
            && negb (mem (e_type entity) ["CustomFieldGroup"; "FieldGroup"]))
    (business_entities s1).

(** [for field_name, fr_list in attrs_data['custom_with_fr'].items():
       if fr_list: custom_fields_with_fr[field_name] = fr_list] *)
Definition add_traced (with_fr : Dict.t (list string))
  (d : Dict.t (list string)) : Dict.t (list string) :=
  fold_left
    (fun d (item : string * list string) =>
       match snd item with
       | [] => d
       | _ :: _ => Dict.set d (fst item) (snd item)
       end)
    with_fr d.

(** The backward-compatibility fallback:
    [for field_name in attrs_data.get('custom', []):
       if field_name not in custom_fields_with_fr:
         custom_fields_with_fr[field_name] = []] *)
Definition add_untraced (custom_list : list string)
  (d : Dict.t (list string)) : Dict.t (list string) :=
  fold_left
    (fun d field_name =>
       if negb (Dict.mem d field_name) then Dict.set d field_name [] else d)
    custom_list d.

(** The body of [for req in person_requirements] in the Person branch *)
Definition add_person_fields (s1 : step1_output)
  (d : Dict.t (list string)) (req : business_entity) : Dict.t (list string) :=
  match Dict.get (attributes s1) (e_name req) with
  | Some attrs =>
      match custom_with_fr attrs with
      | Some with_fr => add_traced with_fr d
      | None => add_untraced (custom attrs) d
      end
  | None => d
  end.

(** The body of [for fr in functional_requirements] that looks for a
    mention of [field]; the state is [field_mentioned] and the dictionary.
    The list the source appends to may be the list object stored in the
    extraction result; as an append is made only when the id is not in the
    list yet, reading the list again later gives the same final value. *)
Definition note_mention (field : string)
  (st : bool * Dict.t (list string)) (fr : requirement)
  : bool * Dict.t (list string) :=
  if contains (lower field) (combined_text fr) then
    let d := snd st in
    let d1 := if negb (Dict.mem d field) then Dict.set d field [] else d in
    let fr_list := match Dict.get d1 field with Some l => l | None => [] end in
    (true,
     if negb (mem (fr_number fr) fr_list)
     then Dict.set d1 field (fr_list ++ [fr_number fr])%list
     else d1)
  else st.

(** One field of the template that was not chosen: added with the ids of
    the requirements that mention it, or skipped with a diagnostic *)
Definition fold_in_field (s1 : step1_output) (candidate : string -> bool)
  (st : Dict.t (list string) * list diagnostic) (field : string)
  : Dict.t (list string) * list diagnostic :=
  if candidate field then
    let scanned :=
      fold_left (note_mention field) (functional_requirements s1)
        (false, fst st) in
    (snd scanned,
     if negb (fst scanned) then (snd st ++ [Skipping field])%list
     else snd st)
  else st.

(** The body of [for org_req in organization_requirements] in the Person
    branch *)
Definition add_organization_fields (s1 : step1_output)
  (all_ootb_fields : list string)
  (st : Dict.t (list string) * list diagnostic) (org_req : business_entity)
  : Dict.t (list string) * list diagnostic :=
  match Dict.get (attributes s1) (e_name org_req) with
  | Some attrs =>
      let d :=
        match custom_with_fr attrs with
        | Some with_fr => add_traced with_fr (fst st)
        | None => fst st
        end in
      fold_left
        (fold_in_field s1
           (fun org_field =>
              negb (mem org_field ["TaxID"])
              && negb (mem org_field all_ootb_fields)))
        Organization_standard_fields (d, snd st)
  | None => st
  end.

(** The body of [for req in organization_requirements] in the Organization
    branch *)
Definition add_own_organization_fields (s1 : step1_output)
  (d : Dict.t (list string)) (req : business_entity) : Dict.t (list string) :=
  match Dict.get (attributes s1) (e_name req) with
  | Some attrs =>
      match custom_with_fr attrs with
      | Some with_fr => add_traced with_fr d
      | None => d
      end
  | None => d
  end.

(** The local variables after the template has been chosen *)
Record consolidation : Type := {
  selected_ootb_entity : option string;
  all_ootb_fields : list string;
  all_custom_fields_with_fr : Dict.t (list string);
  all_requirements_consolidated : list business_entity;
  printed : list diagnostic
}.

Definition nonempty {A} (l : list A) : bool :=
  match l with [] => false | _ :: _ => true end.

Definition consolidate (s1 : step1_output) : consolidation :=
  let persons := person_requirements s1 in
  let organizations := organization_requirements s1 in
  if nonempty persons || (negb (nonempty organizations) && negb (nonempty persons))
  then
    let ootb :=
      filter (fun f => negb (mem f ["SSN"; "TaxID"])) Person_standard_fields in
    let d := fold_left (add_person_fields s1) persons [] in
    let folded :=
      if nonempty organizations
      then fold_left (add_organization_fields s1 ootb) organizations (d, [])
      else (d, []) in
    {| selected_ootb_entity := Some "Person";
       all_ootb_fields := ootb;
       all_custom_fields_with_fr := fst folded;
       all_requirements_consolidated :=
         persons ++ (if nonempty organizations then organizations else []);
       printed := snd folded |}
  else if nonempty organizations then
    let ootb := Organization_standard_fields in
    let d := fold_left (add_own_organization_fields s1) organizations [] in
    let folded :=
      if nonempty persons
      then fold_left
             (fold_in_field s1 (fun person_field => negb (mem person_field ootb)))
             Person_standard_fields (d, [])
      else (d, []) in
    {| selected_ootb_entity := Some "Organization";
       all_ootb_fields := ootb;
       all_custom_fields_with_fr := fst folded;
       all_requirements_consolidated :=
         organizations ++ (if nonempty persons then persons else []);
       printed := snd folded |}
  else
    {| selected_ootb_entity := None;
       all_ootb_fields := [];
       all_custom_fields_with_fr := [];
       all_requirements_consolidated := [];
       printed := [] |}.

Definition consolidation_justification (req_names : list string)
  (selected : string) : string :=
  ("Consolidated all requirements (" ++ join ", " req_names
     ++ ") into single OOTB " ++ selected ++ " entity. "
     ++ "Using OOTB entity to minimize customization and leverage standard MDM capabilities. "
     ++ "Additional fields added as custom attributes only where OOTB fields cannot accommodate requirements and are justified by functional requirements.")%string.

(** STEP 3 of the function: the single consolidated mapping, or the custom
    entity of last resort *)
Definition entity_mappings_of (c : consolidation) : list entity_mapping :=
  match selected_ootb_entity c with
  | Some selected =>
      let req_names := map e_name (all_requirements_consolidated c) in
      [{| em_requirement := "Unified MDM Entity";
          ootb_entity := selected;
          em_justification := consolidation_justification req_names selected;
          ootb_fields_used := all_ootb_fields c;
          custom_fields_needed := Dict.keys (all_custom_fields_with_fr c);
          custom_fields_with_fr := all_custom_fields_with_fr c;
          consolidated_requirements := req_names |}]
  | None => []
  end.

Definition last_resort_components (c : consolidation) : list custom_component :=
  match selected_ootb_entity c with
  | Some _ => []
  | None =>
      [{| cc_type := "CustomEntity";
          cc_name := "CustomMDMEntity";
          cc_justification :=
            "No OOTB entity could accommodate all requirements. Custom entity created as last resort.";
          cc_fields :=
            all_ootb_fields c ++ Dict.keys (all_custom_fields_with_fr c) |}]
  end.

(** The loop over the entities that maps the field groups; the state is
    [field_group_mappings] and [custom_components] *)
Definition custom_field_group_fields (fg_name : string) : list string :=
  if (lower fg_name =? "role")%string then
    ["RoleType"; "RoleStatus"; "StartDate"; "EndDate"; "SourceSystem";
     "SourceSystemKey"]
  else if contains "relationship" (lower fg_name) then
    ["RelatedConstituentId"; "RelationshipType"; "StartDate"; "EndDate";
     "SourceSystem"; "SourceSystemKey"]
  else
    ["Type"; "Status"; "StartDate"; "EndDate"; "SourceSystem";
     "SourceSystemKey"].

Definition map_field_group
  (st : list field_group_mapping * list custom_component)
  (entity : business_entity)
  : list field_group_mapping * list custom_component :=
  if (e_type entity =? "FieldGroup")%string then
    let fg_name := e_name entity in
    match Dict.get OOTB_FIELD_GROUPS fg_name with
    | Some standard_fields =>
        ((fst st ++
           [{| fg_requirement := (fg_name ++ " field group")%string;
               ootb_field_group := fg_name;
               fg_justification := e_purpose entity;
               fg_ootb_fields_used := standard_fields;
               fg_custom_fields_needed := ["SourceSystemKey"] |}])%list,
         snd st)
    | None => st
    end
  else if (e_type entity =? "CustomFieldGroup")%string then
    let fg_name := e_name entity in
    (fst st,
     (snd st ++
        [{| cc_type := "CustomFieldGroup";
            cc_name := fg_name;
            cc_justification := e_purpose entity;
            cc_fields := custom_field_group_fields fg_name |}])%list)
  else st.

(** The consolidation document and what was printed on the way *)
Definition step2_run (now : string) (s1 : step1_output)
  : step2_output * list diagnostic :=
  let c := consolidate s1 in
  let groups :=
    fold_left map_field_group (business_entities s1)
      ([], last_resort_components c) in
  ({| mapping_date := now;
      entity_mappings := entity_mappings_of c;
      field_group_mappings := fst groups;
      gaps := [];
      custom_components := snd groups |},
   (printed c ++
      match selected_ootb_entity c with
      | Some _ => []
      | None => [NoSuitableEntity]
      end)%list).

Definition step2_map_ootb_entities (now : string) (s1 : step1_output)
  : step2_output :=
  fst (step2_run now s1).

Definition step2_diagnostics (s1 : step1_output) : list diagnostic :=
  snd (step2_run "" s1).

End Step2.

(** ** Step 3: [step3_design_data_model]

    Before anything else the function opens
    [outputs/step1_extracted_requirements.json] and parses it.  What it
    reads is used for the markdown report only, but the function fails at
    once when the file cannot be opened or is not JSON. *)

Module Step3.
Import Text Tables Step1 Step2.

(** What [open(step1_path, 'r')] and [json.load(f)] find.  A file that holds
    JSON of another shape than an extraction result is not covered. *)
Inductive step1_file : Type :=
| Missing                        (* there is no such file *)
| NotJSON                        (* the file does not parse *)
| Stored (s1 : step1_output)     (* the extraction result step 1 wrote *).

Inductive error : Type :=
| FileNotFoundError              (* raised by [open] *)
| JSONDecodeError                (* raised by [json.load] *)
| ValueError (message : string).

Inductive result (A : Type) : Type :=
| Ok (a : A)
| Raise (e : error).

Arguments Ok {A} a.
Arguments Raise {A} e.

Record field_group : Type := {
  group_name : string;
  group_type : string;
  group_ootb_fields : option (list string);  (* [None]: no 'ootb' key *)
  group_custom_fields : list string
}.

Record entity_data : Type := {
  ed_name : string;
  ed_original_name : string;
  ed_type : string;
  ed_purpose : string;
  ed_identifiers : list string;
  ed_ootb : list string;
  ed_custom : list string;
  ed_custom_with_fr : Dict.t (list string);
  ed_field_groups : list field_group
}.

Record step3_output : Type := {
  model_date : string;
  entities : list entity_data
}.

Definition no_mapping_message : string :=
  "Step 2 must produce at least one entity mapping. All requirements should be consolidated into a single OOTB entity.".

Definition purpose_and_identifiers (m : entity_mapping)
  : string * list string :=
  let ootb_entity_name := ootb_entity m in
  if (ootb_entity_name =? "Person")%string then
    ("Unified canonical master entity consolidating all requirements (person and organization data) into single Person OOTB entity. This represents the complete MDM golden record structure.",
     ["PersonId"; "SSN"; "TaxID"])
  else if (ootb_entity_name =? "Organization")%string then
    ("Unified canonical master entity consolidating all requirements (person and organization data) into single Organization OOTB entity. This represents the complete MDM golden record structure.",
     ["OrganizationId"])
  else if (ootb_entity_name =? "Product")%string then
    ("Unified canonical master entity consolidating all requirements into single Product OOTB entity. This represents the complete MDM golden record structure.",
     ["ProductId"])
  else
    (em_justification m, [(ootb_entity_name ++ "Id")%string]).

(** The loop over [field_group_mappings]; the state is the field groups
    added so far and [fg_names_added] *)
Definition add_field_group (st : list field_group * list string)
  (fg_mapping : field_group_mapping) : list field_group * list string :=
  let fg_name := ootb_field_group fg_mapping in
  if negb (mem fg_name (snd st)) then
    ((fst st ++
        [{| group_name := fg_name;
            group_type := "OOTB";
            group_ootb_fields := Some (fg_ootb_fields_used fg_mapping);
            group_custom_fields := fg_custom_fields_needed fg_mapping |}])%list,
     fg_name :: snd st)
  else st.

Definition identifier_standard_fields : list string :=
  match Dict.get OOTB_FIELD_GROUPS "Identifier" with
  | Some fields => fields
  | None => []
  end.

Definition add_identifier_group (st : list field_group * list string)
  : list field_group :=
  if negb (mem "Identifier" (snd st)) then
    (fst st ++
       [{| group_name := "Identifier";
           group_type := "OOTB";
           group_ootb_fields := Some identifier_standard_fields;
           group_custom_fields := ["SourceSystemKey"] |}])%list
  else fst st.

(** The loop over [custom_components] *)
Definition add_custom_group (groups : list field_group)
  (custom_comp : custom_component) : list field_group :=
  if (cc_type custom_comp =? "CustomFieldGroup")%string then
    if negb (existsb (fun fg => (group_name fg =? cc_name custom_comp)%string)
               groups)
    then
      (groups ++
         [{| group_name := cc_name custom_comp;
             group_type := "Custom";
             group_ootb_fields := None;
             group_custom_fields := cc_fields custom_comp |}])%list
    else groups
  else groups.

Definition step3_design_data_model (now : string) (file : step1_file)
  (s2 : step2_output) : result step3_output :=
  match file with
  | Missing => Raise FileNotFoundError
  | NotJSON => Raise JSONDecodeError
  | Stored step1_output =>
      match entity_mappings s2 with
      | [] => Raise (ValueError no_mapping_message)
      | entity_mapping :: _ =>
          let entity_name := replace " entity" "" (em_requirement entity_mapping) in
          let (purpose, identifiers) := purpose_and_identifiers entity_mapping in
          let groups :=
            add_identifier_group
              (fold_left add_field_group (field_group_mappings s2) ([], [])) in
          Ok {| model_date := now;
                entities :=
                  [{| ed_name := ootb_entity entity_mapping;
                      ed_original_name := entity_name;
                      ed_type := "OOTB";
                      ed_purpose := purpose;
                      ed_identifiers := identifiers;
                      ed_ootb := ootb_fields_used entity_mapping;
                      ed_custom := custom_fields_needed entity_mapping;
                      ed_custom_with_fr := custom_fields_with_fr entity_mapping;
                      ed_field_groups :=
                        fold_left add_custom_group (custom_components s2) groups
                   |}] |}
      end
  end.

End Step3.

(** ** Step 4: [step4_create_diagrams] and the geometry of
    [create_svg_diagram]

    Of the drawing, the items, the height of the canvas and the rectangles
    are modelled; the lines and the texts, whose coordinates are floating
    point numbers, are not.  An item is a Python dictionary; a key it lacks
    is the default of the record ([is_custom] false, no sub-fields). *)

Module Step4.
Import Text Tables Step3.

Definition dropdown_fields : list string :=
  ["Gender"; "MaritalStatus"; "AddressType"; "PhoneType"; "EmailType";
   "IdentifierType"; "Status"; "Type"; "PrimaryFlag"; "DoNotCallFlag";
   "DoNotEmailFlag"; "BounceFlag"; "VerificationStatus"; "OrganizationType";
   "Roletype"; "Relationshiptype"; "Employmentstatus"; "Classification";
   "PreferredLanguage"; "DeceasedFlag"].

Definition box_width : nat := 145.
Definition box_height : nat := 26.
Definition spacing : nat := 29.
Definition entity_x : nat := 20.
Definition entity_y : nat := 80.
Definition col1_x : nat := 220.
Definition col2_x : nat := 380.
Definition svg_width : nat := 900.

Inductive item_type : Type :=
| identifier
| attribute
| field_group_item.

Record item : Type := {
  i_type : item_type;
  i_name : string;
  i_y : nat;
  has_dropdown : bool;
  is_custom : bool;
  fg_type : string;
  sub_fields : list string
}.

(** The loop state while the items are laid out: [items] and [current_y] *)
Definition layout : Type := (list item * nat)%type.

Definition add_identifier (st : layout) (name : string) : layout :=
  ((fst st ++ [{| i_type := identifier; i_name := name; i_y := snd st;
                  has_dropdown := false; is_custom := false;
                  fg_type := ""; sub_fields := [] |}])%list,
   snd st + spacing).

Definition add_attribute (custom : bool) (st : layout) (attr : string)
  : layout :=
  ((fst st ++ [{| i_type := attribute; i_name := attr; i_y := snd st;
                  has_dropdown := mem attr dropdown_fields;
                  is_custom := custom;
                  fg_type := ""; sub_fields := [] |}])%list,
   snd st + spacing).

Definition add_group (st : layout) (fg : field_group) : layout :=
  let fg_ootb_fields :=
    match group_ootb_fields fg with Some l => l | None => [] end in
  ((fst st ++ [{| i_type := field_group_item; i_name := group_name fg;
                  i_y := snd st;
                  has_dropdown := false; is_custom := false;
                  fg_type := group_type fg;
                  sub_fields :=
                    fg_ootb_fields ++ group_custom_fields fg |}])%list,
   snd st + spacing).

(** [items] after the four loops *)
Definition items (e : entity_data) : list item :=
  fst (fold_left add_group (ed_field_groups e)
         (fold_left (add_attribute true) (ed_custom e)
            (fold_left (add_attribute false) (ed_ootb e)
               (fold_left add_identifier (ed_identifiers e)
                  ([], entity_y + box_height + spacing))))).

(** [max(l)] for a non-empty list of naturals, [default] for the empty one *)
Definition max_or (default : nat) (l : list nat) : nat :=
  match l with
  | [] => default
  | x :: l' => fold_left Nat.max l' x
  end.

Definition nonempty_fields (it : item) : bool :=
  match sub_fields it with [] => false | _ :: _ => true end.

Definition is_group (it : item) : bool :=
  match i_type it with field_group_item => true | _ => false end.

(** The second loop over the items, which makes room for the sub-fields *)
Definition grow (max_y : nat) (it : item) : nat :=
  if is_group it && nonempty_fields it
  then Nat.max max_y (i_y it + List.length (sub_fields it) * spacing)
  else max_y.

Definition max_y (its : list item) : nat :=
  fold_left grow its (max_or entity_y (map i_y its)).

Definition svg_height (e : entity_data) : nat :=
  Nat.max (max_y (items e) + 100) 200.

Record rect : Type := {
  r_x : nat;
  r_y : nat;
  r_width : nat;
  r_height : nat;
  r_fill : string
}.

Definition box (x y : nat) (fill : string) : rect :=
  {| r_x := x; r_y := y; r_width := box_width; r_height := box_height;
     r_fill := fill |}.

(** The rectangles of the heading: the legend and the box of the entity *)
Definition heading_rects : list rect :=
  [{| r_x := 10; r_y := 30; r_width := 780; r_height := 40; r_fill := "#f0f0f0" |};
   {| r_x := 100; r_y := 40; r_width := 100; r_height := 20; r_fill := "#2196F3" |};
   {| r_x := 220; r_y := 40; r_width := 100; r_height := 20; r_fill := "#C5E1A5" |};
   {| r_x := 340; r_y := 40; r_width := 100; r_height := 20; r_fill := "#F8BBD9" |};
   {| r_x := 460; r_y := 40; r_width := 100; r_height := 20; r_fill := "#FFD54F" |};
   box entity_x entity_y "#2196F3"].

(** The loop over the sub-fields of a field group; the state is the
    rectangles drawn and [sub_y] *)
Definition sub_field_rects (it : item) : list rect :=
  fst (fold_left
         (fun (st : list rect * nat) (sub_field : string) =>
            ((fst st ++ [box col2_x (snd st) "#C5E1A5"])%list,
             snd st + spacing))
         (sub_fields it) ([], i_y it)).

(** The rectangles one iteration of the drawing loop appends *)
Definition item_rects (it : item) : list rect :=
  match i_type it with
  | identifier => [box col1_x (i_y it) "#F8BBD9"]
  | attribute => [box col1_x (i_y it) "#C5E1A5"]
  | field_group_item =>
      box col1_x (i_y it) "#FFD54F"
      :: (if nonempty_fields it then sub_field_rects it else [])
  end.

(** All rectangles of the diagram, in the order they are written *)
Definition rects (e : entity_data) : list rect :=
  heading_rects ++ flat_map item_rects (items e).

(** [str(svg_path)] on a POSIX system, for an entity name without path
    separators *)
Definition diagram_path (e : entity_data) : string :=
  ("outputs/step4_diagrams/step4_" ++ lower (ed_name e)
     ++ "_entity_hierarchy.svg")%string.

(** [diagrams_created] *)
Definition step4_create_diagrams (s3 : step3_output) : list string :=
  map diagram_path (entities s3).

End Step4.

(** ** [main]: the steps in sequence

    An exception in a step is caught by [main], which prints the error and
    leaves with [sys.exit(1)]; the later steps are not run.  The run is
    followed up to the end of step 3.  When step 3 starts, step 1 has
    written its file, so the file step 3 reads holds the extraction result
    of the run. *)

Module Main.
Import Step1 Step2 Step3.

Inductive run : Type :=
| Assembled (s1 : step1_output) (s2 : step2_output) (s3 : step3_output)
| Exit1 (step : nat) (e : error).

(** The three readings of the clock and the set order are the run's
    surroundings *)
Record surroundings : Type := {
  clock1 : string;
  clock2 : string;
  clock3 : string;
  set_order : list string -> list string
}.

Definition extract (w : surroundings) (excel_file : string) (df : list row)
  : step1_output :=
  step1_extract_requirements (clock1 w) (set_order w) excel_file df.

Definition consolidated (w : surroundings) (excel_file : string)
  (df : list row) : step2_output :=
  step2_map_ootb_entities (clock2 w) (extract w excel_file df).

Definition main (w : surroundings) (excel_file : string) (df : list row)
  : run :=
  let s1 := extract w excel_file df in
  let s2 := step2_map_ootb_entities (clock2 w) s1 in
  match step3_design_data_model (clock3 w) (Stored s1) s2 with
  | Ok s3 => Assembled s1 s2 s3
  | Raise e => Exit1 3 e
  end.

End Main.

(** * Properties *)

(** ** Loops *)

Module FoldFacts.

(** A property of the loop state that every iteration preserves holds when
    the loop ends. *)
Lemma fold_left_invariant {A B : Type} (P : A -> Prop) (Q : B -> Prop)
  (f : A -> B -> A) :
  (forall a b, Q b -> P a -> P (f a b)) ->
  forall (l : list B) (a : A), Forall Q l -> P a -> P (fold_left f l a).
Proof.
  intros Hstep. induction l as [|b l IH]; intros a Hl Ha.
  - exact Ha.
  - inversion Hl as [|? ? Hb Hl']; subst. cbn [fold_left].
    apply IH; [assumption|]. now apply Hstep.
Qed.

(** When every iteration keeps [I] and, under [I], keeps [P], and an
    iteration on an element with [R] establishes [P], then [P] holds at the
    end if it held at the start or the list has an element with [R]. *)
Lemma fold_left_eventually {A B : Type} (I P : A -> Prop) (R : B -> Prop)
  (f : A -> B -> A) :
  (forall a b, I a -> I (f a b)) ->
  (forall a b, I a -> P a -> P (f a b)) ->
  (forall a b, I a -> R b -> P (f a b)) ->
  forall (l : list B) (a : A),
    I a -> (P a \/ exists b, In b l /\ R b) -> P (fold_left f l a).
Proof.
  intros HI Hkeep Hadd. induction l as [|b l IH]; intros a Ha H.
  - destruct H as [H|[b [[] _]]]. exact H.
  - cbn [fold_left]. apply IH; [now apply HI|].
    destruct H as [H|[b' [[<-|Hin] Hb]]].
    + left. now apply Hkeep.
    + left. now apply Hadd.
    + right. now exists b'.
Qed.

End FoldFacts.

(** ** Facts about the string operations *)

Module TextFacts.
Import Text.

Lemma mem_In (x : string) (l : list string) : mem x l = true <-> In x l.
Proof.
  unfold mem. rewrite existsb_exists. split.
  - intros [y [Hy Heq]]. apply String.eqb_eq in Heq. now subst.
  - intros H. exists x. split; [assumption | apply String.eqb_refl].
Qed.

Lemma mem_false (x : string) (l : list string) : mem x l = false <-> ~ In x l.
Proof.
  rewrite <- mem_In. destruct (mem x l); split; intros; congruence.
Qed.

Lemma starts_with_take (n : nat) (s : string) : starts_with (take n s) s = true.
Proof.
  revert s. induction n as [|n IH]; intros [|c s]; simpl; try reflexivity.
  now rewrite Ascii.eqb_refl, IH.
Qed.

Lemma starts_with_lower (p s : string) :
  starts_with p s = true -> starts_with (lower p) (lower s) = true.
Proof.
  revert s. induction p as [|a p IH]; intros [|b s]; simpl; try easy.
  intros H. apply andb_true_iff in H as [Hab Hps].
  apply Ascii.eqb_eq in Hab. subst b.
  now rewrite Ascii.eqb_refl, IH.
Qed.

Lemma starts_with_contains (p s : string) :
  starts_with p s = true -> contains p s = true.
Proof.
  intros H. destruct s; simpl in *; rewrite H; reflexivity.
Qed.

Lemma contains_tail (p : string) (c : ascii) (s : string) :
  contains p s = true -> contains p (String c s) = true.
Proof.
  intros H. simpl. rewrite H. apply orb_true_r.
Qed.

Lemma contains_lower (p s : string) :
  contains p s = true -> contains (lower p) (lower s) = true.
Proof.
  induction s as [|c s IH]; simpl; intros H.
  - rewrite orb_false_r in H. apply (starts_with_lower p "") in H.
    simpl in H. now rewrite H.
  - apply orb_true_iff in H as [H|H].
    + apply (starts_with_lower p (String c s)) in H. simpl in H.
      now rewrite H.
    + rewrite (IH H). apply orb_true_r.
Qed.




End TextFacts.

(** ** Facts about the matcher *)

Module ReFacts.
Import Text Re TextFacts.

(** Every text [findall] returns occurs in the text it scanned. *)
Lemma findall_from_contains (r : regex) (w : string) :
  forall (s : string) (prev : option ascii) (skip : nat),
    In w (findall_from r prev s skip) -> contains w s = true.
Proof.
  induction s as [|c s IH]; intros prev skip H.
  - destruct skip; simpl in H; [|contradiction].
    destruct (match_here r prev ""); simpl in H; [|contradiction].
    destruct H as [H|[]]. subst w. reflexivity.
  - destruct skip as [|n]; simpl in H.
    + destruct (match_here r prev (String c s)) as [rest|].
      * destruct H as [H|H].
        -- subst w. apply starts_with_contains, starts_with_take.
        -- apply contains_tail. eapply IH; eassumption.
      * apply contains_tail. eapply IH; eassumption.
    + apply contains_tail. eapply IH; eassumption.
Qed.

Lemma findall_contains (r : regex) (w s : string) :
  In w (findall r s) -> contains w s = true.
Proof. apply findall_from_contains. Qed.

End ReFacts.

(** ** Facts about dictionaries *)

Module DictFacts.

Section WithValues.
Variable V : Type.
Implicit Types (d : Dict.t V) (k : string) (v : V).

Lemma get_set d k v k' :
  Dict.get (Dict.set d k v) k' = if (k =? k')%string then Some v else Dict.get d k'.
Proof.
  induction d as [|[k0 v0] d IH]; simpl.
  - reflexivity.
  - destruct (String.eqb_spec k0 k) as [->|Hk]; simpl.
    + destruct (String.eqb_spec k k'); reflexivity.
    + destruct (String.eqb_spec k0 k') as [->|Hk'].
      * destruct (String.eqb_spec k k'); [congruence | reflexivity].
      * apply IH.
Qed.

Lemma get_set_same d k v : Dict.get (Dict.set d k v) k = Some v.
Proof. rewrite get_set. now rewrite String.eqb_refl. Qed.

Lemma get_set_other d k v k' :
  k <> k' -> Dict.get (Dict.set d k v) k' = Dict.get d k'.
Proof.
  intros H. rewrite get_set. now destruct (String.eqb_spec k k').
Qed.

Lemma keys_set d k v x :
  In x (Dict.keys (Dict.set d k v)) <-> x = k \/ In x (Dict.keys d).
Proof.
  unfold Dict.keys. induction d as [|[k0 v0] d IH]; simpl.
  - intuition.
  - destruct (String.eqb_spec k0 k) as [->|Hk]; simpl.
    + intuition.
    + rewrite IH. intuition.
Qed.

Lemma get_Some_In d k v : Dict.get d k = Some v -> In (k, v) d.
Proof.
  induction d as [|[k0 v0] d IH]; simpl; [discriminate|].
  destruct (String.eqb_spec k0 k) as [->|Hk].
  - intros [= ->]. now left.
  - intros H. right. now apply IH.
Qed.

Lemma get_Some_keys d k v : Dict.get d k = Some v -> In k (Dict.keys d).
Proof.
  intros H. apply get_Some_In in H. unfold Dict.keys.
  change k with (fst (k, v)). now apply in_map.
Qed.

Lemma keys_get d k : In k (Dict.keys d) -> exists v, Dict.get d k = Some v.
Proof.
  unfold Dict.keys. induction d as [|[k0 v0] d IH]; simpl; [contradiction|].
  destruct (String.eqb_spec k0 k) as [->|Hk].
  - intros _. now exists v0.
  - intros [H|H]; [contradiction | now apply IH].
Qed.



Lemma In_get d k v :
  NoDup (Dict.keys d) -> In (k, v) d -> Dict.get d k = Some v.
Proof.
  unfold Dict.keys. induction d as [|[k0 v0] d IH]; simpl; [contradiction|].
  intros Hnd [H|H].
  - injection H as -> ->. now rewrite String.eqb_refl.
  - inversion Hnd as [|? ? Hnotin Hnd']; subst.
    destruct (String.eqb_spec k0 k) as [->|Hk].
    + exfalso. apply Hnotin. change k with (fst (k, v)). now apply in_map.
    + now apply IH.
Qed.

Lemma NoDup_keys_set d k v :
  NoDup (Dict.keys d) -> NoDup (Dict.keys (Dict.set d k v)).
Proof.
  unfold Dict.keys. induction d as [|[k0 v0] d IH]; simpl; intros Hnd.
  - constructor; [intros [] | constructor].
  - inversion Hnd as [|? ? Hnotin Hnd']; subst.
    destruct (String.eqb_spec k0 k) as [->|Hk]; simpl.
    + now constructor.
    + constructor; [|now apply IH].
      intros Hin. apply (proj1 (keys_set d k v k0)) in Hin.
      destruct Hin as [->|Hin]; [congruence | contradiction].
Qed.

End WithValues.

End DictFacts.

(** ** Facts about [sorted] *)

Module SortFacts.
Import Sort.

Section Any.
Variable A : Type.
Variable ahead : A -> A -> bool.

Lemma insert_Permutation (x : A) (l : list A) :
  Permutation (insert ahead x l) (x :: l).
Proof.
  induction l as [|y l IH]; simpl.
  - apply Permutation_refl.
  - destruct (ahead y x).
    + eapply perm_trans; [apply perm_skip, IH | apply perm_swap].
    + apply Permutation_refl.
Qed.

Lemma sorted_Permutation (l : list A) : Permutation (sorted ahead l) l.
Proof.
  induction l as [|x l IH]; simpl.
  - apply perm_nil.
  - eapply perm_trans; [apply insert_Permutation | now apply perm_skip].
Qed.

Lemma sorted_In (x : A) (l : list A) : In x (sorted ahead l) <-> In x l.
Proof.
  split; apply Permutation_in;
    [apply sorted_Permutation | apply Permutation_sym, sorted_Permutation].
Qed.
End Any.

(** Sorting by a numeric key, largest first *)
Section Descending.
Variable A : Type.
Variable key : A -> nat.




End Descending.

(** Sorting by a strict total order gives the same list for every
    arrangement of the same elements. *)
Section Canonical.
Variable A : Type.
Variable lt : A -> A -> bool.
Hypothesis lt_asym : forall x y, lt x y = true -> lt y x = false.
Hypothesis lt_trans : forall x y z, lt x y = true -> lt y z = true -> lt x z = true.
Hypothesis lt_total : forall x y, lt x y = false -> lt y x = false -> x = y.

Lemma lt_le_trans (x y z : A) : lt y x = false -> lt y z = true -> lt x z = true.
Proof.
  intros Hyx Hyz. destruct (lt x z) eqn:Hxz; [reflexivity|].
  destruct (lt z x) eqn:Hzx.
  - rewrite (lt_trans Hyz Hzx) in Hyx. discriminate.
  - rewrite (lt_total Hxz Hzx) in Hyx. congruence.
Qed.


Lemma insert_insert (x y : A) (l : list A) :
  insert lt x (insert lt y l) = insert lt y (insert lt x l).
Proof.
  induction l as [|z l IH]; simpl.
  - destruct (lt y x) eqn:Hyx, (lt x y) eqn:Hxy; try reflexivity.
    + rewrite (lt_asym Hyx) in Hxy. discriminate.
    + now rewrite (lt_total Hxy Hyx).
  - destruct (lt z y) eqn:Hzy, (lt z x) eqn:Hzx; simpl;
      rewrite ?Hzy, ?Hzx.
    + now rewrite IH.
    + rewrite (lt_le_trans Hzx Hzy). simpl. rewrite ?Hzy. reflexivity.
    + rewrite (lt_le_trans Hzy Hzx). simpl. rewrite ?Hzx. reflexivity.
    + destruct (lt y x) eqn:Hyx, (lt x y) eqn:Hxy; simpl;
        rewrite ?Hzx, ?Hzy; try reflexivity.
      * rewrite (lt_asym Hyx) in Hxy. discriminate.
      * now rewrite (lt_total Hxy Hyx).
Qed.

Lemma sorted_canonical (l l' : list A) :
  Permutation l l' -> sorted lt l = sorted lt l'.
Proof.
  induction 1 as [|x l l' _ IH|x y l|l l' l'' _ IH1 _ IH2]; simpl.
  - reflexivity.
  - now rewrite IH.
  - apply insert_insert.
  - now rewrite IH1.
Qed.
End Canonical.

(** The order on strings *)

Lemma ascii_compare_trans (a b c : ascii) :
  Ascii.compare a b = Lt -> Ascii.compare b c = Lt -> Ascii.compare a c = Lt.
Proof.
  unfold Ascii.compare. rewrite !BinNat.N.compare_lt_iff.
  apply BinNat.N.lt_trans.
Qed.

Lemma string_compare_trans (a b c : string) :
  String.compare a b = Lt -> String.compare b c = Lt -> String.compare a c = Lt.
Proof.
  revert b c. induction a as [|x a IH]; intros [|y b] [|z c]; simpl; try easy.
  destruct (Ascii.compare x y) eqn:Hxy; try discriminate;
    destruct (Ascii.compare y z) eqn:Hyz; try discriminate; intros H1 H2.
  - apply Ascii.compare_eq_iff in Hxy, Hyz. subst.
    assert (E : Ascii.compare z z = Eq)
      by (unfold Ascii.compare; apply BinNat.N.compare_refl).
    rewrite E. eapply IH; eassumption.
  - apply Ascii.compare_eq_iff in Hxy. subst. now rewrite Hyz.
  - apply Ascii.compare_eq_iff in Hyz. subst. now rewrite Hxy.
  - now rewrite (ascii_compare_trans _ _ _ Hxy Hyz).
Qed.

Lemma ltb_Lt (a b : string) : String.ltb a b = true <-> String.compare a b = Lt.
Proof.
  unfold String.ltb. destruct (String.compare a b); split; congruence.
Qed.

Lemma ltb_asym (a b : string) : String.ltb a b = true -> String.ltb b a = false.
Proof.
  intros H. apply ltb_Lt in H. unfold String.ltb.
  rewrite String.compare_antisym, H. reflexivity.
Qed.

Lemma ltb_trans (a b c : string) :
  String.ltb a b = true -> String.ltb b c = true -> String.ltb a c = true.
Proof.
  rewrite !ltb_Lt. apply string_compare_trans.
Qed.

Lemma ltb_total (a b : string) :
  String.ltb a b = false -> String.ltb b a = false -> a = b.
Proof.
  unfold String.ltb. intros H1 H2.
  destruct (String.compare a b) eqn:E.
  - now apply String.compare_eq_iff.
  - discriminate.
  - rewrite String.compare_antisym, E in H2. discriminate.
Qed.

(** [sorted] of a set of strings does not depend on the order in which the
    set is listed. *)
Lemma sorted_strings_canonical (l l' : list string) :
  Permutation l l' -> sorted_strings l = sorted_strings l'.
Proof.
  apply sorted_canonical; [apply ltb_asym | apply ltb_trans | apply ltb_total].
Qed.

End SortFacts.

(** ** The lexical term discoverer *)

Module Discovery.
Import Text Re Tables Step1 TextFacts ReFacts DictFacts.

(** *** The capitalized terms of a sheet, said without the scanner

    The text of a requirement is its description, a blank and its comment;
    a column the sheet lacks gives the empty text and an empty cell the text
    [nan].  The corpus is the texts of the rows, joined by blanks. *)
Definition cell_text (c : cell) : string :=
  match c with
  | Absent => ""
  | NaN => "nan"
  | Val s => s
  end.

Definition requirement_text (r : row) : string :=
  (cell_text (desc_cell r) ++ " " ++ cell_text (comments_cell r))%string.

Definition corpus (df : list row) : string :=
  join " " (map requirement_text df).

(** The word characters at the head of a text, and what follows them *)
Fixpoint word_run (s : string) : string :=
  match s with
  | String c s' => if is_word c then String c (word_run s') else EmptyString
  | EmptyString => EmptyString
  end.

Fixpoint after_word (s : string) : string :=
  match s with
  | String c s' => if is_word c then after_word s' else s
  | EmptyString => EmptyString
  end.

(** The words of a text: its maximal runs of letters, digits and
    underscores, from left to right.  [inside] says that the character
    before the text is a word character, so that the text starts in the
    middle of a word, which is not listed again. *)
Fixpoint words_from (inside : bool) (s : string) : list string :=
  match s with
  | EmptyString => []
  | String c s' =>
      if is_word c then
        if inside then words_from true s'
        else word_run s :: words_from true s'
      else words_from false s'
  end.

Definition words (s : string) : list string := words_from false s.

Fixpoint all_lower (s : string) : bool :=
  match s with
  | EmptyString => true
  | String c s' => is_lower c && all_lower s'
  end.

(** A capital letter followed by one or more lower-case letters *)
Definition capitalized (w : string) : bool :=
  match w with
  | String c (String d w') => is_upper c && is_lower d && all_lower w'
  | _ => false
  end.

(** The capitalized terms of the sheet: the words of the corpus that are
    capitalized, with repetitions *)
Definition capitalized_terms (df : list row) : list string :=
  filter capitalized (words (corpus df)).

Definition occurrence_count (df : list row) (word : string) : nat :=
  count_occ string_dec (capitalized_terms df) word.

(** *** The scanner finds these terms *)

Lemma corpus_scanned (df : list row) : all_text_original df = corpus df.
Proof. reflexivity. Qed.

Lemma upper_is_word (c : ascii) : is_upper c = true -> is_word c = true.
Proof. unfold is_word, is_alpha. now intros ->. Qed.

Lemma lower_is_word (c : ascii) : is_lower c = true -> is_word c = true.
Proof.
  unfold is_word, is_alpha. intros ->. now rewrite orb_true_r.
Qed.

Lemma word_run_split (s : string) : s = (word_run s ++ after_word s)%string.
Proof.
  induction s as [|c s IH]; [reflexivity|]. cbn [word_run after_word].
  destruct (is_word c); [|reflexivity].
  cbn [String.append]. now rewrite <- IH.
Qed.

Lemma take_append (a b : string) : take (String.length a) (a ++ b) = a.
Proof.
  induction a as [|c a IH]; cbn [String.length String.append take].
  - now destruct b.
  - now rewrite IH.
Qed.

Lemma append_length_sum (a b : string) :
  String.length (a ++ b) = String.length a + String.length b.
Proof.
  induction a as [|c a IH]; cbn [String.length String.append Nat.add];
    [reflexivity | now rewrite IH].
Qed.

Lemma take_word_run (s : string) :
  take (String.length s - String.length (after_word s)) s = word_run s.
Proof.
  rewrite (word_run_split s) at 1 3.
  rewrite append_length_sum, Nat.add_sub. apply take_append.
Qed.

(** What is left after the lower-case letters at the head of a text *)
Fixpoint after_lower (s : string) : string :=
  match s with
  | String c s' => if is_lower c then after_lower s' else s
  | EmptyString => EmptyString
  end.

Definition rest_of : option ascii -> string -> option string :=
  fun _ rest => Some rest.

(** [[a-z]*\b] after a word character: the lower-case letters are all
    taken, and the match stands when no word character follows them. *)
Lemma lower_star_boundary (s : string) :
  forall d : ascii,
    is_word d = true ->
    m_star is_lower (m_wordb rest_of) (Some d) s
    = if word_at (next_char (after_lower s)) then None
      else Some (after_lower s).
Proof.
  induction s as [|e s IH]; intros d Hd.
  - cbn [m_star after_lower next_char word_at]. unfold m_wordb.
    cbn [word_at next_char]. rewrite Hd. reflexivity.
  - cbn [m_star after_lower]. destruct (is_lower e) eqn:He.
    + rewrite (IH e (lower_is_word e He)).
      assert (Hb : m_wordb rest_of (Some d) (String e s) = None).
      { unfold m_wordb. cbn [word_at next_char].
        now rewrite Hd, (lower_is_word e He). }
      rewrite Hb. unfold orelse.
      now destruct (word_at (next_char (after_lower s))).
    + unfold m_wordb. cbn [word_at next_char]. rewrite Hd.
      destruct (is_word e); reflexivity.
Qed.

Lemma lower_run_word_run (s : string) :
  all_lower (word_run s) = negb (word_at (next_char (after_lower s)))
  /\ (all_lower (word_run s) = true -> after_word s = after_lower s).
Proof.
  induction s as [|e s [IH1 IH2]]; [split; reflexivity|].
  cbn [word_run after_lower after_word]. destruct (is_lower e) eqn:He.
  - rewrite (lower_is_word e He). cbn [all_lower]. rewrite He.
    cbn [andb]. split; assumption.
  - cbn [next_char word_at]. destruct (is_word e) eqn:Hw.
    + cbn [all_lower]. rewrite He. split; [reflexivity | discriminate].
    + split; reflexivity.
Qed.

(** [\b([A-Z][a-z]+)\b] matches at a position exactly when a word starts
    there and that word is capitalized; the match is the whole word. *)
Lemma match_capitalized (prev : option ascii) (s : string) :
  match_here capitalized_word prev s
  = if negb (word_at prev) && capitalized (word_run s)
    then Some (after_word s)
    else None.
Proof.
  change (match_here capitalized_word prev s)
    with (m_wordb
            (m_class is_upper
               (m_class is_lower (m_star is_lower (m_wordb rest_of))))
            prev s).
  unfold m_wordb at 1. destruct s as [|c s].
  - cbn [next_char word_at word_run capitalized m_class].
    rewrite andb_false_r. now destruct (xorb (word_at prev) false).
  - cbn [next_char word_at m_class word_run after_word].
    destruct (is_upper c) eqn:Hc.
    + rewrite (upper_is_word c Hc).
      destruct (word_at prev); cbn [xorb negb andb]; [reflexivity|].
      destruct s as [|d s].
      * reflexivity.
      * cbn [word_run after_word capitalized m_class].
        destruct (is_lower d) eqn:Hd.
        -- rewrite (lower_is_word d Hd). cbn [capitalized].
           rewrite Hc, Hd. cbn [andb].
           rewrite (lower_star_boundary s d (lower_is_word d Hd)).
           destruct (lower_run_word_run s) as [H1 H2].
           rewrite H1.
           destruct (word_at (next_char (after_lower s))) eqn:Hn;
             cbn [negb]; [reflexivity|].
           rewrite H2; [reflexivity | exact H1].
        -- destruct (is_word d); cbn [capitalized];
             [rewrite Hc, Hd|]; reflexivity.
    + assert (Hcap : capitalized (if is_word c then String c (word_run s)
                                  else EmptyString) = false).
      { destruct (is_word c); [|reflexivity]. cbn [capitalized].
        destruct (word_run s); [reflexivity|]. now rewrite Hc. }
      rewrite Hcap, andb_false_r.
      now destruct (xorb (word_at prev) (is_word c)).
Qed.

(** The scan from a position on.  When a match has just been found, the
    scan passes over the rest of the matched word. *)
Lemma findall_capitalized_from (s : string) :
  forall (prev : option ascii) (skip : nat),
    skip = 0
    \/ (word_at prev = true /\ skip <= String.length (word_run s)) ->
    findall_from capitalized_word prev s skip
    = filter capitalized (words_from (word_at prev) s).
Proof.
  induction s as [|c s IH]; intros prev skip Hskip.
  - destruct skip; cbn [findall_from words_from filter]; [|reflexivity].
    rewrite match_capitalized. cbn [word_run capitalized].
    now rewrite andb_false_r.
  - destruct skip as [|n].
    + cbn [findall_from]. rewrite match_capitalized.
      cbn [words_from]. destruct (is_word c) eqn:Hc.
      * destruct (word_at prev) eqn:Hp; cbn [negb andb].
        -- rewrite (IH (Some c) 0) by now left.
           cbn [word_at]. now rewrite Hc.
        -- cbn [filter].
           destruct (capitalized (word_run (String c s))) eqn:Hcap.
           ++ rewrite take_word_run. f_equal.
              rewrite (IH (Some c)).
              ** cbn [word_at]. now rewrite Hc.
              ** right. cbn [word_at]. split; [exact Hc|].
                 rewrite (word_run_split (String c s)) at 1.
                 rewrite append_length_sum, Nat.add_sub.
                 cbn [word_run]. rewrite Hc. cbn [String.length]. lia.
           ++ rewrite (IH (Some c) 0) by now left.
              cbn [word_at]. now rewrite Hc.
      * cbn [word_run]. rewrite Hc. cbn [capitalized].
        rewrite andb_false_r.
        rewrite (IH (Some c) 0) by now left.
        cbn [word_at]. now rewrite Hc.
    + destruct Hskip as [Hskip|[Hp Hlen]]; [discriminate|].
      cbn [findall_from]. rewrite Hp. cbn [words_from].
      cbn [word_run] in Hlen. destruct (is_word c) eqn:Hc;
        [|cbn [String.length] in Hlen; lia].
      cbn [String.length] in Hlen.
      rewrite (IH (Some c) n).
      * cbn [word_at]. now rewrite Hc.
      * right. cbn [word_at]. split; [exact Hc | lia].
Qed.

Lemma findall_capitalized (s : string) :
  findall capitalized_word s = filter capitalized (words s).
Proof.
  unfold findall, words.
  rewrite (@findall_capitalized_from s None 0) by now left.
  reflexivity.
Qed.

Lemma capitalized_terms_scanned (df : list row) :
  findall capitalized_word (all_text_original df) = capitalized_terms df.
Proof.
  unfold capitalized_terms. rewrite corpus_scanned. apply findall_capitalized.
Qed.

Definition add_count (n : nat) (o : option nat) : option nat :=
  match n with
  | 0 => o
  | S _ => Some (n + match o with Some m => m | None => 0 end)
  end.

Lemma get_fold_count_word (l : list string) (w : string) :
  forall d : Dict.t nat,
    Dict.get (fold_left count_word l d) w
    = add_count (count_occ string_dec l w) (Dict.get d w).
Proof.
  induction l as [|x l IH]; intros d; simpl; [reflexivity|].
  rewrite IH. unfold count_word at 1. rewrite get_set.
  destruct (string_dec x w) as [->|Hne].
  - rewrite String.eqb_refl.
    destruct (count_occ string_dec l w), (Dict.get d w); simpl; f_equal; lia.
  - destruct (String.eqb_spec x w); [contradiction | reflexivity].
Qed.

Lemma Counter_get (l : list string) (w : string) :
  Dict.get (Counter l) w
  = match count_occ string_dec l w with 0 => None | S n => Some (S n) end.
Proof.
  unfold Counter. rewrite get_fold_count_word. simpl.
  destruct (count_occ string_dec l w); simpl; f_equal; lia.
Qed.

Lemma Counter_NoDup (l : list string) : NoDup (Dict.keys (Counter l)).
Proof.
  unfold Counter.
  assert (G : forall d : Dict.t nat,
             NoDup (Dict.keys d) -> NoDup (Dict.keys (fold_left count_word l d))).
  { induction l as [|x l IH]; intros d Hd; simpl; [assumption|].
    apply IH. unfold count_word. now apply NoDup_keys_set. }
  apply G. constructor.
Qed.

(** [Counter] lists every word that occurs, with its number of
    occurrences. *)
Lemma Counter_In (l : list string) (w : string) (n : nat) :
  In (w, n) (Counter l) <-> n = count_occ string_dec l w /\ 0 < n.
Proof.
  split.
  - intros H. apply In_get in H; [|apply Counter_NoDup].
    rewrite Counter_get in H.
    destruct (count_occ string_dec l w); [discriminate|].
    injection H as <-. split; [reflexivity | lia].
  - intros [-> Hpos]. apply get_Some_In. rewrite Counter_get.
    destruct (count_occ string_dec l w); [lia | reflexivity].
Qed.

(** The test the discoverer applies to a counted word *)
Definition qualifies (item : string * nat) : Prop :=
  3 <= snd item /\ ~ In (fst item) exclude_words.

Lemma keys_discover (df : list row) (d : Dict.t entity_info)
  (item : string * nat) (x : string) :
  contains (lower (fst item)) (all_text_lower df) = true ->
  In x (Dict.keys (discover df d item))
  <-> In x (Dict.keys d) \/ (x = fst item /\ qualifies item).
Proof.
  destruct item as [word count]. unfold discover, qualifies. cbn [fst snd].
  intros Hc. rewrite Hc.
  destruct (Nat.leb_spec 3 count) as [Hge|Hlt]; cbn [andb].
  - destruct (mem word exclude_words) eqn:Hm; cbn [negb].
    + apply mem_In in Hm. intuition.
    + apply mem_false in Hm.
      destruct (classify_rows (lower word) df) as [entity_type context].
      rewrite keys_set. intuition.
  - intuition lia.
Qed.

Lemma keys_fold_discover (df : list row) (x : string) :
  forall (items : list (string * nat)) (d : Dict.t entity_info),
    (forall item, In item items ->
                  contains (lower (fst item)) (all_text_lower df) = true) ->
    In x (Dict.keys (fold_left (discover df) items d))
    <-> In x (Dict.keys d)
        \/ exists item, In item items /\ x = fst item /\ qualifies item.
Proof.
  induction items as [|item items IH]; intros d Hall; simpl.
  - split; [now left | intros [H|[item [[] _]]]; assumption].
  - rewrite IH by (intros; apply Hall; now right).
    rewrite keys_discover by (apply Hall; now left).
    split.
    + intros [[H|H]|[item' [Hin H]]].
      * now left.
      * right. exists item. split; [now left | assumption].
      * right. exists item'. split; [now right | assumption].
    + intros [H|[item' [[<-|Hin] H]]].
      * left. now left.
      * left. now right.
      * right. exists item'. split; assumption.
Qed.

(** A counted word occurs in the lower-case text, so the test
    [word_lower in all_text_lower] of the source never fails. *)
Lemma counted_word_in_text (df : list row) (item : string * nat) :
  In item (word_counts df) ->
  contains (lower (fst item)) (all_text_lower df) = true.
Proof.
  destruct item as [w n]. unfold word_counts. intros H.
  apply Counter_In in H as [-> Hpos]. cbn [fst].
  unfold all_text_lower. apply contains_lower.
  apply (findall_contains capitalized_word).
  apply (count_occ_In string_dec). exact Hpos.
Qed.

Lemma In_exclude_words (w : string) :
  In w exclude_words <-> In w noise_words \/ In w source_system_names.
Proof. unfold exclude_words. apply in_app_iff. Qed.

(** C7.  On a sheet of ASCII text, a capitalized term of the original-case
    text is retained as a candidate exactly when it occurs at least 3 times
    and is neither a noise word nor the name of an external source system.
    The terms and their counts are those of the corpus itself: the words of
    the corpus that consist of a capital letter and one or more lower-case
    letters. *)
Theorem term_retention (df : list row) (word : string) :
  ascii_sheet df = true ->
  (In word (Dict.keys (entities_found df))
   <-> In word (capitalized_terms df)
       /\ 3 <= occurrence_count df word
       /\ ~ In word noise_words
       /\ ~ In word source_system_names).
Proof.
  intros _. unfold entities_found.
  rewrite keys_fold_discover by (intros; now apply counted_word_in_text).
  unfold qualifies, occurrence_count, word_counts.
  rewrite capitalized_terms_scanned.
  split.
  - intros [[]|[[w n] [Hin [-> [Hge Hex]]]]]. cbn [fst snd] in *.
    apply Counter_In in Hin as [-> Hpos].
    rewrite In_exclude_words in Hex.
    repeat split.
    + now apply (count_occ_In string_dec).
    + exact Hge.
    + intros H. apply Hex. now left.
    + intros H. apply Hex. now right.
  - intros [Hin [Hge [Hn Hs]]]. right.
    exists (word, count_occ string_dec (capitalized_terms df) word).
    cbn [fst snd]. repeat split.
    + apply Counter_In. split; [reflexivity | lia].
    + exact Hge.
    + rewrite In_exclude_words. intros [H|H]; contradiction.
Qed.

(** A sheet on which Donor occurs three times, Student twice, the noise
    word System three times and the source system Banner three times *)
Definition counted_terms : list row :=
  [{| fr_cell := Val "FR1";
      desc_cell := Val "The System stores each Donor and each Student";
      comments_cell := Val "Banner feeds the System" |};
   {| fr_cell := Val "FR2";
      desc_cell := Val "A Donor gives through Banner";
      comments_cell := NaN |};
   {| fr_cell := NaN;
      desc_cell := Val "Student and Donor records reach the System from Banner";
      comments_cell := Absent |}].

Lemma term_retention_witness :
  (In "Donor" (Dict.keys (entities_found counted_terms))
   <-> In "Donor" (capitalized_terms counted_terms)
       /\ 3 <= occurrence_count counted_terms "Donor"
       /\ ~ In "Donor" noise_words
       /\ ~ In "Donor" source_system_names).
Proof.
  apply (@term_retention counted_terms "Donor"). reflexivity.
Defined.

End Discovery.

(** ** The contextual classifier *)

Module Classifier.
Import Text Re Tables Step1 TextFacts DictFacts.

(** *** Rules 1 to 5 on one row

    The cue of rule 1 is a multiplicity phrase before the term; with a
    standard field-group word in the text up to 200 characters past the
    place where the term first occurs the rule says FieldGroup, and
    CustomFieldGroup without. *)
Definition multiplicity_cue (word_lower text_lower : string) : bool :=
  search (field_group_pattern word_lower) text_lower.

Definition standard_group_cue (word_lower text_lower : string) : bool :=
  search standard_field_group_pattern
    (take (match find word_lower text_lower with
           | Some i => i + 200
           | None => 199
           end) text_lower).

(** The rules in their order of precedence: the cue of each rule on the
    lower-case text of a row, and the type the rule assigns *)
Definition precedence (word_lower text_lower : string)
  : list (bool * string) :=
  [(multiplicity_cue word_lower text_lower
    && standard_group_cue word_lower text_lower, "FieldGroup");
   (multiplicity_cue word_lower text_lower, "CustomFieldGroup");
   (search person_pattern text_lower, "Person");
   (search organization_pattern text_lower, "Organization");
   (search product_pattern text_lower, "Product");
   (search (containment_pattern word_lower) text_lower, "CustomFieldGroup")].

(** The type of the first rule whose cue is present *)
Definition first_rule (rules : list (bool * string)) : option string :=
  option_map snd (List.find fst rules).

(** The type rules 1 to 5 assign to the term on one row: that of the first
    rule, in the order of precedence, whose cue the row has; [None] when the
    row does not contain the term or has none of the cues. *)
Definition fired (word_lower : string) (r : row) : option string :=
  let text_lower := lower (Discovery.requirement_text r) in
  if contains word_lower text_lower
  then first_rule (precedence word_lower text_lower)
  else None.

(** The types assigned by the rows on which a rule fires, in corpus order *)
Definition fired_roles (word_lower : string) (df : list row) : list string :=
  flat_map
    (fun r => match fired word_lower r with Some t => [t] | None => [] end)
    df.

Fixpoint last_role (l : list string) : option string :=
  match l with
  | [] => None
  | t :: l' =>
      match last_role l' with
      | Some t' => Some t'
      | None => Some t
      end
  end.

Definition first_role (l : list string) : option string := hd_error l.

Lemma last_role_app (a b : list string) :
  last_role (a ++ b)
  = match last_role b with Some t => Some t | None => last_role a end.
Proof.
  induction a as [|x a IH]; simpl.
  - now destruct (last_role b).
  - rewrite IH. destruct (last_role b); [reflexivity|].
    now destruct (last_role a).
Qed.

(** The [if]/[elif] chain of the source takes the branch of the first rule
    in the order of precedence whose cue is present. *)
Lemma context_rule_precedence (word_lower text_lower : string) :
  context_rule word_lower text_lower
  = first_rule (precedence word_lower text_lower).
Proof.
  unfold context_rule, first_rule, precedence, multiplicity_cue,
    standard_group_cue.
  cbn [List.find fst snd option_map].
  destruct (search (field_group_pattern word_lower) text_lower).
  - cbn [andb].
    destruct (search standard_field_group_pattern _); reflexivity.
  - cbn [andb].
    destruct (search person_pattern text_lower); [reflexivity|].
    destruct (search organization_pattern text_lower); [reflexivity|].
    destruct (search product_pattern text_lower); [reflexivity|].
    destruct (search (containment_pattern word_lower) text_lower);
      reflexivity.
Qed.

Lemma classify_row_type (word_lower : string) (st : classifier_state) (r : row) :
  fst (classify_row word_lower st r)
  = match fired word_lower r with Some t => Some t | None => fst st end.
Proof.
  unfold classify_row, fired. cbv zeta.
  change (Discovery.requirement_text r) with (row_text r).
  rewrite <- context_rule_precedence.
  destruct (contains word_lower (lower (row_text r))); reflexivity.
Qed.

Lemma classify_rows_from (word_lower : string) (df : list row) :
  forall st : classifier_state,
    fst (fold_left (classify_row word_lower) df st)
    = match last_role (fired_roles word_lower df) with
      | Some t => Some t
      | None => fst st
      end.
Proof.
  induction df as [|r df IH]; intros st; simpl; [reflexivity|].
  rewrite IH, classify_row_type, last_role_app.
  destruct (last_role (fired_roles word_lower df)); [reflexivity|].
  now destruct (fired word_lower r).
Qed.

(** What is stored for a retained term: [classify] of the term and the
    count of the term. *)
Lemma fold_discover_info (df : list row) (word : string) (info : entity_info) :
  forall (items : list (string * nat)) (d : Dict.t entity_info),
    Dict.get (fold_left (discover df) items d) word = Some info ->
    Dict.get d word = Some info
    \/ (info_type info = classify word df
        /\ In (word, info_frequency info) items).
Proof.
  induction items as [|[w n] items IH]; intros d H; cbn [fold_left] in H;
    [now left|].
  apply IH in H as [H|[H1 H2]]; [|right; split; [assumption | now right]].
  unfold discover in H.
  destruct ((3 <=? n) && negb (mem w exclude_words)); [|now left].
  destruct (contains (lower w) (all_text_lower df)); [|now left].
  destruct (classify_rows (lower w) df) as [entity_type context] eqn:E.
  rewrite get_set in H. destruct (String.eqb_spec w word) as [->|Hne].
  - right. injection H as <-. cbn [info_type info_frequency].
    split; [unfold classify; now rewrite E | now left].
  - now left.
Qed.

Lemma stored_type (df : list row) (word : string) (info : entity_info) :
  Dict.get (entities_found df) word = Some info ->
  info_type info = classify word df.
Proof.
  intros H. apply fold_discover_info in H as [H|[H _]];
    [discriminate | exact H].
Qed.

Lemma stored_frequency (df : list row) (word : string) (info : entity_info) :
  Dict.get (entities_found df) word = Some info ->
  info_frequency info = Discovery.occurrence_count df word.
Proof.
  intros H. apply fold_discover_info in H as [H|[_ H]]; [discriminate|].
  unfold word_counts in H. apply Discovery.Counter_In in H as [H _].
  rewrite Discovery.capitalized_terms_scanned in H. exact H.
Qed.

(** The type of a term as the loop over the rows leaves it *)
Lemma classify_last_role (word : string) (df : list row) :
  classify word df
  = match last_role (fired_roles (lower word) df) with
    | Some t => t
    | None =>
        if mem (lower word) field_group_words then "FieldGroup" else "Person"
    end.
Proof.
  unfold classify, classify_rows. rewrite classify_rows_from.
  now destruct (last_role (fired_roles (lower word) df)).
Qed.

(** C2, as the code has it.  On a sheet of ASCII text, the role stored for
    a candidate term is decided as follows.  The rows are visited in corpus
    order; on a row that contains the term the first of rules 1 to 5, in
    their order of precedence, whose cue the row has fires; every row on
    which a rule fires assigns the role anew, so the last such row decides;
    rules 6 and 7 (the term is itself a field-group word, else Person) apply
    exactly when no row fired. *)
Theorem last_firing_row_wins (df : list row) (word : string)
  (info : entity_info) :
  ascii_sheet df = true ->
  Dict.get (entities_found df) word = Some info ->
  info_type info
  = match last_role (fired_roles (lower word) df) with
    | Some t => t
    | None =>
        if mem (lower word) field_group_words then "FieldGroup" else "Person"
    end.
Proof.
  intros _ H. rewrite (stored_type df word H). apply classify_last_role.
Qed.

(** A corpus on which the second row has the cue of the person rule and the
    cue of the organization rule, and is the last row on which a rule
    fires *)
Definition mixed_cues : list row :=
  [{| fr_cell := Val "FR1"; desc_cell := Val "Vendor is a company";
      comments_cell := Absent |};
   {| fr_cell := Val "FR2";
      desc_cell := Val "Vendor contact person at the company";
      comments_cell := Absent |};
   {| fr_cell := Val "FR3"; desc_cell := Val "Vendor list";
      comments_cell := Absent |}].

Lemma last_firing_row_wins_witness :
  "Person"
  = match last_role (fired_roles (lower "Vendor") mixed_cues) with
    | Some t => t
    | None =>
        if mem (lower "Vendor") field_group_words then "FieldGroup"
        else "Person"
    end.
Proof.
  apply (@last_firing_row_wins mixed_cues "Vendor"
           {| info_type := "Person";
              info_context :=
                "Vendor is a company  Vendor contact person at the company  Vendor list ";
              info_frequency := 3 |}).
  - reflexivity.
  - vm_compute. reflexivity.
Defined.

(** A corpus on which the first row to fire says Person and a later row
    says Organization *)
Definition two_cues : list row :=
  [{| fr_cell := Val "FR1"; desc_cell := Val "Donor is an individual";
      comments_cell := Absent |};
   {| fr_cell := Val "FR2"; desc_cell := Val "Donor company record";
      comments_cell := Absent |};
   {| fr_cell := Val "FR3"; desc_cell := Val "Donor list";
      comments_cell := Absent |}].

(** C2 as the claim words it fails: the first rule to fire for Donor is the
    person rule, on the first row, and the stored type is Organization. *)
Lemma first_firing_row_does_not_win :
  first_role (fired_roles "donor" two_cues) = Some "Person"
  /\ option_map info_type (Dict.get (entities_found two_cues) "Donor")
     = Some "Organization".
Proof. vm_compute. split; reflexivity. Qed.

End Classifier.

(** ** The business entities *)

Module Entities.
Import Text Tables Step1 TextFacts SortFacts.

Definition of_role (role : string) (e : business_entity) : bool :=
  (e_type e =? role)%string.

Definition candidate_of (role : string) (c : string * entity_info) : bool :=
  (info_type (snd c) =? role)%string.

(** The candidate of a role that comes first when the candidates are in
    descending order of frequency *)
Definition winner (role : string) (found : Dict.t entity_info)
  : option (string * entity_info) :=
  List.find (candidate_of role) (sorted_entities found).

(** The entity a master-role candidate becomes *)
Definition master_entity (role : string) (info : entity_info)
  : business_entity :=
  {| e_name := role;
     e_type := role;
     e_purpose := infer_purpose role role (info_context info) |}.

Definition winner_entity (role : string) (found : Dict.t entity_info)
  : list business_entity :=
  match winner role found with
  | Some c => [master_entity role (snd c)]
  | None => []
  end.


Lemma master_is_entity_type (t : string) :
  mem t master_types = true -> mem t entity_types = true.
Proof.
  rewrite !mem_In. unfold master_types, entity_types. simpl. intuition.
Qed.

Lemma mem_cons (x y : string) (l : list string) :
  mem x (y :: l) = (x =? y)%string || mem x l.
Proof. reflexivity. Qed.

Lemma filter_snoc {A} (p : A -> bool) (l : list A) (x : A) :
  filter p (l ++ [x]) = (filter p l ++ (if p x then [x] else []))%list.
Proof. rewrite filter_app. reflexivity. Qed.

Lemma fold_add_entity_role (role : string) :
  mem role master_types = true ->
  forall (l : list (string * entity_info))
         (out : list business_entity) (seen : list string),
    filter (of_role role) (fst (fold_left add_entity l (out, seen)))
    = (filter (of_role role) out ++
       (if mem role seen then []
        else match List.find (candidate_of role) l with
             | Some c => [master_entity role (snd c)]
             | None => []
             end))%list.
Proof.
  intros Hrole. induction l as [|[name info] l IH]; intros out seen.
  - cbn [fold_left fst List.find]. destruct (mem role seen); now rewrite app_nil_r.
  - cbn [fold_left List.find].
    assert (Hc : candidate_of role (name, info)
                 = (info_type info =? role)%string) by reflexivity.
    rewrite Hc. clear Hc. unfold add_entity at 2.
    destruct (String.eqb_spec (info_type info) role) as [Heq|Hne].
    + rewrite Heq, (master_is_entity_type _ Hrole), Hrole.
      destruct (mem role seen) eqn:Hseen.
      * rewrite IH, Hseen. reflexivity.
      * rewrite IH, filter_snoc, mem_cons, String.eqb_refl.
        unfold of_role at 2. cbn [e_type orb snd]. rewrite String.eqb_refl.
        unfold master_entity. now rewrite app_nil_r.
    + assert (Hmem : forall s, mem role (info_type info :: s) = mem role s).
      { intros s. rewrite mem_cons.
        destruct (String.eqb_spec role (info_type info)); [congruence|reflexivity]. }
      destruct (mem (info_type info) entity_types); [|apply IH].
      destruct (mem (info_type info) master_types).
      * destruct (mem (info_type info) seen); [apply IH|].
        rewrite IH, filter_snoc, Hmem. unfold of_role at 2. cbn [e_type].
        destruct (String.eqb_spec (info_type info) role); [contradiction|].
        now rewrite app_nil_r.
      * rewrite IH, filter_snoc. unfold of_role at 2. cbn [e_type].
        destruct (String.eqb_spec (info_type info) role); [contradiction|].
        now rewrite app_nil_r.
Qed.

Lemma entities_of_role (role : string) (found : Dict.t entity_info) :
  mem role master_types = true ->
  filter (of_role role) (build_business_entities found)
  = winner_entity role found.
Proof.
  intros Hrole. unfold build_business_entities, winner_entity, winner.
  now rewrite (@fold_add_entity_role role Hrole).
Qed.







(** A master entity bears the name of its type. *)
Lemma master_names_canonical (found : Dict.t entity_info) (e : business_entity) :
  In e (build_business_entities found) ->
  mem (e_type e) master_types = true -> e_name e = e_type e.
Proof.
  unfold build_business_entities. revert e.
  apply FoldFacts.fold_left_invariant
    with (P := fun st : list business_entity * list string =>
                 forall e, In e (fst st) ->
                           mem (e_type e) master_types = true ->
                           e_name e = e_type e)
         (Q := fun _ : string * entity_info => True).
  - intros [out seen] [name info] _ Hst. unfold add_entity.
    destruct (mem (info_type info) entity_types); [|exact Hst].
    destruct (mem (info_type info) master_types) eqn:Hm.
    + destruct (mem (info_type info) seen); [exact Hst|].
      cbn [fst]. intros e He. apply in_app_or in He as [He|[<-|[]]].
      * now apply Hst.
      * reflexivity.
    + cbn [fst]. intros e He. apply in_app_or in He as [He|[<-|[]]].
      * now apply Hst.
      * cbn [e_type]. congruence.
  - apply Forall_forall. intros; exact I.
  - intros e [].
Qed.

(** Without a retained term there is no business entity. *)
Lemma no_terms_no_entities (df : list row) :
  entities_found df = [] -> discovered_entities df = [].
Proof. unfold discovered_entities. now intros ->. Qed.

End Entities.

(** ** The attribute pass *)

Module Attributes.
Import Text Tables Step1 TextFacts DictFacts.

(** Some keyword variant of the table entry occurs in the requirement. *)
Definition matches (fr : requirement) (entry : string * list string) : bool :=
  existsb (fun keyword => contains keyword (combined_text fr)) (snd entry).

(** [id] is the id of a requirement in which a keyword of the attribute
    occurs. *)
Definition justified (frs : list requirement) (name id : string) : Prop :=
  exists fr entry,
    In fr frs /\ In entry attribute_keywords
    /\ fr_number fr = id
    /\ attr_display_name (fst entry) = name
    /\ matches fr entry = true.

Definition traceable (frs : list requirement) (d : Dict.t (list string))
  : Prop :=
  forall name fr_list,
    Dict.get d name = Some fr_list ->
    fr_list <> [] /\ NoDup fr_list
    /\ forall id, In id fr_list -> justified frs name id.

Definition ids_of (d : Dict.t (list string)) (name : string) : list string :=
  match Dict.get d name with Some l => l | None => [] end.

(** What one iteration does to the dictionary when the entry matches *)
Lemma get_record_attribute (fr : requirement) (d : Dict.t (list string))
  (entry : string * list string) (name : string) :
  matches fr entry = true ->
  Dict.get (record_attribute fr d entry) name
  = if (attr_display_name (fst entry) =? name)%string
    then Some (if mem (fr_number fr) (ids_of d name)
               then ids_of d name
               else ids_of d name ++ [fr_number fr])%list
    else Dict.get d name.
Proof.
  destruct entry as [attr_name keywords]. unfold matches, record_attribute.
  cbn [fst snd]. intros ->. cbv zeta.
  set (n := attr_display_name attr_name).
  set (d1 := if negb (Dict.mem d n) then Dict.set d n [] else d).
  assert (H1 : forall k, Dict.get d1 k
                         = if (n =? k)%string then Some (ids_of d k)
                           else Dict.get d k).
  { intros k. unfold d1, ids_of, Dict.mem.
    destruct (String.eqb_spec n k) as [<-|Hne].
    - destruct (Dict.get d n) eqn:E; cbn [negb]; [exact E|].
      apply get_set_same.
    - destruct (Dict.get d n); cbn [negb]; [reflexivity|].
      now apply get_set_other. }
  assert (H2 : match Dict.get d1 n with Some l => l | None => [] end
               = ids_of d n).
  { rewrite H1, String.eqb_refl. reflexivity. }
  rewrite H2.
  destruct (mem (fr_number fr) (ids_of d n)) eqn:Hm; cbn [negb].
  - rewrite H1. destruct (String.eqb_spec n name) as [<-|Hne].
    + now rewrite Hm.
    + reflexivity.
  - rewrite get_set. destruct (String.eqb_spec n name) as [<-|Hne].
    + now rewrite Hm.
    + rewrite H1. now destruct (String.eqb_spec n name).
Qed.

Lemma record_attribute_skip (fr : requirement) (d : Dict.t (list string))
  (entry : string * list string) :
  matches fr entry = false -> record_attribute fr d entry = d.
Proof.
  destruct entry as [attr_name keywords]. unfold matches, record_attribute.
  cbn [snd]. now intros ->.
Qed.

Lemma record_attribute_traceable (frs : list requirement) (fr : requirement)
  (entry : string * list string) (d : Dict.t (list string)) :
  In fr frs -> In entry attribute_keywords ->
  traceable frs d -> traceable frs (record_attribute fr d entry).
Proof.
  intros Hfr Hentry Hd.
  destruct (matches fr entry) eqn:Hm;
    [|now rewrite record_attribute_skip].
  intros name fr_list. rewrite get_record_attribute by exact Hm.
  destruct (String.eqb_spec (attr_display_name (fst entry)) name) as [Hn|Hn];
    [|apply Hd].
  assert (Hold : NoDup (ids_of d name)
                 /\ forall id, In id (ids_of d name) -> justified frs name id).
  { unfold ids_of. destruct (Dict.get d name) as [l|] eqn:E.
    - destruct (Hd name l E) as [_ H]. exact H.
    - split; [constructor | intros id []]. }
  destruct Hold as [Hnd Hj].
  destruct (mem (fr_number fr) (ids_of d name)) eqn:Hmem; intros [= <-].
  - apply mem_In in Hmem. split; [|split; assumption].
    intros E. rewrite E in Hmem. contradiction.
  - apply mem_false in Hmem. split; [|split].
    + intros E. apply app_eq_nil in E as [_ E]. discriminate.
    + apply (Permutation_NoDup (l := fr_number fr :: ids_of d name)).
      * apply Permutation_cons_append.
      * constructor; assumption.
    + intros id Hin. apply in_app_or in Hin as [Hin|[<-|[]]].
      * now apply Hj.
      * exists fr, entry. split; [assumption|]. split; [assumption|].
        split; [reflexivity|]. split; assumption.
Qed.

Lemma attribute_pass_traceable (frs : list requirement) :
  traceable frs (attribute_pass frs).
Proof.
  unfold attribute_pass.
  apply FoldFacts.fold_left_invariant
    with (P := traceable frs) (Q := fun fr => In fr frs).
  - intros d fr Hfr Hd.
    apply FoldFacts.fold_left_invariant
      with (P := traceable frs) (Q := fun entry => In entry attribute_keywords).
    + intros d' entry Hentry Hd'. now apply record_attribute_traceable.
    + apply Forall_forall. intros entry Hentry. exact Hentry.
    + exact Hd.
  - apply Forall_forall. intros fr Hfr. exact Hfr.
  - intros name fr_list H. discriminate H.
Qed.

(** C5.  Every attribute the attribute pass records has a list of
    justifying requirement ids that is not empty and has no duplicates; every
    id in it is the id of a requirement in which a keyword of the attribute
    occurs. *)
Theorem attribute_traceability (frs : list requirement) (name : string)
  (fr_list : list string) :
  Dict.get (attribute_pass frs) name = Some fr_list ->
  fr_list <> [] /\ NoDup fr_list
  /\ forall id, In id fr_list -> justified frs name id.
Proof. apply attribute_pass_traceable. Qed.

(** Two requirements with the same id that both mention a status *)
Definition status_twice : list requirement :=
  make_requirements 0
    [{| fr_cell := Val "FR7"; desc_cell := Val "Track the status of a Donor";
        comments_cell := NaN |};
     {| fr_cell := Val "FR7"; desc_cell := Val "An inactive Donor is kept";
        comments_cell := NaN |};
     {| fr_cell := NaN; desc_cell := Val "The Donor role is stored";
        comments_cell := Val "active only" |}].

Lemma attribute_traceability_witness :
  ["FR7"; "FR3"] <> [] /\ NoDup ["FR7"; "FR3"]
  /\ forall id, In id ["FR7"; "FR3"] -> justified status_twice "Status" id.
Proof.
  apply (attribute_traceability status_twice "Status").
  vm_compute. reflexivity.
Defined.

End Attributes.

(** ** The entity consolidator *)

Module Consolidation.
Import Text Tables Step1 Step2 TextFacts DictFacts.

(** An entity of the given type was discovered. *)
Definition discovered (role : string) (s1 : step1_output) : Prop :=
  exists e, In e (business_entities s1) /\ e_type e = role.

(** The record of last resort is among the custom components. *)
Definition synthetic_entity (s2 : step2_output) : Prop :=
  exists c, In c (custom_components s2) /\ cc_type c = "CustomEntity".

Lemma nonempty_filter {A} (p : A -> bool) (l : list A) :
  nonempty (filter p l) = true <-> exists x, In x l /\ p x = true.
Proof.
  split.
  - destruct (filter p l) as [|x l'] eqn:E; [discriminate|]. intros _.
    exists x. apply filter_In. rewrite E. now left.
  - intros [x Hx]. apply filter_In in Hx.
    destruct (filter p l); [contradiction | reflexivity].
Qed.

Lemma persons_discovered (s1 : step1_output) :
  nonempty (person_requirements s1) = true <-> discovered "Person" s1.
Proof.
  unfold person_requirements, discovered. rewrite nonempty_filter.
  split; intros [e [Hin He]]; exists e; (split; [assumption|]).
  - now apply String.eqb_eq.
  - now apply String.eqb_eq.
Qed.

Lemma organizations_discovered (s1 : step1_output) :
  nonempty (organization_requirements s1) = true
  <-> discovered "Organization" s1.
Proof.
  unfold organization_requirements, discovered. rewrite nonempty_filter.
  split; intros [e [Hin He]]; exists e; (split; [assumption|]).
  - apply andb_true_iff in He as [_ He]. now apply String.eqb_eq.
  - rewrite He. reflexivity.
Qed.

(** The branch of last resort is never taken. *)
Lemma selected_template (s1 : step1_output) :
  selected_ootb_entity (consolidate s1)
  = Some (if nonempty (person_requirements s1)
             || negb (nonempty (organization_requirements s1))
          then "Person" else "Organization").
Proof.
  unfold consolidate.
  destruct (nonempty (person_requirements s1)),
           (nonempty (organization_requirements s1)); reflexivity.
Qed.

Lemma one_mapping (now : string) (s1 : step1_output) :
  exists m,
    entity_mappings (step2_map_ootb_entities now s1) = [m]
    /\ selected_ootb_entity (consolidate s1) = Some (ootb_entity m)
    /\ custom_fields_needed m = Dict.keys (all_custom_fields_with_fr (consolidate s1))
    /\ custom_fields_with_fr m = all_custom_fields_with_fr (consolidate s1).
Proof.
  unfold step2_map_ootb_entities, step2_run. cbn [fst entity_mappings].
  unfold entity_mappings_of. rewrite selected_template.
  eexists. split; [reflexivity|]. cbn. repeat split.
Qed.

(** C1.  The template of the single entity mapping: Person when a
    Person-type entity was discovered or neither a Person-type nor an
    Organization-type one was; Organization when an Organization-type
    entity was discovered and no Person-type one; never Product. *)
Theorem template_selection (now : string) (s1 : step1_output) :
  exists m,
    entity_mappings (step2_map_ootb_entities now s1) = [m]
    /\ (discovered "Person" s1
        \/ (~ discovered "Person" s1 /\ ~ discovered "Organization" s1)
        -> ootb_entity m = "Person")
    /\ (discovered "Organization" s1 /\ ~ discovered "Person" s1
        -> ootb_entity m = "Organization")
    /\ ootb_entity m <> "Product".
Proof.
  destruct (one_mapping now s1) as [m [Hm [Hsel _]]].
  exists m. split; [exact Hm|].
  rewrite selected_template in Hsel. injection Hsel as Hsel.
  rewrite <- Hsel.
  pose proof (persons_discovered s1) as HP.
  pose proof (organizations_discovered s1) as HO.
  destruct (nonempty (person_requirements s1)),
           (nonempty (organization_requirements s1)); cbn;
    (split; [|split]); try discriminate; try reflexivity.
  - intros [_ H]. exfalso. apply H. now apply HP.
  - intros [_ H]. exfalso. apply H. now apply HP.
  - intros [H|[_ H]]; exfalso.
    + apply HP in H. discriminate.
    + apply H. now apply HO.
  - intros [H _]. apply HO in H. discriminate.
Qed.

(** The field-group loop adds custom field groups only. *)
Lemma map_field_group_components (entities : list business_entity) :
  forall (st : list field_group_mapping * list custom_component)
         (c : custom_component),
    In c (snd (fold_left map_field_group entities st)) ->
    In c (snd st) \/ cc_type c = "CustomFieldGroup".
Proof.
  induction entities as [|e entities IH]; intros st c H; [now left|].
  cbn [fold_left] in H. apply IH in H as [H|H]; [|now right].
  unfold map_field_group in H.
  destruct (e_type e =? "FieldGroup")%string.
  - destruct (Dict.get OOTB_FIELD_GROUPS (e_name e)); now left.
  - destruct (e_type e =? "CustomFieldGroup")%string; [|now left].
    cbn [snd] in H. apply in_app_or in H as [H|[<-|[]]]; [now left | now right].
Qed.

(** The record of last resort is produced for no input. *)
Lemma never_synthetic (now : string) (s1 : step1_output) :
  ~ synthetic_entity (step2_map_ootb_entities now s1).
Proof.
  intros [c [Hin Hc]].
  unfold step2_map_ootb_entities, step2_run in Hin.
  cbn [fst custom_components] in Hin.
  apply map_field_group_components in Hin as [Hin|Hin].
  - cbn [snd] in Hin. unfold last_resort_components in Hin.
    rewrite selected_template in Hin. contradiction.
  - rewrite Hin in Hc. discriminate.
Qed.

(** The mapping made when nothing was discovered: the Person template with
    its standard fields and nothing else *)
Definition bare_person_mapping : entity_mapping :=
  {| em_requirement := "Unified MDM Entity";
     ootb_entity := "Person";
     em_justification := consolidation_justification [] "Person";
     ootb_fields_used := ootb_person_attributes;
     custom_fields_needed := [];
     custom_fields_with_fr := [];
     consolidated_requirements := [] |}.

(** C3, as the code has it.  When no business entity was discovered the
    consolidation emits exactly one entity mapping, the ordinary mapping on
    the Person template with the template's standard fields and no custom
    field, and neither a custom component nor the record of last resort. *)
Theorem no_entities_consolidation (now : string) (s1 : step1_output) :
  business_entities s1 = [] ->
  entity_mappings (step2_map_ootb_entities now s1) = [bare_person_mapping]
  /\ field_group_mappings (step2_map_ootb_entities now s1) = []
  /\ custom_components (step2_map_ootb_entities now s1) = []
  /\ ~ synthetic_entity (step2_map_ootb_entities now s1).
Proof.
  intros H. split; [|split; [|split]].
  - unfold step2_map_ootb_entities, step2_run, consolidate,
      person_requirements, organization_requirements.
    rewrite H. reflexivity.
  - unfold step2_map_ootb_entities, step2_run. rewrite H. reflexivity.
  - unfold step2_map_ootb_entities, step2_run, consolidate,
      person_requirements, organization_requirements.
    rewrite H. reflexivity.
  - apply never_synthetic.
Qed.

(** A sheet whose text has no capitalized term that occurs three times *)
Definition no_terms : list row :=
  [{| fr_cell := Val "FR1";
      desc_cell := Val "The solution stores the status of each record";
      comments_cell := Absent |}].

Definition no_terms_extraction : step1_output :=
  step1_extract_requirements "2025-01-01T00:00:00" (fun l => l)
    "requirements.xlsx" no_terms.

Lemma no_entities_consolidation_witness :
  entity_mappings (step2_map_ootb_entities "later" no_terms_extraction)
  = [bare_person_mapping]
  /\ field_group_mappings (step2_map_ootb_entities "later" no_terms_extraction) = []
  /\ custom_components (step2_map_ootb_entities "later" no_terms_extraction) = []
  /\ ~ synthetic_entity (step2_map_ootb_entities "later" no_terms_extraction).
Proof.
  apply (no_entities_consolidation "later" no_terms_extraction).
  vm_compute. reflexivity.
Defined.

(** C3 as the claim words it fails: on a sheet without candidate terms no
    business entity is discovered, and the consolidation result holds an
    ordinary Person mapping and no custom component at all. *)
Lemma no_fallback_without_entities :
  Dict.keys (entities_found no_terms) = []
  /\ business_entities no_terms_extraction = []
  /\ map ootb_entity
       (entity_mappings (step2_map_ootb_entities "later" no_terms_extraction))
     = ["Person"]
  /\ custom_components (step2_map_ootb_entities "later" no_terms_extraction)
     = [].
Proof. vm_compute. repeat split. Qed.


(** *** Custom fields and their justification *)

(** A field the backward-compatibility fallback can add: it is in the plain
    custom list of the attribute table of a Person-type entity, and that
    table has no [custom_with_fr]. *)
Definition carried_over (s1 : step1_output) (f : string) : Prop :=
  exists e attrs,
    In e (business_entities s1) /\ e_type e = "Person"
    /\ Dict.get (attributes s1) (e_name e) = Some attrs
    /\ custom_with_fr attrs = None
    /\ In f (custom attrs).

(** Every attribute table carries [custom_with_fr]. *)
Definition has_traceability (s1 : step1_output) : Prop :=
  forall name attrs,
    Dict.get (attributes s1) name = Some attrs -> custom_with_fr attrs <> None.

(** No requirement mentions the field. *)
Definition unmentioned (s1 : step1_output) (f : string) : Prop :=
  forall fr, In fr (functional_requirements s1) ->
             contains (lower f) (combined_text fr) = false.

(** The entries of [d] that are not entries of [d0] have a non-empty list. *)
Definition adds_justified (d0 d : Dict.t (list string)) : Prop :=
  forall f l, Dict.get d f = Some l -> l <> [] \/ Dict.get d0 f = Some l.

Lemma adds_justified_refl (d : Dict.t (list string)) : adds_justified d d.
Proof. intros f l H. now right. Qed.

Lemma adds_justified_trans (d0 d1 d2 : Dict.t (list string)) :
  adds_justified d0 d1 -> adds_justified d1 d2 -> adds_justified d0 d2.
Proof.
  intros H01 H12 f l H. destruct (H12 f l H) as [Hl|Hl]; [now left|].
  now apply H01.
Qed.

Lemma add_traced_justified (with_fr d : Dict.t (list string)) :
  adds_justified d (add_traced with_fr d).
Proof.
  unfold add_traced.
  apply FoldFacts.fold_left_invariant
    with (P := adds_justified d) (Q := fun _ => True).
  - intros d' [f0 l0] _ Hd'. cbn [fst snd].
    destruct l0 as [|x l0]; [exact Hd'|].
    intros f l. rewrite get_set.
    destruct (String.eqb_spec f0 f); [|apply Hd'].
    intros [= <-]. now left.
  - apply Forall_forall. intros; exact I.
  - apply adds_justified_refl.
Qed.

Lemma add_untraced_entries (custom_list : list string)
  (d : Dict.t (list string)) (f : string) (l : list string) :
  Dict.get (add_untraced custom_list d) f = Some l ->
  Dict.get d f = Some l \/ In f custom_list.
Proof.
  unfold add_untraced. revert f l.
  apply FoldFacts.fold_left_invariant
    with (P := fun d' => forall f l, Dict.get d' f = Some l ->
                           Dict.get d f = Some l \/ In f custom_list)
         (Q := fun x => In x custom_list).
  - intros d' x Hx Hd' f l.
    destruct (negb (Dict.mem d' x)); [|apply Hd'].
    rewrite get_set. destruct (String.eqb_spec x f) as [<-|Hne]; [|apply Hd'].
    intros _. now right.
  - apply Forall_forall. intros x Hx. exact Hx.
  - intros f l H. now left.
Qed.

(** What recording an id under a key does to the dictionary; the source
    has these statements three times. *)
Lemma get_after_recording (d : Dict.t (list string)) (name id k : string) :
  let d1 := if negb (Dict.mem d name) then Dict.set d name [] else d in
  let fr_list := match Dict.get d1 name with Some l => l | None => [] end in
  forall l,
    Dict.get (if negb (mem id fr_list)
              then Dict.set d1 name (fr_list ++ [id])%list
              else d1) k = Some l ->
    l <> [] \/ Dict.get d k = Some l.
Proof.
  cbv zeta.
  set (d1 := if negb (Dict.mem d name) then Dict.set d name [] else d).
  assert (H1 : forall k', name <> k' -> Dict.get d1 k' = Dict.get d k').
  { intros k' Hne. unfold d1.
    destruct (negb (Dict.mem d name)); [now apply get_set_other | reflexivity]. }
  intros l.
  destruct (mem id match Dict.get d1 name with Some l0 => l0 | None => [] end)
    eqn:Hm; cbn [negb].
  - destruct (String.eqb_spec name k) as [<-|Hne].
    + intros H. rewrite H in Hm. left. intros ->. discriminate.
    + rewrite (H1 k Hne). now right.
  - rewrite get_set. destruct (String.eqb_spec name k) as [<-|Hne].
    + intros [= <-]. left. intros E. apply app_eq_nil in E as [_ E].
      discriminate.
    + rewrite (H1 k Hne). now right.
Qed.

Lemma note_mention_justified (field : string)
  (st : bool * Dict.t (list string)) (fr : requirement) :
  adds_justified (snd st) (snd (note_mention field st fr)).
Proof.
  unfold note_mention.
  destruct (contains (lower field) (combined_text fr));
    [|apply adds_justified_refl].
  cbn [snd]. intros f l. apply get_after_recording.
Qed.

Lemma scan_justified (field : string) (frs : list requirement) :
  forall st : bool * Dict.t (list string),
    adds_justified (snd st) (snd (fold_left (note_mention field) frs st)).
Proof.
  induction frs as [|fr frs IH]; intros st; cbn [fold_left].
  - apply adds_justified_refl.
  - eapply adds_justified_trans; [apply note_mention_justified | apply IH].
Qed.

(** The scan reports a mention exactly when some requirement has one. *)
Lemma scan_mentioned (field : string) (frs : list requirement) :
  forall st : bool * Dict.t (list string),
    fst (fold_left (note_mention field) frs st)
    = fst st
      || existsb (fun fr => contains (lower field) (combined_text fr)) frs.
Proof.
  induction frs as [|fr frs IH]; intros st; cbn [fold_left existsb].
  - now rewrite orb_false_r.
  - rewrite IH. unfold note_mention.
    destruct (contains (lower field) (combined_text fr)); cbn [fst orb].
    + now rewrite orb_true_r.
    + reflexivity.
Qed.


Lemma fold_in_field_justified (s1 : step1_output) (candidate : string -> bool)
  (st : Dict.t (list string) * list diagnostic) (field : string) :
  adds_justified (fst st) (fst (fold_in_field s1 candidate st field)).
Proof.
  unfold fold_in_field. destruct (candidate field);
    [|apply adds_justified_refl].
  cbn [fst]. apply (scan_justified field (functional_requirements s1)
                      (false, fst st)).
Qed.

Lemma fold_in_field_printed (s1 : step1_output) (candidate : string -> bool)
  (st : Dict.t (list string) * list diagnostic) (field f : string) :
  In (Skipping f) (snd (fold_in_field s1 candidate st field)) ->
  In (Skipping f) (snd st) \/ (f = field /\ unmentioned s1 f).
Proof.
  unfold fold_in_field. destruct (candidate field); [|now left].
  cbn [snd]. rewrite scan_mentioned. cbn [fst orb].
  destruct (existsb _ (functional_requirements s1)) eqn:E; cbn [negb];
    [now left|].
  intros H. apply in_app_or in H as [H|[H|[]]]; [now left|].
  injection H as <-. right. split; [reflexivity|].
  intros fr Hfr.
  destruct (contains (lower field) (combined_text fr)) eqn:Hc; [|reflexivity].
  assert (X : existsb (fun fr => contains (lower field) (combined_text fr))
                (functional_requirements s1) = true)
    by (apply existsb_exists; now exists fr).
  congruence.
Qed.

Lemma fields_fold (s1 : step1_output) (candidate : string -> bool)
  (fields : list string) :
  forall st : Dict.t (list string) * list diagnostic,
    adds_justified (fst st)
      (fst (fold_left (fold_in_field s1 candidate) fields st))
    /\ forall f,
         In (Skipping f)
           (snd (fold_left (fold_in_field s1 candidate) fields st)) ->
         In (Skipping f) (snd st) \/ (In f fields /\ unmentioned s1 f).
Proof.
  induction fields as [|field fields IH]; intros st; cbn [fold_left].
  - split; [apply adds_justified_refl | now left].
  - destruct (IH (fold_in_field s1 candidate st field)) as [IH1 IH2]. split.
    + eapply adds_justified_trans; [apply fold_in_field_justified | exact IH1].
    + intros f H. apply IH2 in H as [H|[H1 H2]].
      * apply fold_in_field_printed in H as [H|[-> H]]; [now left|].
        right. split; [now left | assumption].
      * right. split; [now right | assumption].
Qed.

Lemma add_organization_fields_spec (s1 : step1_output) (ootb : list string)
  (st : Dict.t (list string) * list diagnostic) (org_req : business_entity) :
  adds_justified (fst st) (fst (add_organization_fields s1 ootb st org_req))
  /\ forall f,
       In (Skipping f) (snd (add_organization_fields s1 ootb st org_req)) ->
       In (Skipping f) (snd st)
       \/ (In f Organization_standard_fields /\ unmentioned s1 f).
Proof.
  unfold add_organization_fields.
  destruct (Dict.get (attributes s1) (e_name org_req)) as [attrs|];
    [|split; [apply adds_justified_refl | now left]].
  match goal with
  | |- context [fold_left ?F ?L ?S] =>
      destruct (fields_fold s1
                  (fun org_field =>
                     negb (mem org_field ["TaxID"])
                     && negb (mem org_field ootb))
                  Organization_standard_fields S) as [H1 H2]
  end.
  split.
  - eapply adds_justified_trans; [|exact H1]. cbn [fst].
    destruct (custom_with_fr attrs);
      [apply add_traced_justified | apply adds_justified_refl].
  - intros f H. apply H2 in H. exact H.
Qed.

Lemma organizations_fold (s1 : step1_output) (ootb : list string)
  (orgs : list business_entity) :
  forall st : Dict.t (list string) * list diagnostic,
    adds_justified (fst st)
      (fst (fold_left (add_organization_fields s1 ootb) orgs st))
    /\ forall f,
         In (Skipping f)
           (snd (fold_left (add_organization_fields s1 ootb) orgs st)) ->
         In (Skipping f) (snd st)
         \/ (In f Organization_standard_fields /\ unmentioned s1 f).
Proof.
  induction orgs as [|org orgs IH]; intros st; cbn [fold_left].
  - split; [apply adds_justified_refl | now left].
  - destruct (IH (add_organization_fields s1 ootb st org)) as [IH1 IH2].
    destruct (add_organization_fields_spec s1 ootb st org) as [S1 S2].
    split.
    + eapply adds_justified_trans; eassumption.
    + intros f H. apply IH2 in H as [H|H]; [now apply S2 | now right].
Qed.

(** Every entry has a justification or is one the fallback can add. *)
Definition traced_or_carried (s1 : step1_output) (d : Dict.t (list string))
  : Prop :=
  forall f l, Dict.get d f = Some l -> l <> [] \/ carried_over s1 f.

Lemma traced_or_carried_later (s1 : step1_output)
  (d0 d : Dict.t (list string)) :
  traced_or_carried s1 d0 -> adds_justified d0 d -> traced_or_carried s1 d.
Proof.
  intros H0 H f l Hf. destruct (H f l Hf) as [Hl|Hl]; [now left|].
  now apply (H0 f l).
Qed.

Lemma persons_fold (s1 : step1_output) :
  traced_or_carried s1
    (fold_left (add_person_fields s1) (person_requirements s1) []).
Proof.
  apply FoldFacts.fold_left_invariant
    with (P := traced_or_carried s1)
         (Q := fun e => In e (business_entities s1) /\ e_type e = "Person").
  - intros d e [Hin Htype] Hd. unfold add_person_fields.
    destruct (Dict.get (attributes s1) (e_name e)) as [attrs|] eqn:Hattrs;
      [|exact Hd].
    destruct (custom_with_fr attrs) as [with_fr|] eqn:Hwf.
    + eapply traced_or_carried_later; [exact Hd | apply add_traced_justified].
    + intros f l Hf. apply add_untraced_entries in Hf as [Hf|Hf].
      * now apply (Hd f l).
      * right. exists e, attrs. repeat split; assumption.
  - apply Forall_forall. intros e He. unfold person_requirements in He.
    apply filter_In in He as [Hin He]. split; [assumption|].
    now apply String.eqb_eq.
  - intros f l H. discriminate H.
Qed.

Lemma own_organization_fold (s1 : step1_output) :
  traced_or_carried s1
    (fold_left (add_own_organization_fields s1)
       (organization_requirements s1) []).
Proof.
  apply FoldFacts.fold_left_invariant
    with (P := traced_or_carried s1) (Q := fun _ => True).
  - intros d e _ Hd. unfold add_own_organization_fields.
    destruct (Dict.get (attributes s1) (e_name e)) as [attrs|]; [|exact Hd].
    destruct (custom_with_fr attrs); [|exact Hd].
    eapply traced_or_carried_later; [exact Hd | apply add_traced_justified].
  - apply Forall_forall. intros; exact I.
  - intros f l H. discriminate H.
Qed.

(** The custom fields and the diagnostics of the consolidation *)
Lemma consolidate_spec (s1 : step1_output) :
  traced_or_carried s1 (all_custom_fields_with_fr (consolidate s1))
  /\ forall f,
       In (Skipping f) (printed (consolidate s1)) ->
       In f Organization_standard_fields /\ unmentioned s1 f.
Proof.
  unfold consolidate.
  destruct (nonempty (person_requirements s1)) eqn:HP,
           (nonempty (organization_requirements s1)) eqn:HO;
    cbn [orb andb negb all_custom_fields_with_fr printed fst snd].
  - match goal with
    | |- context [fold_left (add_organization_fields s1 ?O) ?L ?S] =>
        destruct (organizations_fold s1 O L S) as [H1 H2]
    end.
    split.
    + eapply traced_or_carried_later; [apply persons_fold | exact H1].
    + intros f H. apply H2 in H as [[]|H]. exact H.
  - split; [apply persons_fold | intros f []].
  - split; [apply own_organization_fold | intros f []].
  - split; [apply persons_fold | intros f []].
Qed.


Lemma map_field_group_mappings (entities : list business_entity) :
  forall (st : list field_group_mapping * list custom_component)
         (g : field_group_mapping),
    In g (fst (fold_left map_field_group entities st)) ->
    In g (fst st) \/ fg_custom_fields_needed g = ["SourceSystemKey"].
Proof.
  induction entities as [|e entities IH]; intros st g H; [now left|].
  cbn [fold_left] in H. apply IH in H as [H|H]; [|now right].
  unfold map_field_group in H.
  destruct (e_type e =? "FieldGroup")%string.
  - destruct (Dict.get OOTB_FIELD_GROUPS (e_name e)); [|now left].
    cbn [fst] in H. apply in_app_or in H as [H|[<-|[]]]; [now left | now right].
  - destruct (e_type e =? "CustomFieldGroup")%string; now left.
Qed.

Lemma diagnostics_printed (s1 : step1_output) (f : string) :
  In (Skipping f) (step2_diagnostics s1) ->
  In (Skipping f) (printed (consolidate s1)).
Proof.
  unfold step2_diagnostics, step2_run. cbn [snd].
  rewrite selected_template, app_nil_r. trivial.
Qed.

(** An extraction result of step 1 has [custom_with_fr] in its attribute
    table. *)
Lemma extraction_has_traceability (now : string)
  (set_order : list string -> list string) (excel_file : string)
  (df : list row) :
  has_traceability (step1_extract_requirements now set_order excel_file df).
Proof.
  intros name attrs. unfold step1_extract_requirements.
  cbn [attributes Dict.get].
  destruct (_ =? name)%string; [|discriminate].
  intros [= <-]. discriminate.
Qed.

(** *** The diagnostics *)

Lemma unmentioned_scan (s1 : step1_output) (field : string) :
  unmentioned s1 field ->
  existsb (fun fr => contains (lower field) (combined_text fr))
    (functional_requirements s1) = false.
Proof.
  intros H. destruct (existsb _ (functional_requirements s1)) eqn:E;
    [|reflexivity].
  apply existsb_exists in E as [fr [Hin Hc]]. rewrite (H fr Hin) in Hc.
  discriminate.
Qed.

Lemma fold_in_field_keeps (s1 : step1_output) (candidate : string -> bool)
  (st : Dict.t (list string) * list diagnostic) (field : string)
  (x : diagnostic) :
  In x (snd st) -> In x (snd (fold_in_field s1 candidate st field)).
Proof.
  intros H. unfold fold_in_field. destruct (candidate field); [|exact H].
  cbn [snd]. destruct (negb _); [|exact H]. apply in_or_app. now left.
Qed.

Lemma fold_in_field_reports (s1 : step1_output) (candidate : string -> bool)
  (st : Dict.t (list string) * list diagnostic) (field : string) :
  candidate field = true -> unmentioned s1 field ->
  In (Skipping field) (snd (fold_in_field s1 candidate st field)).
Proof.
  intros Hc Hu. unfold fold_in_field. rewrite Hc. cbn [snd].
  rewrite scan_mentioned, (unmentioned_scan Hu). cbn [fst orb negb].
  apply in_or_app. right. now left.
Qed.

Lemma fields_fold_reports (s1 : step1_output) (candidate : string -> bool)
  (fields : list string) (f : string) :
  forall st : Dict.t (list string) * list diagnostic,
    (In (Skipping f) (snd st)
     \/ (In f fields /\ candidate f = true /\ unmentioned s1 f)) ->
    In (Skipping f) (snd (fold_left (fold_in_field s1 candidate) fields st)).
Proof.
  induction fields as [|field fields IH]; intros st H; cbn [fold_left].
  - destruct H as [H|[[] _]]. exact H.
  - apply IH. destruct H as [H|[[<-|Hin] [Hc Hu]]].
    + left. now apply fold_in_field_keeps.
    + left. now apply fold_in_field_reports.
    + right. repeat split; assumption.
Qed.

Definition organization_candidate (ootb : list string) (org_field : string)
  : bool :=
  negb (mem org_field ["TaxID"]) && negb (mem org_field ootb).

Lemma organizations_fold_reports (s1 : step1_output) (ootb : list string)
  (orgs : list business_entity) (f : string) :
  In f Organization_standard_fields ->
  organization_candidate ootb f = true -> unmentioned s1 f ->
  forall st : Dict.t (list string) * list diagnostic,
    (In (Skipping f) (snd st)
     \/ exists org, In org orgs
                    /\ Dict.mem (attributes s1) (e_name org) = true) ->
    In (Skipping f)
      (snd (fold_left (add_organization_fields s1 ootb) orgs st)).
Proof.
  intros Hf Hc Hu. induction orgs as [|org orgs IH]; intros st H;
    cbn [fold_left].
  - destruct H as [H|[org [[] _]]]. exact H.
  - apply IH.
    assert (Keeps : In (Skipping f) (snd st) ->
                    In (Skipping f) (snd (add_organization_fields s1 ootb st org))).
    { intros Hin. unfold add_organization_fields.
      destruct (Dict.get (attributes s1) (e_name org)); [|exact Hin].
      apply fields_fold_reports. now left. }
    destruct H as [H|[org' [[<-|Hin] Hmem]]].
    + left. now apply Keeps.
    + left. unfold add_organization_fields. unfold Dict.mem in Hmem.
      destruct (Dict.get (attributes s1) (e_name org)); [|discriminate].
      apply fields_fold_reports. right. repeat split; assumption.
    + right. exists org'. split; assumption.
Qed.

(** Every unmentioned field of the Organization template that is a
    candidate is reported, when a Person-type entity is consolidated with an
    Organization-type entity whose name is a key of the attribute table. *)
Lemma unmentioned_fields_reported (s1 : step1_output) (org : business_entity)
  (f : string) :
  discovered "Person" s1 ->
  In org (organization_requirements s1) ->
  Dict.mem (attributes s1) (e_name org) = true ->
  In f Organization_standard_fields ->
  organization_candidate ootb_person_attributes f = true ->
  unmentioned s1 f ->
  In (Skipping f) (step2_diagnostics s1).
Proof.
  intros HP Horg Hmem Hf Hc Hu.
  unfold step2_diagnostics, step2_run. cbn [snd].
  apply in_or_app. left. unfold consolidate.
  apply persons_discovered in HP. rewrite HP.
  assert (HO : nonempty (organization_requirements s1) = true).
  { destruct (organization_requirements s1); [contradiction | reflexivity]. }
  rewrite HO. cbn [orb printed snd].
  apply organizations_fold_reports; try assumption.
  right. exists org. split; assumption.
Qed.

(** X14.  The consolidation of an extraction result of step 1 reports nothing:
    the attribute table is keyed by Person or Constituent, never by the
    name of an Organization-type entity. *)
Lemma extraction_consolidation_silent (now : string)
  (set_order : list string -> list string) (excel_file : string)
  (df : list row) :
  step2_diagnostics (step1_extract_requirements now set_order excel_file df)
  = [].
Proof.
  set (s1 := step1_extract_requirements now set_order excel_file df).
  unfold step2_diagnostics, step2_run. cbn [snd].
  rewrite selected_template, app_nil_r.
  assert (Hskip : forall (st : Dict.t (list string) * list diagnostic) org,
             In org (organization_requirements s1) ->
             add_organization_fields s1 ootb_person_attributes st org = st).
  { intros st org Horg. unfold add_organization_fields.
    assert (Hname : e_name org = "Organization").
    { unfold organization_requirements in Horg.
      apply filter_In in Horg as [Hin Ht].
      apply andb_true_iff in Ht as [_ Ht]. apply String.eqb_eq in Ht.
      rewrite <- Ht. apply (Entities.master_names_canonical _ _ Hin).
      rewrite Ht. reflexivity. }
    rewrite Hname. unfold s1, step1_extract_requirements.
    cbn [attributes Dict.get]. unfold main_entity_name.
    destruct (List.find _ (discovered_entities df)) as [e|] eqn:E.
    - apply find_some in E as [Hin He]. apply String.eqb_eq in He.
      rewrite (Entities.master_names_canonical _ _ Hin), He by (now rewrite He).
      reflexivity.
    - reflexivity. }
  unfold consolidate.
  destruct (nonempty (person_requirements s1)),
           (nonempty (organization_requirements s1));
    cbn [orb andb negb printed snd]; try reflexivity.
  assert (G : forall orgs st,
             incl orgs (organization_requirements s1) ->
             fold_left (add_organization_fields s1 ootb_person_attributes) orgs st
             = st).
  { induction orgs as [|org orgs IH]; intros st Hi; [reflexivity|].
    cbn [fold_left]. rewrite Hskip by (apply Hi; now left).
    apply IH. intros x Hx. apply Hi. now right. }
  change (filter (fun f => negb (mem f ["SSN"; "TaxID"])) Person_standard_fields)
    with ootb_person_attributes.
  rewrite G by apply incl_refl. reflexivity.
Qed.

(** C4, as the code has it.  Every custom field of the entity mapping has
    its list of requirement ids, and the list is not empty unless the field
    was carried over by the backward-compatibility fallback; with
    traceability data in every attribute table, as in every extraction
    result of step 1, no list is empty.  The custom fields of a field-group
    mapping are the source-record tracking key alone.  A field reported
    as skipped is a standard field of the Organization template that no
    requirement mentions; and when a Person-type entity is consolidated
    with an Organization-type entity whose name is a key of the attribute
    table, every such field that is a candidate (not TaxID, not a field of
    the Person template) is reported. *)
Theorem custom_fields_traced (now : string) (s1 : step1_output) :
  (forall m f,
      In m (entity_mappings (step2_map_ootb_entities now s1)) ->
      In f (custom_fields_needed m) ->
      exists ids,
        Dict.get (custom_fields_with_fr m) f = Some ids
        /\ (ids <> [] \/ carried_over s1 f)
        /\ (has_traceability s1 -> ids <> []))
  /\ (forall g,
         In g (field_group_mappings (step2_map_ootb_entities now s1)) ->
         fg_custom_fields_needed g = ["SourceSystemKey"])
  /\ (forall f,
         In (Skipping f) (step2_diagnostics s1) ->
         In f Organization_standard_fields /\ unmentioned s1 f)
  /\ (forall org f,
         discovered "Person" s1 ->
         In org (organization_requirements s1) ->
         Dict.mem (attributes s1) (e_name org) = true ->
         In f Organization_standard_fields ->
         organization_candidate ootb_person_attributes f = true ->
         unmentioned s1 f ->
         In (Skipping f) (step2_diagnostics s1)).
Proof.
  destruct (consolidate_spec s1) as [Hfields Hprinted].
  split; [|split; [|split]].
  - intros m f Hm Hf.
    destruct (one_mapping now s1) as [m' [Hm' [_ [Hkeys Hdict]]]].
    rewrite Hm' in Hm. destruct Hm as [<-|[]].
    rewrite Hkeys in Hf. apply keys_get in Hf as [ids Hids].
    exists ids. rewrite Hdict. split; [exact Hids|].
    destruct (Hfields f ids Hids) as [H|H].
    + split; [now left | trivial].
    + split; [now right|].
      intros Htr. destruct H as [e [attrs [_ [_ [Hget [Hnone _]]]]]].
      exfalso. exact (Htr _ _ Hget Hnone).
  - intros g Hg. unfold step2_map_ootb_entities, step2_run in Hg.
    cbn [fst field_group_mappings] in Hg.
    apply map_field_group_mappings in Hg as [[]|Hg]. exact Hg.
  - intros f Hf. apply Hprinted. now apply diagnostics_printed.
  - intros org f. apply unmentioned_fields_reported.
Qed.

(** An extraction result written without [custom_with_fr] *)
Definition legacy_extraction : step1_output :=
  {| extraction_date := "2024-01-01T00:00:00";
     total_requirements := 0;
     source_file := "requirements.xlsx";
     functional_requirements := [];
     business_entities :=
       [{| e_name := "Person"; e_type := "Person";
           e_purpose := "Person master entity in MDM model" |}];
     attributes :=
       [("Person",
         {| standard := ootb_person_attributes;
            custom := ["Nickname"];
            custom_with_fr := None |})];
     relationships := [];
     roles := [];
     source_systems := [];
     matching_rules := Tables.matching_rules;
     data_quality_rules := Tables.data_quality_rules |}.

(** C4 as the claim words it fails: the fallback puts Nickname among the
    custom fields with no requirement id, and nothing is reported. *)
Lemma unjustified_field_carried_over :
  map (fun m => (custom_fields_needed m, custom_fields_with_fr m))
    (entity_mappings (step2_map_ootb_entities "later" legacy_extraction))
  = [(["Nickname"], [("Nickname", [])])]
  /\ step2_diagnostics legacy_extraction = [].
Proof. vm_compute. split; reflexivity. Qed.

End Consolidation.

(** ** The key of the attribute table *)

Module Keying.
Import Text Tables Step1 Step2 Main TextFacts DictFacts SortFacts.
Import Consolidation.

Lemma filter_none {A} (p : A -> bool) (l : list A) :
  (forall x, In x l -> p x = false) -> filter p l = [].
Proof.
  induction l as [|x l IH]; intros H; [reflexivity|]. cbn [filter].
  rewrite (H x (or_introl eq_refl)). apply IH. intros y Hy. apply H. now right.
Qed.

(** When no Person-type entity is consolidated and the names of the
    Organization-type entities are not keys of the attribute table, the
    mapping has no custom field. *)
Lemma no_lookup_no_fields (s1 : step1_output) :
  person_requirements s1 = [] ->
  (forall e, In e (organization_requirements s1) ->
             Dict.get (attributes s1) (e_name e) = None) ->
  all_custom_fields_with_fr (consolidate s1) = [].
Proof.
  intros HP HO. unfold consolidate. rewrite HP.
  assert (Hown : fold_left (add_own_organization_fields s1)
                   (organization_requirements s1) [] = []).
  { apply FoldFacts.fold_left_invariant
      with (P := fun d : Dict.t (list string) => d = [])
           (Q := fun e => In e (organization_requirements s1)).
    - intros d e He ->. unfold add_own_organization_fields.
      now rewrite (HO e He).
    - apply Forall_forall. trivial.
    - reflexivity. }
  destruct (nonempty (organization_requirements s1));
    cbn [nonempty orb andb negb all_custom_fields_with_fr fst fold_left].
  - exact Hown.
  - reflexivity.
Qed.

Lemma main_entity_name_default (entities : list business_entity) :
  (forall e, In e entities -> e_type e <> "Person") ->
  main_entity_name entities = "Constituent".
Proof.
  intros H. unfold main_entity_name.
  destruct (List.find _ entities) as [e|] eqn:E; [|reflexivity].
  apply find_some in E as [Hin He]. apply String.eqb_eq in He.
  now apply H in Hin.
Qed.

(** The attribute table of an extraction result holds what the attribute
    pass recorded. *)
Lemma recorded_in_table (now : string) (set_order : list string -> list string)
  (excel_file : string) (df : list row) (name : string) (ids : list string) :
  Dict.get (attribute_pass (make_requirements 0 df)) name = Some ids ->
  exists attrs table,
    attributes (step1_extract_requirements now set_order excel_file df)
    = [(main_entity_name (discovered_entities df), attrs)]
    /\ custom_with_fr attrs = Some table
    /\ In (name, ids) table.
Proof.
  intros H. unfold step1_extract_requirements. cbn [attributes].
  eexists. eexists. split; [reflexivity|].
  cbn [custom_with_fr]. split; [reflexivity|].
  apply in_map_iff. exists name. rewrite H. split; [reflexivity|].
  apply sorted_In. eapply get_Some_keys. exact H.
Qed.

(** C10, as the code has it.  The attribute table has one key, the name of
    the first Person-type entity or Constituent.  When no Person-type
    entity was discovered the key is Constituent, no Person- or
    Organization-type entity bears that name, the table under that key
    holds every attribute the attribute pass recorded, and the entity
    mapping has no custom field. *)
Theorem unkeyed_attributes_dropped (w : surroundings) (excel_file : string)
  (df : list row) :
  (forall e, In e (discovered_entities df) -> e_type e <> "Person") ->
  Dict.keys (attributes (extract w excel_file df))
  = [main_entity_name (business_entities (extract w excel_file df))]
  /\ Dict.keys (attributes (extract w excel_file df)) = ["Constituent"]
  /\ (forall e, In e (business_entities (extract w excel_file df)) ->
                e_type e = "Person" \/ e_type e = "Organization" ->
                e_name e <> "Constituent")
  /\ (forall name ids,
         Dict.get (attribute_pass
                     (functional_requirements (extract w excel_file df))) name
         = Some ids ->
         exists attrs table,
           Dict.get (attributes (extract w excel_file df)) "Constituent"
           = Some attrs
           /\ custom_with_fr attrs = Some table
           /\ In (name, ids) table)
  /\ (forall m, In m (entity_mappings (consolidated w excel_file df)) ->
                custom_fields_needed m = [] /\ custom_fields_with_fr m = []).
Proof.
  intros Hno.
  assert (Hkey : main_entity_name (discovered_entities df) = "Constituent")
    by now apply main_entity_name_default.
  assert (Hnames : forall e, In e (discovered_entities df) ->
                     e_type e = "Person" \/ e_type e = "Organization" ->
                     e_name e = e_type e).
  { intros e He Ht. apply (Entities.master_names_canonical _ _ He).
    destruct Ht as [-> | ->]; reflexivity. }
  split; [reflexivity|].
  split; [unfold extract, step1_extract_requirements; cbn [attributes Dict.keys map fst];
          now rewrite Hkey|].
  split; [|split].
  - intros e He Ht. cbn [extract business_entities step1_extract_requirements] in He.
    rewrite (Hnames e He Ht). destruct Ht as [-> | ->]; discriminate.
  - intros name ids H.
    cbn [extract functional_requirements step1_extract_requirements] in H.
    destruct (recorded_in_table (clock1 w) (set_order w) excel_file df name H)
      as [attrs [table [Hattrs [Htable Hin]]]].
    exists attrs, table. unfold extract. rewrite Hattrs, Hkey.
    cbn [Dict.get]. rewrite String.eqb_refl. repeat split; assumption.
  - intros m Hm. unfold consolidated in Hm.
    destruct (one_mapping (clock2 w) (extract w excel_file df))
      as [m' [Hm' [_ [Hkeys Hdict]]]].
    rewrite Hm' in Hm. destruct Hm as [<-|[]].
    assert (E : all_custom_fields_with_fr (consolidate (extract w excel_file df)) = []).
    { apply no_lookup_no_fields.
      - unfold person_requirements. apply filter_none. intros e He.
        apply String.eqb_neq. now apply Hno.
      - intros e He. unfold organization_requirements in He.
        apply filter_In in He as [He Ht].
        apply andb_true_iff in Ht as [_ Ht]. apply String.eqb_eq in Ht.
        cbn [extract business_entities step1_extract_requirements] in He.
        rewrite (Hnames e He (or_intror Ht)), Ht.
        unfold extract, step1_extract_requirements. cbn [attributes Dict.get].
        rewrite Hkey. reflexivity. }
    rewrite Hkeys, Hdict, E. split; reflexivity.
Qed.

(** A sheet on which the only candidate term is classified Organization *)
Definition vendors_only : list row :=
  [{| fr_cell := Val "FR1";
      desc_cell := Val "Vendor company with an active status";
      comments_cell := Absent |};
   {| fr_cell := Val "FR2";
      desc_cell := Val "Vendor company website";
      comments_cell := Absent |};
   {| fr_cell := Val "FR3";
      desc_cell := Val "Vendor company industry";
      comments_cell := Absent |}].

Definition a_run : surroundings :=
  {| clock1 := "2025-01-01T09:00:00";
     clock2 := "2025-01-01T09:00:01";
     clock3 := "2025-01-01T09:00:02";
     set_order := fun l => l |}.

Lemma unkeyed_attributes_dropped_witness :
  Dict.keys (attributes (extract a_run "requirements.xlsx" vendors_only))
  = [main_entity_name
       (business_entities (extract a_run "requirements.xlsx" vendors_only))]
  /\ Dict.keys (attributes (extract a_run "requirements.xlsx" vendors_only))
     = ["Constituent"]
  /\ (forall e,
         In e (business_entities (extract a_run "requirements.xlsx" vendors_only)) ->
         e_type e = "Person" \/ e_type e = "Organization" ->
         e_name e <> "Constituent")
  /\ (forall name ids,
         Dict.get (attribute_pass
                     (functional_requirements
                        (extract a_run "requirements.xlsx" vendors_only))) name
         = Some ids ->
         exists attrs table,
           Dict.get (attributes (extract a_run "requirements.xlsx" vendors_only))
             "Constituent"
           = Some attrs
           /\ custom_with_fr attrs = Some table
           /\ In (name, ids) table)
  /\ (forall m,
         In m (entity_mappings (consolidated a_run "requirements.xlsx" vendors_only)) ->
         custom_fields_needed m = [] /\ custom_fields_with_fr m = []).
Proof.
  apply (unkeyed_attributes_dropped a_run "requirements.xlsx" vendors_only).
  intros e He. vm_compute in He. destruct He as [<-|[]]. discriminate.
Defined.

(** A sheet on which the term Constituent is classified as a custom field
    group *)
Definition constituent_group : list row :=
  [{| fr_cell := Val "FR1";
      desc_cell := Val "Each Constituent has a status";
      comments_cell := Absent |};
   {| fr_cell := Val "FR2";
      desc_cell := Val "Each Constituent has an industry";
      comments_cell := Absent |};
   {| fr_cell := Val "FR3";
      desc_cell := Val "Each Constituent is kept";
      comments_cell := Absent |}].

(** C10 as the claim words it fails: no Person-type entity is discovered,
    the attributes are keyed under Constituent, and a discovered entity
    bears that name. *)
Lemma constituent_names_a_discovered_entity :
  map (fun e => (e_name e, e_type e))
    (business_entities (extract a_run "requirements.xlsx" constituent_group))
  = [("Constituent", "CustomFieldGroup")]
  /\ Dict.keys (attributes (extract a_run "requirements.xlsx" constituent_group))
     = ["Constituent"]
  /\ option_map custom
       (Dict.get (attributes (extract a_run "requirements.xlsx" constituent_group))
          "Constituent")
     = Some ["Industry"; "Status"].
Proof. vm_compute. repeat split. Qed.

End Keying.

(** ** Model assembly *)

Module Assembly.
Import Step1 Step2 Step3 Main.

Lemma assembled_when_mapped (now : string) (stored : step1_output)
  (s2 : step2_output) (m : entity_mapping) (rest : list entity_mapping) :
  entity_mappings s2 = m :: rest ->
  exists s3, step3_design_data_model now (Stored stored) s2 = Ok s3.
Proof.
  intros H. unfold step3_design_data_model. rewrite H.
  destruct (purpose_and_identifiers m) as [purpose identifiers].
  eexists. reflexivity.
Qed.

(** The file of step 1 can be opened and parsed *)
Definition readable (file : step1_file) : Prop :=
  exists stored, file = Stored stored.

(** C8, as the code has it.  Model assembly reads the file of step 1 before
    it looks at the mappings.  With the file read, it raises its error
    exactly when the consolidation result holds no entity mapping, and
    returns a model exactly when there is one.  Without the file, or with a
    file that does not parse, it fails whatever the mappings are.  So it
    fails exactly when the file cannot be read or there is no mapping. *)
Theorem assembly_fails_iff_no_mapping (now : string) (file : step1_file)
  (s2 : step2_output) :
  (forall stored,
      (step3_design_data_model now (Stored stored) s2
       = Raise (ValueError no_mapping_message)
       <-> entity_mappings s2 = [])
      /\ ((exists s3, step3_design_data_model now (Stored stored) s2 = Ok s3)
          <-> entity_mappings s2 <> []))
  /\ step3_design_data_model now Missing s2 = Raise FileNotFoundError
  /\ step3_design_data_model now NotJSON s2 = Raise JSONDecodeError
  /\ ((exists e, step3_design_data_model now file s2 = Raise e)
      <-> ~ readable file \/ entity_mappings s2 = []).
Proof.
  split; [|split; [reflexivity|split; [reflexivity|]]].
  - intros stored. split; split.
    + intros H. destruct (entity_mappings s2) as [|m rest] eqn:E; [reflexivity|].
      destruct (assembled_when_mapped now stored s2 E) as [s3 H3]. congruence.
    + intros H. unfold step3_design_data_model. now rewrite H.
    + intros [s3 H] E. unfold step3_design_data_model in H. rewrite E in H.
      discriminate.
    + intros H. destruct (entity_mappings s2) as [|m rest] eqn:E; [contradiction|].
      eapply assembled_when_mapped. exact E.
  - split.
    + intros [e H]. destruct file as [| |stored].
      * left. intros [x Hx]. discriminate.
      * left. intros [x Hx]. discriminate.
      * right. destruct (entity_mappings s2) as [|m rest] eqn:E; [reflexivity|].
        destruct (assembled_when_mapped now stored s2 E) as [s3 H3]. congruence.
    + intros [H|H].
      * destruct file as [| |stored].
        -- eexists. reflexivity.
        -- eexists. reflexivity.
        -- exfalso. apply H. exists stored. reflexivity.
      * destruct file as [| |stored]; try (eexists; reflexivity).
        unfold step3_design_data_model. rewrite H. eexists. reflexivity.
Qed.

(** C8 as the claim words it fails: in a directory without the file of
    step 1, model assembly called with the consolidation of a run, which has
    its entity mapping, fails all the same. *)
Lemma missing_file_fails_with_mapping :
  List.length
    (entity_mappings
       (consolidated Keying.a_run "requirements.xlsx" Keying.vendors_only))
  = 1
  /\ step3_design_data_model "2025-01-01T09:00:02" Missing
       (consolidated Keying.a_run "requirements.xlsx" Keying.vendors_only)
     = Raise FileNotFoundError.
Proof. split; [vm_compute; reflexivity | reflexivity]. Qed.

(** X18.  A run of [main] never ends at step 3: the consolidation of an
    extraction result has its one mapping. *)
Lemma main_assembles (w : surroundings) (excel_file : string) (df : list row) :
  exists s3,
    main w excel_file df
    = Assembled (extract w excel_file df) (consolidated w excel_file df) s3.
Proof.
  unfold main, consolidated.
  destruct (Consolidation.one_mapping (clock2 w) (extract w excel_file df))
    as [m [Hm _]].
  destruct (assembled_when_mapped (clock3 w) (extract w excel_file df) _ Hm)
    as [s3 H3].
  exists s3. unfold extract in H3 |- *. now rewrite H3.
Qed.

End Assembly.

(** ** Determinism *)

Module Determinism.
Import Text Tables Step1 Step2 Main DictFacts SortFacts.

(** The extraction result with another extraction date *)
Definition with_extraction_date (date : string) (s1 : step1_output)
  : step1_output :=
  {| extraction_date := date;
     total_requirements := total_requirements s1;
     source_file := source_file s1;
     functional_requirements := functional_requirements s1;
     business_entities := business_entities s1;
     attributes := attributes s1;
     relationships := relationships s1;
     roles := roles s1;
     source_systems := source_systems s1;
     matching_rules := Step1.matching_rules s1;
     data_quality_rules := Step1.data_quality_rules s1 |}.

(** The consolidation result with another mapping date *)
Definition with_mapping_date (date : string) (s2 : step2_output)
  : step2_output :=
  {| mapping_date := date;
     entity_mappings := entity_mappings s2;
     field_group_mappings := field_group_mappings s2;
     gaps := gaps s2;
     custom_components := custom_components s2 |}.

(** Whatever the hash seed, iterating over a set lists its elements, each
    once, in some order. *)
Definition lists_the_set (order : list string -> list string) : Prop :=
  forall l, NoDup l -> Permutation (order l) l.

Lemma attribute_pass_NoDup (frs : list requirement) :
  NoDup (Dict.keys (attribute_pass frs)).
Proof.
  unfold attribute_pass.
  apply FoldFacts.fold_left_invariant
    with (P := fun d : Dict.t (list string) => NoDup (Dict.keys d))
         (Q := fun _ : requirement => True).
  - intros d fr _ Hd.
    apply FoldFacts.fold_left_invariant
      with (P := fun d : Dict.t (list string) => NoDup (Dict.keys d))
           (Q := fun _ : string * list string => True).
    + intros d' [attr_name keywords] _ Hd'. unfold record_attribute.
      destruct (existsb _ keywords); [|exact Hd']. cbv zeta.
      assert (H1 : NoDup (Dict.keys
                            (if negb (Dict.mem d' (attr_display_name attr_name))
                             then Dict.set d' (attr_display_name attr_name) []
                             else d'))).
      { destruct (negb _); [now apply NoDup_keys_set | exact Hd']. }
      destruct (negb (mem (fr_number fr) _)); [now apply NoDup_keys_set | exact H1].
    + apply Forall_forall. intros; exact I.
    + exact Hd.
  - apply Forall_forall. intros; exact I.
  - constructor.
Qed.

Lemma extraction_rerun (now1 now2 : string)
  (order1 order2 : list string -> list string) (excel_file : string)
  (df : list row) :
  lists_the_set order1 -> lists_the_set order2 ->
  step1_extract_requirements now2 order2 excel_file df
  = with_extraction_date now2
      (step1_extract_requirements now1 order1 excel_file df).
Proof.
  intros H1 H2. unfold step1_extract_requirements, with_extraction_date.
  cbn [total_requirements source_file functional_requirements
       business_entities attributes relationships roles source_systems
       Step1.matching_rules Step1.data_quality_rules].
  assert (E : Sort.sorted_strings
                (order2 (Dict.keys (attribute_pass (make_requirements 0 df))))
              = Sort.sorted_strings
                  (order1 (Dict.keys (attribute_pass (make_requirements 0 df))))).
  { apply sorted_strings_canonical.
    eapply perm_trans; [apply H2, attribute_pass_NoDup|].
    apply Permutation_sym, H1, attribute_pass_NoDup. }
  rewrite E. reflexivity.
Qed.

Lemma consolidation_ignores_extraction_date (now date : string)
  (s1 : step1_output) :
  step2_map_ootb_entities now (with_extraction_date date s1)
  = step2_map_ootb_entities now s1.
Proof. reflexivity. Qed.

Lemma consolidation_rerun (now1 now2 : string) (s1 : step1_output) :
  step2_map_ootb_entities now2 s1
  = with_mapping_date now2 (step2_map_ootb_entities now1 s1).
Proof. reflexivity. Qed.

(** C9.  Two runs on the same sheet, with any readings of the clock and any
    iteration orders of the set, give the same extraction document and the
    same consolidation document up to [extraction_date] and
    [mapping_date]. *)
Theorem rerun_differs_in_dates_only (w1 w2 : surroundings)
  (excel_file : string) (df : list row) :
  lists_the_set (set_order w1) -> lists_the_set (set_order w2) ->
  extract w2 excel_file df
  = with_extraction_date (clock1 w2) (extract w1 excel_file df)
  /\ consolidated w2 excel_file df
     = with_mapping_date (clock2 w2) (consolidated w1 excel_file df).
Proof.
  intros H1 H2.
  assert (E : extract w2 excel_file df
              = with_extraction_date (clock1 w2) (extract w1 excel_file df))
    by (unfold extract; now apply extraction_rerun).
  split; [exact E|].
  unfold consolidated. rewrite E, consolidation_ignores_extraction_date.
  apply consolidation_rerun.
Qed.

(** A second run: later, and with the set listed the other way round *)
Definition another_run : surroundings :=
  {| clock1 := "2025-03-04T17:30:00";
     clock2 := "2025-03-04T17:30:02";
     clock3 := "2025-03-04T17:30:03";
     set_order := fun l => rev l |}.

Lemma rerun_differs_in_dates_only_witness :
  extract another_run "requirements.xlsx" Keying.vendors_only
  = with_extraction_date (clock1 another_run)
      (extract Keying.a_run "requirements.xlsx" Keying.vendors_only)
  /\ consolidated another_run "requirements.xlsx" Keying.vendors_only
     = with_mapping_date (clock2 another_run)
         (consolidated Keying.a_run "requirements.xlsx" Keying.vendors_only).
Proof.
  apply (rerun_differs_in_dates_only Keying.a_run another_run
           "requirements.xlsx" Keying.vendors_only).
  - intros l _. apply Permutation_refl.
  - intros l _. apply Permutation_sym, Permutation_rev.
Defined.

End Determinism.

(** ** The requirement corpus *)

Module Corpus.
Import Text Tables Step1 TextFacts.

(** *** Texts without the white space around them *)

Definition first_char (s : string) : option ascii :=
  match s with
  | String c _ => Some c
  | EmptyString => None
  end.

Fixpoint last_char (s : string) : option ascii :=
  match s with
  | EmptyString => None
  | String c EmptyString => Some c
  | String _ s' => last_char s'
  end.

Definition space_at (c : option ascii) : bool :=
  match c with
  | Some a => is_space a
  | None => false
  end.

(** A text that neither starts nor ends with white space *)
Definition trimmed (s : string) : Prop :=
  space_at (first_char s) = false /\ space_at (last_char s) = false.

(** A text of white space only *)
Fixpoint blank (s : string) : bool :=
  match s with
  | EmptyString => true
  | String c s' => is_space c && blank s'
  end.

(** [t] is [s] without the white space around it *)
Definition stripped_of (s t : string) : Prop :=
  trimmed t
  /\ exists before after,
       s = (before ++ t ++ after)%string
       /\ blank before = true /\ blank after = true.

(** A text without a capital letter *)
Fixpoint no_upper (s : string) : bool :=
  match s with
  | EmptyString => true
  | String c s' => negb (is_upper c) && no_upper s'
  end.

Lemma lstrip_split (s : string) :
  exists before, s = (before ++ lstrip s)%string /\ blank before = true.
Proof.
  induction s as [|c s [before [E Hb]]].
  - exists EmptyString. split; reflexivity.
  - cbn [lstrip]. destruct (is_space c) eqn:Hc.
    + exists (String c before). cbn [String.append blank].
      rewrite Hc, Hb, <- E. split; reflexivity.
    + exists EmptyString. split; reflexivity.
Qed.

Lemma lstrip_first (s : string) : space_at (first_char (lstrip s)) = false.
Proof.
  induction s as [|c s IH]; [reflexivity|]. cbn [lstrip].
  destruct (is_space c) eqn:Hc; [exact IH | exact Hc].
Qed.

Lemma rstrip_split (s : string) :
  exists after, s = (rstrip s ++ after)%string /\ blank after = true.
Proof.
  induction s as [|c s [after [E Hb]]].
  - exists EmptyString. split; reflexivity.
  - cbn [rstrip]. destruct (rstrip s) as [|d r] eqn:Er.
    + cbn [String.append] in E. destruct (is_space c) eqn:Hc.
      * exists (String c after). cbn [String.append blank].
        rewrite Hc, Hb, <- E. split; reflexivity.
      * exists after. cbn [String.append]. rewrite <- E.
        split; [reflexivity|]. rewrite E. exact Hb.
    + exists after. cbn [String.append] in *. rewrite <- E.
      split; [reflexivity | exact Hb].
Qed.

Lemma rstrip_last (s : string) : space_at (last_char (rstrip s)) = false.
Proof.
  induction s as [|c s IH]; [reflexivity|]. cbn [rstrip].
  destruct (rstrip s) as [|d r] eqn:Er.
  - destruct (is_space c) eqn:Hc; [reflexivity | exact Hc].
  - exact IH.
Qed.

Lemma rstrip_first (s : string) :
  space_at (first_char s) = false ->
  space_at (first_char (rstrip s)) = false.
Proof.
  destruct s as [|c s]; [trivial|]. cbn [first_char space_at rstrip].
  intros Hc. destruct (rstrip s); [now rewrite Hc | exact Hc].
Qed.

(** [strip] removes the white space around a text and nothing else. *)
Lemma strip_stripped (s : string) : stripped_of s (strip s).
Proof.
  unfold stripped_of, trimmed, strip. split.
  - split; [apply rstrip_first, lstrip_first | apply rstrip_last].
  - destruct (lstrip_split s) as [before [E1 H1]].
    destruct (rstrip_split (lstrip s)) as [after [E2 H2]].
    exists before, after. rewrite <- E2, <- E1.
    split; [reflexivity|]. split; assumption.
Qed.

Lemma lower_char_not_upper (c : ascii) : is_upper (lower_char c) = false.
Proof.
  destruct c as [[|] [|] [|] [|] [|] [|] [|] [|]]; vm_compute; reflexivity.
Qed.

Lemma lower_no_upper (s : string) : no_upper (lower s) = true.
Proof.
  induction s as [|c s IH]; [reflexivity|]. cbn [lower no_upper].
  now rewrite lower_char_not_upper, IH.
Qed.

Lemma lower_length (s : string) : String.length (lower s) = String.length s.
Proof.
  induction s as [|c s IH]; [reflexivity|]. cbn [lower String.length].
  now rewrite IH.
Qed.

Lemma make_requirements_In (fr : requirement) (df : list row) :
  forall idx, In fr (make_requirements idx df) ->
              exists i r, In r df /\ fr = make_requirement i r.
Proof.
  induction df as [|r df IH]; intros idx H; [contradiction|].
  cbn [make_requirements] in H. destruct H as [<-|H].
  - exists idx, r. split; [now left | reflexivity].
  - apply IH in H as [i [r' [Hin ->]]]. exists i, r'. split; [now right | reflexivity].
Qed.

(** X1.  On a sheet of ASCII text, every requirement record of the
    extraction result is made from a row of the sheet: its description is
    the description cell without the white space around it ([nan] for an
    empty cell, empty for a missing column), its comment is the comment cell
    without the white space around it (empty for an empty cell or a missing
    column), and its combined text is the description, a blank and the
    comment, in lower case: it has no capital letter and the length of the
    three. *)
Theorem requirements_normalised (now : string)
  (set_order : list string -> list string) (excel_file : string)
  (df : list row) (fr : requirement) :
  ascii_sheet df = true ->
  In fr (functional_requirements
           (step1_extract_requirements now set_order excel_file df)) ->
  exists r,
    In r df
    /\ match desc_cell r with
       | Val s => stripped_of s (description fr)
       | NaN => description fr = "nan"
       | Absent => description fr = ""
       end
    /\ match comments_cell r with
       | Val s => stripped_of s (comments fr)
       | _ => comments fr = ""
       end
    /\ combined_text fr = lower (description fr ++ " " ++ comments fr)
    /\ no_upper (combined_text fr) = true
    /\ String.length (combined_text fr)
       = String.length (description fr) + 1 + String.length (comments fr).
Proof.
  intros _ H. cbn [step1_extract_requirements functional_requirements] in H.
  apply make_requirements_In in H as [i [r [Hin ->]]].
  exists r. split; [exact Hin|].
  unfold make_requirement. cbn [description comments combined_text].
  split; [|split; [|split; [reflexivity|split]]].
  - destruct (desc_cell r) as [| |s]; cbn [cell_str];
      [reflexivity | reflexivity | apply strip_stripped].
  - destruct (comments_cell r) as [| |s]; cbn [notna cell_str];
      [reflexivity | reflexivity | apply strip_stripped].
  - apply lower_no_upper.
  - rewrite lower_length, !Discovery.append_length_sum.
    cbn [String.length]. lia.
Qed.

Definition padded_rows : list row :=
  [{| fr_cell := NaN; desc_cell := Val "  The Donor  has a Role ";
      comments_cell := Val " Active only  " |}].

Lemma requirements_normalised_witness :
  exists r,
    In r padded_rows
    /\ match desc_cell r with
       | Val s => stripped_of s "The Donor  has a Role"
       | NaN => "The Donor  has a Role" = "nan"
       | Absent => "The Donor  has a Role" = ""
       end
    /\ match comments_cell r with
       | Val s => stripped_of s "Active only"
       | _ => "Active only" = ""
       end
    /\ "the donor  has a role active only"
       = lower ("The Donor  has a Role" ++ " " ++ "Active only")
    /\ no_upper "the donor  has a role active only" = true
    /\ String.length "the donor  has a role active only"
       = String.length "The Donor  has a Role" + 1
         + String.length "Active only".
Proof.
  apply (@requirements_normalised "2025-01-01T09:00:00" (fun l => l)
           "requirements.xlsx" padded_rows
           {| fr_number := "FR1";
              description := "The Donor  has a Role";
              comments := "Active only";
              combined_text := "the donor  has a role active only" |}).
  - reflexivity.
  - vm_compute. left. reflexivity.
Defined.

Lemma make_requirements_nth (df : list row) :
  forall idx i r,
    nth_error df i = Some r ->
    nth_error (make_requirements idx df) i = Some (make_requirement (idx + i) r).
Proof.
  induction df as [|r0 df IH]; intros idx [|i] r H; try discriminate.
  - injection H as ->. cbn. now rewrite Nat.add_0_r.
  - cbn [make_requirements nth_error] in *. rewrite (IH (S idx) i r H).
    f_equal. f_equal. lia.
Qed.

Lemma make_requirements_length (df : list row) :
  forall idx, List.length (make_requirements idx df) = List.length df.
Proof.
  induction df as [|r df IH]; intros idx; [reflexivity|].
  cbn [make_requirements List.length]. now rewrite IH.
Qed.

(** X2.  On a sheet of ASCII text, the extraction result has one requirement
    record per row, in the order of the rows, and [total_requirements] is
    their number; the record of the row at position [i] (from 0) has as its
    number the cell [FR #] without the white space around it when the cell
    has a value, and FR followed by [i + 1] when the cell is empty or the
    column is missing. *)
Theorem requirement_ids (now : string) (set_order : list string -> list string)
  (excel_file : string) (df : list row) :
  ascii_sheet df = true ->
  total_requirements (step1_extract_requirements now set_order excel_file df)
  = List.length df
  /\ List.length
       (functional_requirements
          (step1_extract_requirements now set_order excel_file df))
     = List.length df
  /\ forall i r,
       nth_error df i = Some r ->
       exists fr,
         nth_error
           (functional_requirements
              (step1_extract_requirements now set_order excel_file df)) i
         = Some fr
         /\ match fr_cell r with
            | Val s => stripped_of s (fr_number fr)
            | _ => fr_number fr = ("FR" ++ of_nat (i + 1))%string
            end.
Proof.
  intros _. cbn [step1_extract_requirements total_requirements
                 functional_requirements].
  split; [reflexivity|]. split; [apply make_requirements_length|].
  intros i r H. exists (make_requirement i r). split.
  - exact (@make_requirements_nth df 0 i r H).
  - unfold make_requirement. cbn [fr_number].
    destruct (fr_cell r) as [| |s]; cbn [notna cell_str];
      [reflexivity | reflexivity | apply strip_stripped].
Qed.

Definition three_rows : list row :=
  [{| fr_cell := Val " R-1 "; desc_cell := Val "first"; comments_cell := Absent |};
   {| fr_cell := NaN; desc_cell := Val "second"; comments_cell := Absent |};
   {| fr_cell := Absent; desc_cell := Val "third"; comments_cell := NaN |}].

Lemma requirement_ids_witness :
  total_requirements
    (step1_extract_requirements "2025-01-01T09:00:00" (fun l => l)
       "requirements.xlsx" three_rows)
  = List.length three_rows
  /\ List.length
       (functional_requirements
          (step1_extract_requirements "2025-01-01T09:00:00" (fun l => l)
             "requirements.xlsx" three_rows))
     = List.length three_rows
  /\ forall i r,
       nth_error three_rows i = Some r ->
       exists fr,
         nth_error
           (functional_requirements
              (step1_extract_requirements "2025-01-01T09:00:00" (fun l => l)
                 "requirements.xlsx" three_rows)) i
         = Some fr
         /\ match fr_cell r with
            | Val s => stripped_of s (fr_number fr)
            | _ => fr_number fr = ("FR" ++ of_nat (i + 1))%string
            end.
Proof.
  apply (@requirement_ids "2025-01-01T09:00:00" (fun l => l)
           "requirements.xlsx" three_rows).
  reflexivity.
Defined.

End Corpus.

(** ** More facts about dictionaries and [sorted] *)

Module DictMore.
Import DictFacts.


(** Assigning to a key that is not in the dictionary appends the entry. *)
Lemma set_fresh {V} (d : Dict.t V) (k : string) (v : V) :
  ~ In k (Dict.keys d) -> Dict.set d k v = (d ++ [(k, v)])%list.
Proof.
  unfold Dict.keys. induction d as [|[k1 v1] d IH]; cbn; intros H.
  - reflexivity.
  - destruct (String.eqb_spec k1 k) as [->|Hne].
    + exfalso. apply H. now left.
    + rewrite IH; [reflexivity|]. intros Hin. apply H. now right.
Qed.


End DictMore.

Module SortMore.
Import Sort SortFacts.

Section Ascending.
Variable A : Type.
Variable lt : A -> A -> bool.
Hypothesis lt_asym : forall x y, lt x y = true -> lt y x = false.
Hypothesis lt_trans : forall x y z, lt x y = true -> lt y z = true -> lt x z = true.
Hypothesis lt_total : forall x y, lt x y = false -> lt y x = false -> x = y.

Definition not_after (a b : A) : Prop := lt b a = false.

Lemma not_after_trans (x y z : A) :
  not_after x y -> not_after y z -> not_after x z.
Proof.
  unfold not_after. intros Hyx Hzy. destruct (lt z x) eqn:Hzx; [|reflexivity].
  destruct (lt x y) eqn:Hxy.
  - rewrite (lt_trans Hzx Hxy) in Hzy. discriminate.
  - rewrite (lt_total Hxy Hyx) in Hzx. congruence.
Qed.

Lemma insert_ascending (x : A) (l : list A) :
  StronglySorted not_after l -> StronglySorted not_after (insert lt x l).
Proof.
  induction l as [|y l IH]; cbn [insert]; intros Hs.
  - constructor; constructor.
  - inversion Hs as [|? ? Hl Hall]; subst.
    destruct (lt y x) eqn:Hyx.
    + constructor; [now apply IH|].
      apply Forall_forall. intros z Hz.
      apply (Permutation_in _ (insert_Permutation lt x l)) in Hz.
      destruct Hz as [<-|Hz].
      * unfold not_after. now apply lt_asym.
      * rewrite Forall_forall in Hall. now apply Hall.
    + constructor; [assumption|].
      constructor; [exact Hyx|].
      rewrite Forall_forall in Hall |- *. intros z Hz.
      eapply not_after_trans; [exact Hyx | now apply Hall].
Qed.

Lemma sorted_ascending (l : list A) : StronglySorted not_after (sorted lt l).
Proof.
  induction l as [|x l IH]; cbn [sorted fold_right].
  - constructor.
  - now apply insert_ascending.
Qed.

Lemma strictly_ascending (l : list A) :
  NoDup l -> StronglySorted not_after l ->
  StronglySorted (fun a b => lt a b = true) l.
Proof.
  induction l as [|x l IH]; intros Hnd Hs; [constructor|].
  inversion Hnd as [|? ? Hnotin Hnd']; subst.
  inversion Hs as [|? ? Hl Hall]; subst.
  constructor; [now apply IH|].
  rewrite Forall_forall in Hall |- *. intros z Hz.
  destruct (lt x z) eqn:E; [reflexivity|].
  exfalso. apply Hnotin. rewrite (lt_total E (Hall z Hz)). exact Hz.
Qed.
End Ascending.

(** [sorted] of distinct strings is in strictly ascending order. *)
Lemma sorted_strings_ascending (l : list string) :
  NoDup l ->
  StronglySorted (fun a b => String.ltb a b = true) (sorted_strings l).
Proof.
  intros Hnd. apply strictly_ascending.
  - apply ltb_total.
  - eapply Permutation_NoDup; [|exact Hnd].
    apply Permutation_sym, sorted_Permutation.
  - apply sorted_ascending; [apply ltb_asym | apply ltb_trans | apply ltb_total].
Qed.

End SortMore.

(** ** The findings of the attribute pass, the source pass and the role
    pass *)

Module Findings.
Import Text Tables Step1 TextFacts DictFacts DictMore SortFacts SortMore.
Import Attributes.

(** [id] is recorded under [name]. *)
Definition has_id (d : Dict.t (list string)) (name id : string) : Prop :=
  exists ids, Dict.get d name = Some ids /\ In id ids.

Lemma record_attribute_keeps (fr : requirement) (entry : string * list string)
  (d : Dict.t (list string)) (name id : string) :
  has_id d name id -> has_id (record_attribute fr d entry) name id.
Proof.
  intros [ids [Hget Hin]].
  destruct (matches fr entry) eqn:Hm;
    [|rewrite record_attribute_skip by exact Hm; now exists ids].
  unfold has_id. rewrite get_record_attribute by exact Hm.
  assert (Hids : ids_of d name = ids) by (unfold ids_of; now rewrite Hget).
  destruct (String.eqb_spec (attr_display_name (fst entry)) name);
    [|now exists ids].
  rewrite Hids. eexists. split; [reflexivity|].
  destruct (mem (fr_number fr) ids); [exact Hin|].
  apply in_or_app. now left.
Qed.

Lemma record_attribute_adds (fr : requirement) (entry : string * list string)
  (d : Dict.t (list string)) :
  matches fr entry = true ->
  has_id (record_attribute fr d entry) (attr_display_name (fst entry))
    (fr_number fr).
Proof.
  intros Hm. unfold has_id. rewrite get_record_attribute by exact Hm.
  rewrite String.eqb_refl. eexists. split; [reflexivity|].
  destruct (mem (fr_number fr) (ids_of d (attr_display_name (fst entry))))
    eqn:E.
  - now apply mem_In.
  - apply in_or_app. right. now left.
Qed.

(** X8.  The attribute pass misses nothing: when a keyword of a table entry
    occurs in a requirement's text, the attribute is recorded and the
    requirement's id is among its justifying ids. *)
Theorem attribute_pass_complete (frs : list requirement) (fr : requirement)
  (entry : string * list string) :
  In fr frs -> In entry attribute_keywords -> matches fr entry = true ->
  exists ids,
    Dict.get (attribute_pass frs) (attr_display_name (fst entry)) = Some ids
    /\ In (fr_number fr) ids.
Proof.
  intros Hfr Hentry Hm. unfold attribute_pass.
  set (name := attr_display_name (fst entry)).
  change (has_id
            (fold_left
               (fun d fr0 => fold_left (record_attribute fr0) attribute_keywords d)
               frs []) name (fr_number fr)).
  apply FoldFacts.fold_left_eventually
    with (I := fun _ => True)
         (P := fun d => has_id d name (fr_number fr))
         (R := fun fr0 => fr0 = fr).
  - trivial.
  - intros d fr0 _ Hd.
    apply FoldFacts.fold_left_invariant
      with (P := fun d => has_id d name (fr_number fr)) (Q := fun _ => True).
    + intros d' entry' _ Hd'. now apply record_attribute_keeps.
    + apply Forall_forall. trivial.
    + exact Hd.
  - intros d fr0 _ ->.
    apply FoldFacts.fold_left_eventually
      with (I := fun _ => True)
           (P := fun d => has_id d name (fr_number fr))
           (R := fun entry' => entry' = entry).
    + trivial.
    + intros d' entry' _ Hd'. now apply record_attribute_keeps.
    + intros d' entry' _ ->. now apply record_attribute_adds.
    + exact I.
    + right. now exists entry.
  - exact I.
  - right. now exists fr.
Qed.

Lemma attribute_pass_complete_witness :
  exists ids,
    Dict.get (attribute_pass status_twice)
      (attr_display_name (fst ("roletype",
                               ["role type"; "role"; "roletype"; "position"])))
    = Some ids
    /\ In "FR3" ids.
Proof.
  apply (@attribute_pass_complete status_twice
           {| fr_number := "FR3";
              description := "The Donor role is stored";
              comments := "active only";
              combined_text := "the donor role is stored active only" |}
           ("roletype", ["role type"; "role"; "roletype"; "position"])).
  - vm_compute. right. right. left. reflexivity.
  - vm_compute. right. right. left. reflexivity.
  - vm_compute. reflexivity.
Defined.

(** X9.  The two listings of the custom attributes in the extraction result
    agree: [custom] is the list of the keys of [custom_with_fr], in strictly
    ascending order, whatever order the set was iterated in. *)
Theorem custom_listings_agree (now : string)
  (set_order : list string -> list string) (excel_file : string)
  (df : list row) (name : string) (attrs : attrs_data) :
  Determinism.lists_the_set set_order ->
  In (name, attrs)
    (attributes (step1_extract_requirements now set_order excel_file df)) ->
  exists table,
    custom_with_fr attrs = Some table
    /\ custom attrs = Dict.keys table
    /\ StronglySorted (fun a b => String.ltb a b = true) (custom attrs)
    /\ forall attr, In attr (custom attrs)
                    <-> In attr (Dict.keys
                                   (attribute_pass (make_requirements 0 df))).
Proof.
  intros Hset H. cbn [step1_extract_requirements attributes] in H.
  destruct H as [H|[]]. injection H as _ <-. cbn [custom_with_fr custom].
  eexists. split; [reflexivity|].
  assert (E : Sort.sorted_strings
                (set_order (Dict.keys (attribute_pass (make_requirements 0 df))))
              = Sort.sorted_strings
                  (Dict.keys (attribute_pass (make_requirements 0 df)))).
  { apply sorted_strings_canonical, Hset, Determinism.attribute_pass_NoDup. }
  rewrite E. split; [|split].
  - unfold Dict.keys. rewrite map_map. cbn [fst]. now rewrite map_id.
  - apply sorted_strings_ascending, Determinism.attribute_pass_NoDup.
  - intros attr. apply sorted_In.
Qed.

Lemma custom_listings_agree_witness :
  exists table,
    custom_with_fr
      {| standard := ootb_person_attributes;
         custom := ["Industry"; "Status"; "Website"];
         custom_with_fr :=
           Some [("Industry", ["FR3"]); ("Status", ["FR1"]);
                 ("Website", ["FR2"])] |}
    = Some table
    /\ ["Industry"; "Status"; "Website"] = Dict.keys table
    /\ StronglySorted (fun a b => String.ltb a b = true)
         ["Industry"; "Status"; "Website"]
    /\ forall attr,
         In attr ["Industry"; "Status"; "Website"]
         <-> In attr (Dict.keys
                        (attribute_pass
                           (make_requirements 0 Keying.vendors_only))).
Proof.
  apply (@custom_listings_agree "t" (fun l => rev l) "f" Keying.vendors_only
           "Constituent"
           {| standard := ootb_person_attributes;
              custom := ["Industry"; "Status"; "Website"];
              custom_with_fr :=
                Some [("Industry", ["FR3"]); ("Status", ["FR1"]);
                      ("Website", ["FR2"])] |}).
  - intros l _. apply Permutation_sym, Permutation_rev.
  - vm_compute. left. reflexivity.
Defined.

End Findings.

(** ** The source pass and the role pass *)

Module Registries.
Import Text Tables Step1 TextFacts DictFacts DictMore.


















Lemma take_length (n : nat) (s : string) : String.length (take n s) <= n.
Proof.
  revert n. induction s as [|c s IH]; intros [|n]; cbn; try lia.
  specialize (IH n). lia.
Qed.

Lemma append_length (a b : string) :
  String.length (a ++ b) = String.length a + String.length b.
Proof. induction a as [|c a IH]; cbn; [reflexivity | now rewrite IH]. Qed.










End Registries.

(** ** What is stored for a candidate term, and what becomes of it *)

Module Candidates.
Import Text Tables Step1 TextFacts DictFacts DictMore SortFacts.

Lemma context_rule_range (word_lower text_lower t : string) :
  context_rule word_lower text_lower = Some t -> In t entity_types.
Proof.
  unfold context_rule, entity_types.
  repeat match goal with
         | |- context [if ?b then _ else _] => destruct b
         end;
    intros [= <-]; cbn [In]; tauto.
Qed.

(** The loop state of the classifier: the type, when one is assigned, is
    one of the five, and every excerpt has at most 200 characters. *)
Definition classifier_ok (st : classifier_state) : Prop :=
  (forall t, fst st = Some t -> In t entity_types)
  /\ Forall (fun excerpt => String.length excerpt <= 200) (snd st).

Lemma classify_rows_ok (word_lower : string) (df : list row) :
  classifier_ok (classify_rows word_lower df).
Proof.
  unfold classify_rows.
  apply FoldFacts.fold_left_invariant
    with (P := classifier_ok) (Q := fun _ : row => True).
  - intros st r _ [Htype Hctx]. unfold classify_row. cbv zeta.
    destruct (contains word_lower (lower (row_text r))); [|now split].
    split; cbn [fst snd].
    + intros t.
      destruct (context_rule word_lower (lower (row_text r))) as [t'|] eqn:E.
      * intros [= <-]. eapply context_rule_range. exact E.
      * apply Htype.
    + destruct (mem (lower (row_text r)) (snd st)); [exact Hctx|].
      apply Forall_app. split; [exact Hctx|].
      constructor; [apply Registries.take_length | constructor].
  - apply Forall_forall. trivial.
  - split; [intros t H; discriminate H | constructor].
Qed.

Lemma final_type_range (word_lower : string) (entity_type : option string) :
  (forall t, entity_type = Some t -> In t entity_types) ->
  In (final_type word_lower entity_type) entity_types.
Proof.
  intros H. destruct entity_type as [t|]; cbn [final_type].
  - now apply H.
  - destruct (Re.fullmatch_words field_group_words word_lower);
      unfold entity_types; cbn [In]; tauto.
Qed.

Lemma classify_range (word : string) (df : list row) :
  In (classify word df) entity_types.
Proof.
  unfold classify. apply final_type_range.
  apply (classify_rows_ok (lower word) df).
Qed.

Lemma excerpts_length (l : list string) :
  Forall (fun excerpt => String.length excerpt <= 200) l ->
  String.length (join " " (firstn 3 l)) <= 602.
Proof.
  intros H.
  destruct l as [|a [|b [|c l]]]; cbn [firstn join];
    repeat match goal with
           | H : Forall _ (_ :: _) |- _ => inversion H; subst; clear H
           end;
    rewrite ?Registries.append_length; cbn [String.length]; lia.
Qed.

(** What the discoverer holds for every term *)
Definition candidate_ok (df : list row) (word : string) (info : entity_info)
  : Prop :=
  info_type info = classify word df
  /\ In (info_type info) entity_types
  /\ 3 <= info_frequency info
  /\ String.length (info_context info) <= 602.

Lemma entities_found_ok (df : list row) (word : string) (info : entity_info) :
  Dict.get (entities_found df) word = Some info -> candidate_ok df word info.
Proof.
  unfold entities_found. revert word info.
  apply FoldFacts.fold_left_invariant
    with (P := fun d : Dict.t entity_info =>
                 forall word info, Dict.get d word = Some info ->
                                   candidate_ok df word info)
         (Q := fun _ : string * nat => True).
  - intros d [w n] _ Hd word info. unfold discover.
    destruct (Nat.leb_spec 3 n) as [Hn|Hn]; cbn [andb]; [|apply Hd].
    destruct (negb (mem w exclude_words)); [|apply Hd].
    destruct (contains (lower w) (all_text_lower df)); [|apply Hd].
    pose proof (classify_rows_ok (lower w) df) as [Htype Hctx].
    destruct (classify_rows (lower w) df) as [entity_type context] eqn:E.
    rewrite get_set. destruct (String.eqb_spec w word) as [<-|Hne]; [|apply Hd].
    intros [= <-]. unfold candidate_ok.
    cbn [info_type info_frequency info_context fst snd] in *.
    split; [unfold classify; now rewrite E|]. split.
    + now apply final_type_range.
    + split; [exact Hn | now apply excerpts_length].
  - apply Forall_forall. trivial.
  - intros word info H. discriminate H.
Qed.

(** X3.  On a sheet of ASCII text, for every retained term the discoverer
    stores the type the classifier gives it, which is one of the five entity
    types, the number of its occurrences as a capitalized word of the
    corpus, which is at least 3, and a context of at most 602 characters (up
    to three excerpts of 200, joined by blanks). *)
Theorem stored_candidate (df : list row) (word : string) (info : entity_info) :
  ascii_sheet df = true ->
  Dict.get (entities_found df) word = Some info ->
  info_type info = classify word df
  /\ In (info_type info) entity_types
  /\ info_frequency info = Discovery.occurrence_count df word
  /\ 3 <= info_frequency info
  /\ String.length (info_context info) <= 602.
Proof.
  intros _ H. destruct (entities_found_ok df word H) as [H1 [H2 [H3 H4]]].
  pose proof (Classifier.stored_frequency df word H) as Hf.
  repeat split; assumption.
Qed.

Lemma stored_candidate_witness :
  info_type {| info_type := "Organization";
               info_context := "Donor is an individual  Donor company record  Donor list ";
               info_frequency := 3 |}
  = classify "Donor" Classifier.two_cues
  /\ In (info_type {| info_type := "Organization";
                      info_context := "Donor is an individual  Donor company record  Donor list ";
                      info_frequency := 3 |}) entity_types
  /\ info_frequency {| info_type := "Organization";
                       info_context := "Donor is an individual  Donor company record  Donor list ";
                       info_frequency := 3 |}
     = Discovery.occurrence_count Classifier.two_cues "Donor"
  /\ 3 <= info_frequency {| info_type := "Organization";
                            info_context := "Donor is an individual  Donor company record  Donor list ";
                            info_frequency := 3 |}
  /\ String.length
       (info_context {| info_type := "Organization";
                        info_context := "Donor is an individual  Donor company record  Donor list ";
                        info_frequency := 3 |}) <= 602.
Proof.
  apply (@stored_candidate Classifier.two_cues "Donor"
           {| info_type := "Organization";
              info_context := "Donor is an individual  Donor company record  Donor list ";
              info_frequency := 3 |}).
  - reflexivity.
  - vm_compute. reflexivity.
Defined.









(** X5.  The purpose of a business entity is the stored context, cut to 150
    characters and three dots when it is longer, and otherwise a default
    made from the entity's name; the entity list is never longer than the
    list of retained terms. *)
Theorem purposes_bounded (found : Dict.t entity_info) :
  Forall
    (fun e =>
       String.length (e_purpose e) <= 153
       \/ e_purpose e = (e_name e ++ " master entity in MDM model")%string
       \/ e_purpose e = (e_name e ++ " field group")%string)
    (build_business_entities found)
  /\ List.length (build_business_entities found) <= List.length found.
Proof.
  unfold build_business_entities.
  assert (Hpurpose : forall name t context,
             String.length (infer_purpose name t context) <= 153
             \/ infer_purpose name t context
                = (name ++ " master entity in MDM model")%string
             \/ infer_purpose name t context = (name ++ " field group")%string).
  { intros name t context. unfold infer_purpose.
    destruct (negb (context =? "")%string).
    - left. destruct (Nat.ltb_spec 150 (String.length context)).
      + rewrite Registries.append_length.
        pose proof (Registries.take_length 150 context). cbn [String.length]. lia.
      + lia.
    - right. destruct (mem t master_types); [now left | now right]. }
  assert (G : forall l st,
             Forall (fun e =>
                       String.length (e_purpose e) <= 153
                       \/ e_purpose e
                          = (e_name e ++ " master entity in MDM model")%string
                       \/ e_purpose e = (e_name e ++ " field group")%string)
               (fst st) ->
             Forall (fun e =>
                       String.length (e_purpose e) <= 153
                       \/ e_purpose e
                          = (e_name e ++ " master entity in MDM model")%string
                       \/ e_purpose e = (e_name e ++ " field group")%string)
               (fst (fold_left add_entity l st))
             /\ List.length (fst (fold_left add_entity l st))
                <= List.length (fst st) + List.length l).
  { induction l as [|[name info] l IH]; intros [out seen] Hst; cbn [fold_left].
    - split; [exact Hst | cbn [List.length]; lia].
    - assert (Hstep :
                Forall (fun e =>
                          String.length (e_purpose e) <= 153
                          \/ e_purpose e
                             = (e_name e ++ " master entity in MDM model")%string
                          \/ e_purpose e = (e_name e ++ " field group")%string)
                  (fst (add_entity (out, seen) (name, info)))
                /\ List.length (fst (add_entity (out, seen) (name, info)))
                   <= S (List.length out)).
      { unfold add_entity. cbn [fst] in Hst.
        destruct (mem (info_type info) entity_types);
          [|split; [exact Hst | cbn [fst]; lia]].
        destruct (mem (info_type info) master_types).
        - destruct (mem (info_type info) seen);
            [split; [exact Hst | cbn [fst]; lia]|].
          cbn [fst]. split.
          + apply Forall_app. split; [exact Hst|].
            constructor; [apply Hpurpose | constructor].
          + rewrite length_app. cbn [List.length]. lia.
        - cbn [fst]. split.
          + apply Forall_app. split; [exact Hst|].
            constructor; [apply Hpurpose | constructor].
          + rewrite length_app. cbn [List.length]. lia. }
      destruct Hstep as [S1 S2].
      destruct (IH (add_entity (out, seen) (name, info)) S1) as [I1 I2].
      split; [exact I1|]. cbn [fst List.length] in *. lia. }
  destruct (G (sorted_entities found) ([], [])) as [G1 G2]; [constructor|].
  split; [exact G1|].
  cbn [fst List.length] in G2. unfold sorted_entities in G2.
  rewrite (Permutation_length (sorted_Permutation _ found)) in G2. exact G2.
Qed.

End Candidates.

(** ** The shape of the consolidation result *)

Module Mappings.
Import Text Tables Step1 Step2 Main TextFacts DictFacts DictMore SortFacts.
Import Consolidation.

Lemma nonempty_false {A} (l : list A) : nonempty l = false -> l = [].
Proof. destruct l; [reflexivity | discriminate]. Qed.

(** X11.  For every extraction result the consolidation holds exactly one entity
    mapping.  Its template is Person, with the standard Person fields
    without SSN and TaxID, or Organization, with all standard Organization
    fields; the custom field names are the keys of the requirement table;
    the consolidated requirements are the names of the Person-type entities
    followed by those of the Organization-type entities; no gap is
    recorded, and every custom component is a custom field group, so the
    custom entity of last resort is never made. *)
Theorem consolidation_shape (now : string) (s1 : step1_output) :
  exists m,
    entity_mappings (step2_map_ootb_entities now s1) = [m]
    /\ em_requirement m = "Unified MDM Entity"
    /\ ((ootb_entity m = "Person" /\ ootb_fields_used m = ootb_person_attributes)
        \/ (ootb_entity m = "Organization"
            /\ ootb_fields_used m = Organization_standard_fields))
    /\ custom_fields_needed m = Dict.keys (custom_fields_with_fr m)
    /\ consolidated_requirements m
       = map e_name (person_requirements s1 ++ organization_requirements s1)
    /\ gaps (step2_map_ootb_entities now s1) = []
    /\ Forall (fun c => cc_type c = "CustomFieldGroup")
         (custom_components (step2_map_ootb_entities now s1)).
Proof.
  assert (Hcomp : Forall (fun c => cc_type c = "CustomFieldGroup")
                    (custom_components (step2_map_ootb_entities now s1))).
  { apply Forall_forall. intros c Hc.
    unfold step2_map_ootb_entities, step2_run in Hc.
    cbn [fst custom_components] in Hc.
    apply map_field_group_components in Hc as [Hc|Hc]; [|exact Hc].
    cbn [snd] in Hc. unfold last_resort_components in Hc.
    rewrite selected_template in Hc. contradiction. }
  revert Hcomp.
  generalize (custom_components (step2_map_ootb_entities now s1)).
  intros comps Hcomp.
  unfold step2_map_ootb_entities, step2_run.
  cbn [fst entity_mappings gaps].
  unfold entity_mappings_of, consolidate.
  destruct (nonempty (person_requirements s1)) eqn:HP,
           (nonempty (organization_requirements s1)) eqn:HO;
    cbn [orb andb negb selected_ootb_entity all_ootb_fields
         all_custom_fields_with_fr all_requirements_consolidated];
    eexists; (split; [reflexivity|]);
    cbn [em_requirement ootb_entity ootb_fields_used custom_fields_needed
         custom_fields_with_fr consolidated_requirements];
    (split; [reflexivity|]).
  - split; [left; now split|]. repeat split; try reflexivity; assumption.
  - split; [left; now split|]. rewrite (nonempty_false _ HO).
    repeat split; try reflexivity; assumption.
  - split; [right; now split|]. rewrite (nonempty_false _ HP).
    rewrite app_nil_r. repeat split; try reflexivity; assumption.
  - split; [left; now split|]. rewrite (nonempty_false _ HO).
    repeat split; try reflexivity; assumption.
Qed.

(** The names the field-group loop passes on *)
Definition is_field_group (e : business_entity) : bool :=
  (e_type e =? "FieldGroup")%string.

Definition is_custom_field_group (e : business_entity) : bool :=
  (e_type e =? "CustomFieldGroup")%string.

Definition is_ootb_group (name : string) : bool :=
  Dict.mem OOTB_FIELD_GROUPS name.

Definition group_mapping_ok (g : field_group_mapping) : Prop :=
  Dict.get OOTB_FIELD_GROUPS (ootb_field_group g) = Some (fg_ootb_fields_used g)
  /\ fg_requirement g = (ootb_field_group g ++ " field group")%string
  /\ fg_custom_fields_needed g = ["SourceSystemKey"].

Lemma map_field_group_names (entities : list business_entity) :
  forall st : list field_group_mapping * list custom_component,
    map ootb_field_group (fst (fold_left map_field_group entities st))
    = (map ootb_field_group (fst st)
         ++ filter is_ootb_group (map e_name (filter is_field_group entities)))%list
    /\ map cc_name (snd (fold_left map_field_group entities st))
       = (map cc_name (snd st)
            ++ map e_name (filter is_custom_field_group entities))%list
    /\ (Forall group_mapping_ok (fst st) ->
        Forall group_mapping_ok (fst (fold_left map_field_group entities st))).
Proof.
  induction entities as [|e entities IH]; intros st; cbn [fold_left filter map].
  - rewrite !app_nil_r. repeat split; trivial.
  - destruct (IH (map_field_group st e)) as [IH1 [IH2 IH3]].
    rewrite IH1, IH2. clear IH1 IH2.
    unfold map_field_group, is_field_group, is_custom_field_group in *.
    destruct (String.eqb_spec (e_type e) "FieldGroup") as [Hfg|Hfg].
    + assert (Hc : (e_type e =? "CustomFieldGroup")%string = false)
        by (rewrite Hfg; reflexivity).
      rewrite Hc. cbn [map filter]. unfold is_ootb_group at 2, Dict.mem.
      destruct (Dict.get OOTB_FIELD_GROUPS (e_name e)) as [fields|] eqn:E;
        cbn [fst snd].
      * rewrite map_app, <- app_assoc. cbn [map app ootb_field_group].
        repeat split; try reflexivity.
        intros H. apply IH3. cbn [fst]. apply Forall_app. split; [exact H|].
        constructor; [|constructor]. repeat split. exact E.
      * repeat split; try reflexivity. exact IH3.
    + destruct (String.eqb_spec (e_type e) "CustomFieldGroup") as [Hc|Hc];
        cbn [fst snd map filter].
      * rewrite map_app, <- app_assoc. cbn [map app cc_name].
        repeat split; try reflexivity. exact IH3.
      * repeat split; try reflexivity. exact IH3.
Qed.

(** X12.  The field-group mappings are, in the order of the entity list, those
    FieldGroup entities whose name is one of the standard field groups
    (Address, Phone, Email, Identifier); each carries the standard fields of
    its group and the source tracking key.  A FieldGroup entity of any other
    name is passed over.  The custom components are the CustomFieldGroup
    entities, in order. *)
Theorem field_groups_mapped (now : string) (s1 : step1_output) :
  map ootb_field_group (field_group_mappings (step2_map_ootb_entities now s1))
  = filter is_ootb_group
      (map e_name (filter is_field_group (business_entities s1)))
  /\ map cc_name (custom_components (step2_map_ootb_entities now s1))
     = map e_name (filter is_custom_field_group (business_entities s1))
  /\ Forall group_mapping_ok
       (field_group_mappings (step2_map_ootb_entities now s1)).
Proof.
  unfold step2_map_ootb_entities, step2_run.
  cbn [fst field_group_mappings custom_components].
  destruct (map_field_group_names (business_entities s1)
              ([], last_resort_components (consolidate s1))) as [H1 [H2 H3]].
  split; [|split].
  - rewrite H1. reflexivity.
  - rewrite H2. cbn [snd]. unfold last_resort_components.
    rewrite selected_template. reflexivity.
  - apply H3. constructor.
Qed.

(** X13.  Under the Organization template nothing is reported as skipped and
    every custom field has at least one justifying requirement id: the
    branch has no fallback, and the fields of the Person template are never
    folded in. *)
Theorem organization_template_justified (now : string) (s1 : step1_output)
  (m : entity_mapping) :
  In m (entity_mappings (step2_map_ootb_entities now s1)) ->
  ootb_entity m = "Organization" ->
  step2_diagnostics s1 = []
  /\ person_requirements s1 = []
  /\ forall f ids,
       Dict.get (custom_fields_with_fr m) f = Some ids -> ids <> [].
Proof.
  intros Hm Ht.
  destruct (one_mapping now s1) as [m' [Hm' [Hsel [_ Hdict]]]].
  rewrite Hm' in Hm. destruct Hm as [<-|[]].
  rewrite selected_template, Ht in Hsel. injection Hsel as Hsel.
  destruct (nonempty (person_requirements s1)) eqn:HP; [discriminate|].
  destruct (nonempty (organization_requirements s1)) eqn:HO; [|discriminate].
  pose proof (nonempty_false _ HP) as Hnone.
  split; [|split; [exact Hnone|]].
  - unfold step2_diagnostics, step2_run. cbn [snd].
    rewrite selected_template, app_nil_r. unfold consolidate.
    rewrite HP, HO. reflexivity.
  - intros f ids Hget. rewrite Hdict in Hget.
    destruct (consolidate_spec s1) as [Hfields _].
    destruct (Hfields f ids Hget) as [H|[e [attrs [Hin [Hp _]]]]]; [exact H|].
    exfalso.
    assert (Hmem : In e (person_requirements s1)).
    { unfold person_requirements. apply filter_In. split; [exact Hin|].
      now apply String.eqb_eq. }
    rewrite Hnone in Hmem. contradiction.
Qed.

(** An extraction record made by hand, of the kind an earlier run may have
    left: the attribute table is keyed by the Organization entity; Status
    is justified by two requirements, Rating by none, and Industry is
    listed without being in the requirement table. *)
Definition vendors_by_hand : step1_output :=
  {| extraction_date := "2025-01-01T09:00:00";
     total_requirements := 2;
     source_file := "requirements.xlsx";
     functional_requirements :=
       [{| fr_number := "FR1"; description := "Vendor status is kept";
           comments := "";
           combined_text := "vendor status is kept " |};
        {| fr_number := "FR2"; description := "Inactive vendors are flagged";
           comments := "";
           combined_text := "inactive vendors are flagged " |}];
     business_entities :=
       [{| e_name := "Organization"; e_type := "Organization";
           e_purpose := "Organization master entity in MDM model" |}];
     attributes :=
       [("Organization",
         {| standard := Organization_standard_fields;
            custom := ["Industry"; "Rating"; "Status"];
            custom_with_fr :=
              Some [("Rating", []); ("Status", ["FR1"; "FR2"])] |})];
     relationships := [];
     roles := [];
     source_systems := [];
     matching_rules := Tables.matching_rules;
     data_quality_rules := Tables.data_quality_rules |}.

Definition vendors_mapping : entity_mapping :=
  {| em_requirement := "Unified MDM Entity";
     ootb_entity := "Organization";
     em_justification := consolidation_justification ["Organization"] "Organization";
     ootb_fields_used := Organization_standard_fields;
     custom_fields_needed := ["Status"];
     custom_fields_with_fr := [("Status", ["FR1"; "FR2"])];
     consolidated_requirements := ["Organization"] |}.

Lemma organization_template_justified_witness :
  step2_diagnostics vendors_by_hand = []
  /\ person_requirements vendors_by_hand = []
  /\ forall f ids,
       Dict.get (custom_fields_with_fr vendors_mapping) f = Some ids ->
       ids <> [].
Proof.
  apply (@organization_template_justified "2025-01-01T09:00:01"
           vendors_by_hand vendors_mapping).
  - vm_compute. left. reflexivity.
  - reflexivity.
Defined.

End Mappings.

(** ** From the sheet to the consolidation result *)

Module Pipeline.
Import Text Tables Step1 Step2 Main TextFacts DictFacts DictMore SortFacts.
Import Consolidation.

(** Adding a table of non-empty requirement lists under keys that are all
    new appends the table. *)
Lemma add_traced_fresh (table : Dict.t (list string)) :
  forall d : Dict.t (list string),
    NoDup (Dict.keys d ++ Dict.keys table) ->
    (forall k l, In (k, l) table -> l <> []) ->
    add_traced table d = (d ++ table)%list.
Proof.
  unfold add_traced.
  induction table as [|[k l] table IH]; intros d Hnd Hne; cbn [fold_left].
  - now rewrite app_nil_r.
  - cbn [fst snd]. destruct l as [|x l].
    + exfalso. apply (Hne k []); [now left | reflexivity].
    + assert (Hk : ~ In k (Dict.keys d)).
      { cbn [Dict.keys map fst] in Hnd. apply NoDup_remove_2 in Hnd.
        intros Hin. apply Hnd, in_or_app. now left. }
      rewrite (@set_fresh _ d k (x :: l) Hk), IH.
      * now rewrite <- app_assoc.
      * unfold Dict.keys in *. rewrite map_app, <- app_assoc. exact Hnd.
      * intros k' l' Hin. apply (Hne k' l'). now right.
Qed.

(** The table of an extraction result: the recorded attributes in
    ascending order of name, each with its ids *)
Definition recorded_table (df : list row) : Dict.t (list string) :=
  map (fun attr =>
         (attr,
          match Dict.get (attribute_pass (make_requirements 0 df)) attr with
          | Some l => l
          | None => []
          end))
    (Sort.sorted_strings (Dict.keys (attribute_pass (make_requirements 0 df)))).

Lemma recorded_table_ok (df : list row) :
  NoDup (Dict.keys (recorded_table df))
  /\ forall k l, In (k, l) (recorded_table df) -> l <> [].
Proof.
  unfold recorded_table. split.
  - unfold Dict.keys. rewrite map_map. cbn [fst]. rewrite map_id.
    eapply Permutation_NoDup;
      [apply Permutation_sym, sorted_Permutation
      | apply Determinism.attribute_pass_NoDup].
  - intros k l Hin. apply in_map_iff in Hin as [attr [Heq Hattr]].
    injection Heq as <- <-. apply sorted_In, keys_get in Hattr as [ids Hids].
    rewrite Hids.
    now destruct (@Attributes.attribute_pass_traceable _ _ _ Hids).
Qed.

Lemma person_branch_fields (s1 : step1_output) (p : business_entity)
  (attrs : attrs_data) (table : Dict.t (list string)) :
  person_requirements s1 = [p] -> e_name p = "Person" ->
  attributes s1 = [("Person", attrs)] ->
  custom_with_fr attrs = Some table ->
  NoDup (Dict.keys table) -> (forall k l, In (k, l) table -> l <> []) ->
  (forall org, In org (organization_requirements s1) ->
               e_name org = "Organization") ->
  all_custom_fields_with_fr (consolidate s1) = table.
Proof.
  intros HP Hname Hattrs Htable Hnd Hne Horgs.
  unfold consolidate. rewrite HP.
  cbn [nonempty orb all_custom_fields_with_fr fold_left].
  assert (Hd : add_person_fields s1 [] p = table).
  { unfold add_person_fields. rewrite Hname, Hattrs. cbn [Dict.get].
    rewrite String.eqb_refl, Htable. now apply (@add_traced_fresh table []). }
  rewrite Hd.
  assert (Hskip : forall ootb orgs (st : Dict.t (list string) * list diagnostic),
             incl orgs (organization_requirements s1) ->
             fold_left (add_organization_fields s1 ootb) orgs st = st).
  { intros ootb. induction orgs as [|org orgs IH]; intros st Hi; [reflexivity|].
    cbn [fold_left].
    assert (E : add_organization_fields s1 ootb st org = st).
    { unfold add_organization_fields.
      rewrite (Horgs org (Hi org (or_introl eq_refl))), Hattrs. reflexivity. }
    rewrite E. apply IH. intros x Hx. apply Hi. now right. }
  destruct (nonempty (organization_requirements s1)); [|reflexivity].
  rewrite Hskip by apply incl_refl. reflexivity.
Qed.

(** X15.  In a run in which a Person-type entity is discovered, the custom
    fields of the entity mapping are exactly the attributes the attribute
    pass recorded, in ascending order of name, each with its justifying
    requirement ids; nothing is added from the Organization template. *)
Theorem person_run_custom_fields (w : surroundings) (excel_file : string)
  (df : list row) :
  (exists e, In e (discovered_entities df) /\ e_type e = "Person") ->
  exists m,
    entity_mappings (consolidated w excel_file df) = [m]
    /\ ootb_entity m = "Person"
    /\ Dict.keys (attributes (extract w excel_file df)) = ["Person"]
    /\ custom_fields_with_fr m = recorded_table df
    /\ custom_fields_needed m = Dict.keys (recorded_table df)
    /\ forall attr ids,
         In (attr, ids) (custom_fields_with_fr m)
         <-> Dict.get (attribute_pass (make_requirements 0 df)) attr = Some ids.
Proof.
  intros [e [He Ht]].
  assert (Hcanon : forall x, In x (discovered_entities df) ->
                     e_type x = "Person" \/ e_type x = "Organization" ->
                     e_name x = e_type x).
  { intros x Hx Hxt. apply (Entities.master_names_canonical _ _ Hx).
    destruct Hxt as [-> | ->]; reflexivity. }
  assert (Hmain : main_entity_name (discovered_entities df) = "Person").
  { unfold main_entity_name.
    destruct (List.find _ (discovered_entities df)) as [x|] eqn:E.
    - apply find_some in E as [Hx Hxt]. apply String.eqb_eq in Hxt.
      now rewrite (Hcanon x Hx (or_introl Hxt)).
    - exfalso. apply (find_none _ _ E) in He. rewrite Ht in He. discriminate. }
  assert (HP : exists p, person_requirements (extract w excel_file df) = [p]
                         /\ e_name p = "Person").
  { unfold person_requirements, extract.
    cbn [step1_extract_requirements business_entities].
    change (fun entity : business_entity => (e_type entity =? "Person")%string)
      with (Entities.of_role "Person").
    unfold discovered_entities in *.
    rewrite (@Entities.entities_of_role "Person" (entities_found df) eq_refl).
    unfold Entities.winner_entity.
    destruct (Entities.winner "Person" (entities_found df)) as [c|] eqn:E.
    - eexists. split; reflexivity.
    - exfalso.
      assert (Hin : In e (filter (Entities.of_role "Person")
                            (build_business_entities (entities_found df)))).
      { apply filter_In. split; [exact He|].
        unfold Entities.of_role. rewrite Ht. reflexivity. }
      rewrite (@Entities.entities_of_role "Person" (entities_found df) eq_refl)
        in Hin.
      unfold Entities.winner_entity in Hin. rewrite E in Hin. contradiction. }
  destruct HP as [p [HP Hp]].
  destruct (recorded_table_ok df) as [Hnd Hne].
  assert (Hfields : all_custom_fields_with_fr
                      (consolidate (extract w excel_file df))
                    = recorded_table df).
  { eapply person_branch_fields; try eassumption.
    - unfold extract, step1_extract_requirements. cbn [attributes].
      rewrite Hmain. reflexivity.
    - reflexivity.
    - intros org Horg. unfold organization_requirements in Horg.
      apply filter_In in Horg as [Hin Hot].
      apply andb_true_iff in Hot as [_ Hot]. apply String.eqb_eq in Hot.
      cbn [extract step1_extract_requirements business_entities] in Hin.
      now rewrite (Hcanon org Hin (or_intror Hot)). }
  destruct (one_mapping (clock2 w) (extract w excel_file df))
    as [m [Hm [Hsel [Hkeys Hdict]]]].
  exists m. unfold consolidated. split; [exact Hm|].
  rewrite selected_template, HP in Hsel. cbn [nonempty orb] in Hsel.
  injection Hsel as Hsel.
  split; [now symmetry|]. split.
  - unfold extract, step1_extract_requirements.
    cbn [attributes Dict.keys map fst]. now rewrite Hmain.
  - rewrite Hdict, Hkeys, Hfields. split; [reflexivity|].
    split; [reflexivity|].
    intros attr ids. split.
    + intros Hin. apply in_map_iff in Hin as [a [Heq Ha]].
      injection Heq as <- <-. apply sorted_In, keys_get in Ha as [l Hl].
      now rewrite Hl.
    + intros Hget. apply in_map_iff. exists attr. rewrite Hget.
      split; [reflexivity|]. apply sorted_In. eapply get_Some_keys. exact Hget.
Qed.

(** A sheet on which the only candidate term is classified Person *)
Definition donors : list row :=
  [{| fr_cell := Val "FR1";
      desc_cell := Val "Donor is an individual with a status";
      comments_cell := Absent |};
   {| fr_cell := Val "FR2";
      desc_cell := Val "Donor person classification";
      comments_cell := Absent |};
   {| fr_cell := Val "FR3";
      desc_cell := Val "Donor member status";
      comments_cell := Absent |}].

Lemma person_run_custom_fields_witness :
  exists m,
    entity_mappings (consolidated Keying.a_run "requirements.xlsx" donors) = [m]
    /\ ootb_entity m = "Person"
    /\ Dict.keys (attributes (extract Keying.a_run "requirements.xlsx" donors))
       = ["Person"]
    /\ custom_fields_with_fr m = recorded_table donors
    /\ custom_fields_needed m = Dict.keys (recorded_table donors)
    /\ forall attr ids,
         In (attr, ids) (custom_fields_with_fr m)
         <-> Dict.get (attribute_pass (make_requirements 0 donors)) attr
             = Some ids.
Proof.
  apply (person_run_custom_fields Keying.a_run "requirements.xlsx" donors).
  eexists. split; [vm_compute; left; reflexivity | reflexivity].
Defined.

End Pipeline.

(** ** The assembled model *)

Module Model.
Import Text Tables Step1 Step2 Step3 Main TextFacts DictFacts.

Definition group_names (groups : list field_group) : list string :=
  map group_name groups.

(** The loop state of the field-group loop: the names added are distinct
    and are those noted in [fg_names_added]. *)
Definition groups_ok (st : list field_group * list string) : Prop :=
  NoDup (group_names (fst st))
  /\ forall n, In n (group_names (fst st)) <-> In n (snd st).

Lemma NoDup_snoc (l : list string) (x : string) :
  NoDup l -> ~ In x l -> NoDup (l ++ [x]).
Proof.
  intros Hnd Hx. apply (Permutation_NoDup (l := x :: l)).
  - apply Permutation_cons_append.
  - now constructor.
Qed.

Lemma add_field_group_ok (st : list field_group * list string)
  (fg_mapping : field_group_mapping) :
  groups_ok st -> groups_ok (add_field_group st fg_mapping).
Proof.
  intros [Hnd Hnames]. unfold add_field_group.
  destruct (mem (ootb_field_group fg_mapping) (snd st)) eqn:Hm; cbn [negb];
    [now split|].
  apply mem_false in Hm. unfold groups_ok, group_names in *. cbn [fst snd].
  rewrite map_app. cbn [map group_name]. split.
  - apply NoDup_snoc; [exact Hnd|]. intros Hin. apply Hm. now apply Hnames.
  - intros n. rewrite in_app_iff. cbn [In]. rewrite Hnames. tauto.
Qed.

Lemma add_custom_group_names (groups : list field_group)
  (custom_comp : custom_component) :
  NoDup (group_names groups) ->
  NoDup (group_names (add_custom_group groups custom_comp))
  /\ incl groups (add_custom_group groups custom_comp).
Proof.
  intros Hnd. unfold add_custom_group.
  destruct (cc_type custom_comp =? "CustomFieldGroup")%string;
    [|split; [exact Hnd | apply incl_refl]].
  destruct (existsb _ groups) eqn:E; cbn [negb];
    [split; [exact Hnd | apply incl_refl]|].
  split; [|apply incl_appl, incl_refl].
  unfold group_names. rewrite map_app. cbn [map group_name].
  apply NoDup_snoc; [exact Hnd|]. intros Hin.
  apply in_map_iff in Hin as [g [Hg Hin]].
  assert (X : existsb (fun fg => (group_name fg =? cc_name custom_comp)%string)
                groups = true).
  { apply existsb_exists. exists g. split; [exact Hin|]. now apply String.eqb_eq. }
  congruence.
Qed.

Lemma custom_groups_names (comps : list custom_component) :
  forall groups,
    NoDup (group_names groups) ->
    NoDup (group_names (fold_left add_custom_group comps groups))
    /\ incl groups (fold_left add_custom_group comps groups).
Proof.
  induction comps as [|c comps IH]; intros groups Hnd; cbn [fold_left].
  - split; [exact Hnd | apply incl_refl].
  - destruct (@add_custom_group_names groups c Hnd) as [H1 H2].
    destruct (IH _ H1) as [I1 I2]. split; [exact I1|].
    eapply incl_tran; eassumption.
Qed.

Lemma identifier_group_names (st : list field_group * list string) :
  groups_ok st ->
  NoDup (group_names (add_identifier_group st))
  /\ In "Identifier" (group_names (add_identifier_group st)).
Proof.
  intros [Hnd Hnames]. unfold add_identifier_group.
  destruct (mem "Identifier" (snd st)) eqn:Hm; cbn [negb].
  - apply mem_In in Hm. split; [exact Hnd | now apply Hnames].
  - apply mem_false in Hm. unfold group_names in *. rewrite map_app.
    cbn [map group_name]. split.
    + apply NoDup_snoc; [exact Hnd|]. intros Hin. apply Hm. now apply Hnames.
    + apply in_or_app. right. now left.
Qed.

(** X16.  When the file of step 1 has been read and the consolidation result
    has an entity mapping, step 3 returns a model that holds one entity,
    built from the first mapping: it bears the template's name,
    its first identifier is that name followed by Id, its attributes are the
    mapping's fields, its field groups have distinct names, and the
    Identifier group is among them. *)
Theorem assembled_entity (now : string) (stored : step1_output)
  (s2 : step2_output) (m : entity_mapping) (rest : list entity_mapping) :
  entity_mappings s2 = m :: rest ->
  exists s3 e,
    step3_design_data_model now (Stored stored) s2 = Ok s3
    /\ entities s3 = [e]
    /\ ed_name e = ootb_entity m
    /\ hd_error (ed_identifiers e) = Some (ootb_entity m ++ "Id")%string
    /\ ed_ootb e = ootb_fields_used m
    /\ ed_custom e = custom_fields_needed m
    /\ ed_custom_with_fr e = custom_fields_with_fr m
    /\ NoDup (group_names (ed_field_groups e))
    /\ In "Identifier" (group_names (ed_field_groups e)).
Proof.
  intros H. unfold step3_design_data_model. rewrite H.
  assert (Hids : hd_error (snd (purpose_and_identifiers m))
                 = Some (ootb_entity m ++ "Id")%string).
  { unfold purpose_and_identifiers.
    destruct (String.eqb_spec (ootb_entity m) "Person") as [->|_];
      [reflexivity|].
    destruct (String.eqb_spec (ootb_entity m) "Organization") as [->|_];
      [reflexivity|].
    destruct (String.eqb_spec (ootb_entity m) "Product") as [->|_];
      reflexivity. }
  destruct (purpose_and_identifiers m) as [purpose identifiers].
  assert (Hg : groups_ok (fold_left add_field_group (field_group_mappings s2)
                            ([], []))).
  { apply FoldFacts.fold_left_invariant
      with (P := groups_ok) (Q := fun _ : field_group_mapping => True).
    - intros st g _. apply add_field_group_ok.
    - apply Forall_forall. trivial.
    - split; [constructor | intros n; split; intros []]. }
  destruct (@identifier_group_names _ Hg) as [Hnd Hid].
  destruct (@custom_groups_names (custom_components s2) _ Hnd) as [Hnd' Hincl].
  eexists. eexists. split; [reflexivity|].
  cbn [entities ed_name ed_identifiers ed_ootb ed_custom ed_custom_with_fr
       ed_field_groups].
  repeat split; try reflexivity; try assumption.
  unfold group_names in *. apply in_map_iff in Hid as [g [Hg1 Hg2]].
  apply in_map_iff. exists g. split; [exact Hg1 | now apply Hincl].
Qed.

(** A consolidation result made by hand: two entity mappings, the first
    with a custom field, the Address mapping twice and one custom component
    twice *)
Definition vendor_mapping : entity_mapping :=
  {| em_requirement := "Vendor entity";
     ootb_entity := "Organization";
     em_justification := "Vendors are organizations";
     ootb_fields_used := ["OrganizationName"; "TaxID"];
     custom_fields_needed := ["Status"];
     custom_fields_with_fr := [("Status", ["FR2"; "FR5"])];
     consolidated_requirements := ["Vendor"] |}.

Definition contact_mapping : entity_mapping :=
  {| em_requirement := "Contact entity";
     ootb_entity := "Person";
     em_justification := "Contacts are persons";
     ootb_fields_used := ["FirstName"; "LastName"];
     custom_fields_needed := [];
     custom_fields_with_fr := [];
     consolidated_requirements := ["Contact"] |}.

Definition address_mapping : field_group_mapping :=
  {| fg_requirement := "Address field group";
     ootb_field_group := "Address";
     fg_justification := "Vendors have addresses";
     fg_ootb_fields_used := ["AddressLine1"; "City"];
     fg_custom_fields_needed := ["SourceSystemKey"] |}.

Definition license_component : custom_component :=
  {| cc_type := "CustomFieldGroup";
     cc_name := "License";
     cc_justification := "Vendors hold licenses";
     cc_fields := ["Type"; "Status"] |}.

Definition two_mappings : step2_output :=
  {| mapping_date := "2025-01-01T09:00:01";
     entity_mappings := [vendor_mapping; contact_mapping];
     field_group_mappings := [address_mapping; address_mapping];
     gaps := [];
     custom_components := [license_component; license_component] |}.

Lemma assembled_entity_witness :
  exists s3 e,
    step3_design_data_model "2025-01-01T09:00:02"
      (Stored Consolidation.no_terms_extraction) two_mappings = Ok s3
    /\ entities s3 = [e]
    /\ ed_name e = "Organization"
    /\ hd_error (ed_identifiers e) = Some "OrganizationId"
    /\ ed_ootb e = ["OrganizationName"; "TaxID"]
    /\ ed_custom e = ["Status"]
    /\ ed_custom_with_fr e = [("Status", ["FR2"; "FR5"])]
    /\ NoDup (group_names (ed_field_groups e))
    /\ In "Identifier" (group_names (ed_field_groups e)).
Proof.
  apply (@assembled_entity "2025-01-01T09:00:02"
           Consolidation.no_terms_extraction two_mappings
           vendor_mapping [contact_mapping]).
  reflexivity.
Defined.


(** What a field group of the model can be: a standard group with its
    standard fields and the source tracking key, or a custom group with the
    fields made from its name *)
Definition group_ok (g : field_group) : Prop :=
  (group_type g = "OOTB"
   /\ group_custom_fields g = ["SourceSystemKey"]
   /\ exists fields,
        group_ootb_fields g = Some fields
        /\ Dict.get OOTB_FIELD_GROUPS (group_name g) = Some fields)
  \/ (group_type g = "Custom"
      /\ group_ootb_fields g = None
      /\ group_custom_fields g = custom_field_group_fields (group_name g)).

Definition component_ok (c : custom_component) : Prop :=
  cc_type c = "CustomFieldGroup"
  /\ cc_fields c = custom_field_group_fields (cc_name c).

Lemma tracking_key_in_custom_group (fg_name : string) :
  In "SourceSystemKey" (custom_field_group_fields fg_name).
Proof.
  unfold custom_field_group_fields.
  destruct (lower fg_name =? "role")%string;
    [|destruct (contains "relationship" (lower fg_name))];
    cbn [In]; tauto.
Qed.

Lemma group_ok_tracked (g : field_group) :
  group_ok g -> In "SourceSystemKey" (group_custom_fields g).
Proof.
  intros [[_ [-> _]]|[_ [_ ->]]]; [now left | apply tracking_key_in_custom_group].
Qed.

Lemma components_ok (entities : list business_entity) :
  forall st : list field_group_mapping * list custom_component,
    Forall component_ok (snd st) ->
    Forall component_ok (snd (fold_left map_field_group entities st)).
Proof.
  induction entities as [|e entities IH]; intros st H; [exact H|].
  cbn [fold_left]. apply IH. unfold map_field_group.
  destruct (e_type e =? "FieldGroup")%string.
  - destruct (Dict.get OOTB_FIELD_GROUPS (e_name e)); exact H.
  - destruct (e_type e =? "CustomFieldGroup")%string; [|exact H].
    cbn [snd]. apply Forall_app. split; [exact H|].
    constructor; [now split | constructor].
Qed.

Lemma groups_tracked (mappings : list field_group_mapping)
  (comps : list custom_component) :
  Forall Mappings.group_mapping_ok mappings ->
  Forall component_ok comps ->
  Forall group_ok
    (fold_left add_custom_group comps
       (add_identifier_group (fold_left add_field_group mappings ([], [])))).
Proof.
  intros Hm Hc.
  assert (H1 : Forall group_ok
                 (fst (fold_left add_field_group mappings ([], [])))).
  { apply FoldFacts.fold_left_invariant
      with (P := fun st : list field_group * list string =>
                   Forall group_ok (fst st))
           (Q := Mappings.group_mapping_ok).
    - intros st g [Hg1 [_ Hg3]] Hst. unfold add_field_group.
      destruct (negb (mem (ootb_field_group g) (snd st))); [|exact Hst].
      cbn [fst]. apply Forall_app. split; [exact Hst|].
      constructor; [|constructor]. left.
      cbn [group_type group_custom_fields group_ootb_fields group_name].
      split; [reflexivity|]. split; [exact Hg3|].
      eexists. split; [reflexivity | exact Hg1].
    - exact Hm.
    - constructor. }
  assert (H2 : Forall group_ok
                 (add_identifier_group
                    (fold_left add_field_group mappings ([], [])))).
  { unfold add_identifier_group.
    destruct (negb (mem "Identifier" (snd (fold_left add_field_group mappings ([], [])))));
      [|exact H1].
    apply Forall_app. split; [exact H1|].
    constructor; [|constructor]. left.
    cbn [group_type group_custom_fields group_ootb_fields group_name].
    split; [reflexivity|]. split; [reflexivity|].
    eexists. split; reflexivity. }
  apply FoldFacts.fold_left_invariant with (P := Forall group_ok) (Q := component_ok).
  - intros groups c [Hc1 Hc2] Hg. unfold add_custom_group.
    destruct (cc_type c =? "CustomFieldGroup")%string; [|exact Hg].
    destruct (negb (existsb _ groups)); [|exact Hg].
    apply Forall_app. split; [exact Hg|].
    constructor; [|constructor]. right.
    cbn [group_type group_custom_fields group_ootb_fields group_name].
    now repeat split.
  - exact Hc.
  - exact H2.
Qed.

(** X17.  The model assembled from a consolidation result, the file of step 1
    having been read: every field group is a standard group (Address, Phone, Email, Identifier) with the standard
    fields of its group and the source tracking key as its one custom field,
    or a custom group whose fields are made from its name; in either case
    the source tracking key is among its custom fields. *)
Theorem model_groups_tracked (now later : string)
  (s1 stored : step1_output) :
  exists s3 e,
    step3_design_data_model later (Stored stored)
      (step2_map_ootb_entities now s1) = Ok s3
    /\ entities s3 = [e]
    /\ Forall group_ok (ed_field_groups e)
    /\ Forall (fun g => In "SourceSystemKey" (group_custom_fields g))
         (ed_field_groups e).
Proof.
  destruct (Consolidation.one_mapping now s1) as [m [Hm _]].
  assert (Hgroups : Forall group_ok
            (fold_left add_custom_group
               (custom_components (step2_map_ootb_entities now s1))
               (add_identifier_group
                  (fold_left add_field_group
                     (field_group_mappings (step2_map_ootb_entities now s1))
                     ([], []))))).
  { apply groups_tracked.
    - unfold step2_map_ootb_entities, step2_run.
      cbn [fst field_group_mappings].
      destruct (Mappings.map_field_group_names (business_entities s1)
                  ([], last_resort_components (consolidate s1)))
        as [_ [_ H]].
      apply H. constructor.
    - unfold step2_map_ootb_entities, step2_run.
      cbn [fst custom_components]. apply components_ok. cbn [snd].
      unfold last_resort_components.
      rewrite Consolidation.selected_template. constructor. }
  unfold step3_design_data_model. rewrite Hm.
  destruct (purpose_and_identifiers m) as [purpose identifiers].
  eexists. eexists. split; [reflexivity|]. cbn [entities ed_field_groups].
  split; [reflexivity|]. split; [exact Hgroups|].
  eapply Forall_impl; [|exact Hgroups]. apply group_ok_tracked.
Qed.

End Model.

(** * The diagrams of step 4 *)

Module Diagram.
Import Text Tables Step1 Step2 Step3 Step4 Main.

Definition first_y : nat := entity_y + box_height + spacing.

(** A layout is regular when its items carry the given names, stand one
    [spacing] apart from [first_y] on, and [current_y] is the next place. *)
Definition regular (names : list string) (st : layout) : Prop :=
  map i_name (fst st) = names
  /\ map i_y (fst st)
     = map (fun k => first_y + k * spacing) (seq 0 (List.length (fst st)))
  /\ snd st = first_y + List.length (fst st) * spacing.

Section Placing.

Variable A : Type.
Variable f : layout -> A -> layout.
Variable name : A -> string.

Hypothesis f_appends : forall st x,
  exists it,
    f st x = ((fst st ++ [it])%list, snd st + spacing)
    /\ i_name it = name x /\ i_y it = snd st.

Lemma add_regular (names : list string) (st : layout) (x : A) :
  regular names st -> regular (names ++ [name x]) (f st x).
Proof.
  intros [Hn [Hy Hc]].
  destruct (f_appends st x) as [it [E [En Ey]]]. rewrite E.
  unfold regular. cbn [fst snd].
  rewrite !map_app, length_app, Hn, Hy. cbn [map List.length].
  rewrite En, Ey, Hc.
  split; [reflexivity|]. split.
  - rewrite seq_app, map_app. cbn [seq map Nat.add]. reflexivity.
  - lia.
Qed.

Lemma fold_regular (l : list A) :
  forall names st,
    regular names st -> regular (names ++ map name l) (fold_left f l st).
Proof.
  induction l as [|x l IH]; intros names st H; cbn [fold_left map].
  - rewrite app_nil_r. exact H.
  - replace (names ++ name x :: map name l)%list
      with ((names ++ [name x]) ++ map name l)%list
      by (rewrite <- app_assoc; reflexivity).
    apply IH. apply add_regular. exact H.
Qed.

Lemma fold_extends (l : list A) :
  forall st, exists new,
    fst (fold_left f l st) = (fst st ++ new)%list
    /\ List.length new = List.length l.
Proof.
  induction l as [|x l IH]; intros st; cbn [fold_left].
  - exists []. rewrite app_nil_r. split; reflexivity.
  - destruct (IH (f st x)) as [new [E L]].
    destruct (f_appends st x) as [it [Ef _]].
    exists (it :: new). rewrite E, Ef. cbn [fst List.length].
    rewrite <- app_assoc. split; [reflexivity|]. rewrite L. reflexivity.
Qed.

End Placing.

Definition fields_of (fg : field_group) : list string :=
  (match group_ootb_fields fg with Some l => l | None => [] end
   ++ group_custom_fields fg)%list.

Lemma add_identifier_appends (st : layout) (x : string) :
  exists it,
    add_identifier st x = ((fst st ++ [it])%list, snd st + spacing)
    /\ i_name it = x /\ i_y it = snd st.
Proof. eexists. split; [reflexivity|]. split; reflexivity. Qed.

Lemma add_attribute_appends (custom : bool) (st : layout) (x : string) :
  exists it,
    add_attribute custom st x = ((fst st ++ [it])%list, snd st + spacing)
    /\ i_name it = x /\ i_y it = snd st.
Proof. eexists. split; [reflexivity|]. split; reflexivity. Qed.

Lemma add_group_appends (st : layout) (fg : field_group) :
  exists it,
    add_group st fg = ((fst st ++ [it])%list, snd st + spacing)
    /\ i_name it = group_name fg /\ i_y it = snd st.
Proof. eexists. split; [reflexivity|]. split; reflexivity. Qed.

Lemma items_regular (e : entity_data) :
  regular
    (ed_identifiers e ++ ed_ootb e ++ ed_custom e
       ++ map group_name (ed_field_groups e))%list
    (fold_left add_group (ed_field_groups e)
       (fold_left (add_attribute true) (ed_custom e)
          (fold_left (add_attribute false) (ed_ootb e)
             (fold_left add_identifier (ed_identifiers e)
                ([], entity_y + box_height + spacing))))).
Proof.
  assert (H0 : regular [] ([], entity_y + box_height + spacing)).
  { unfold regular, first_y. cbn [fst snd map List.length seq].
    split; [reflexivity|]. split; [reflexivity|]. lia. }
  assert (H1 := @fold_regular _ add_identifier (fun x => x)
                  add_identifier_appends (ed_identifiers e) _ _ H0).
  assert (H2 := @fold_regular _ (add_attribute false) (fun x => x)
                  (add_attribute_appends false) (ed_ootb e) _ _ H1).
  assert (H3 := @fold_regular _ (add_attribute true) (fun x => x)
                  (add_attribute_appends true) (ed_custom e) _ _ H2).
  assert (H4 := @fold_regular _ add_group group_name
                  add_group_appends (ed_field_groups e) _ _ H3).
  rewrite !map_id in H4. cbn [app] in H4. rewrite <- !app_assoc in H4.
  exact H4.
Qed.

(** X19.  The boxes of the first column are the identifiers, the standard
    attributes, the custom attributes and the field groups of the entity, in
    that order; they stand 29 units apart from 135 on, so that no two of
    these boxes, 26 units high, overlap. *)
Theorem column_one_layout (e : entity_data) :
  map i_name (items e)
  = (ed_identifiers e ++ ed_ootb e ++ ed_custom e
       ++ map group_name (ed_field_groups e))%list
  /\ map i_y (items e)
     = map (fun k => 135 + 29 * k) (seq 0 (List.length (items e)))
  /\ (forall i j yi yj,
        i < j ->
        nth_error (map i_y (items e)) i = Some yi ->
        nth_error (map i_y (items e)) j = Some yj ->
        yi + box_height < yj).
Proof.
  destruct (items_regular e) as [Hn [Hy _]]. fold (items e) in Hn, Hy.
  assert (Hy' : map i_y (items e)
                = map (fun k => 135 + 29 * k)
                    (seq 0 (List.length (items e)))).
  { rewrite Hy. apply map_ext. intros k.
    unfold first_y, entity_y, box_height, spacing. lia. }
  split; [exact Hn|]. split; [exact Hy'|].
  assert (Hnth : forall i y,
             nth_error (map i_y (items e)) i = Some y -> y = 135 + 29 * i).
  { intros i y H.
    assert (Hi : i < List.length (items e)).
    { rewrite <- (length_map i_y).
      apply nth_error_Some. rewrite H. discriminate. }
    rewrite Hy' in H.
    apply (nth_error_nth _ _ (135 + 29 * 0)) in H.
    rewrite (map_nth (fun k => 135 + 29 * k)) in H.
    rewrite seq_nth in H by exact Hi.
    rewrite <- H. cbn [Nat.add]. reflexivity. }
  intros i j yi yj Hij Hi Hj.
  apply Hnth in Hi. apply Hnth in Hj. unfold box_height. lia.
Qed.

(** *** The canvas *)

Lemma fold_max_ge (l : list nat) :
  forall m,
    m <= fold_left Nat.max l m
    /\ forall x, In x l -> x <= fold_left Nat.max l m.
Proof.
  induction l as [|a l IH]; intros m; cbn [fold_left].
  - split; [lia|]. intros x [].
  - destruct (IH (Nat.max m a)) as [H1 H2]. split; [lia|].
    intros x [E | Hin].
    + subst a. lia.
    + apply H2. exact Hin.
Qed.

Lemma max_or_ge (default : nat) (l : list nat) (x : nat) :
  In x l -> x <= max_or default l.
Proof.
  destruct l as [|a l]; intros Hin; [destruct Hin|].
  cbn [max_or]. destruct (fold_max_ge l a) as [H1 H2].
  destruct Hin as [E | Hin].
  - subst a. exact H1.
  - apply H2. exact Hin.
Qed.

Lemma grow_ge (its : list item) :
  forall m,
    m <= fold_left grow its m
    /\ forall it,
         In it its ->
         is_group it && nonempty_fields it = true ->
         i_y it + List.length (sub_fields it) * spacing
         <= fold_left grow its m.
Proof.
  induction its as [|a its IH]; intros m; cbn [fold_left].
  - split; [lia|]. intros it [].
  - destruct (IH (grow m a)) as [H1 H2].
    assert (Hm : m <= grow m a).
    { unfold grow. destruct (is_group a && nonempty_fields a); lia. }
    split; [lia|].
    intros it [E | Hin] Hg.
    + subst a.
      assert (Hit : i_y it + List.length (sub_fields it) * spacing
                    <= grow m it)
        by (unfold grow; rewrite Hg; lia).
      lia.
    + apply H2; assumption.
Qed.

Lemma sub_fields_fold (l : list string) :
  forall acc y,
    fst (fold_left
           (fun (st : list rect * nat) (sub_field : string) =>
              ((fst st ++ [box col2_x (snd st) "#C5E1A5"])%list,
               snd st + spacing))
           l (acc, y))
    = (acc ++ map (fun k => box col2_x (y + k * spacing) "#C5E1A5")
                (seq 0 (List.length l)))%list.
Proof.
  induction l as [|a l IH]; intros acc y; cbn [fold_left fst snd].
  - cbn [List.length seq map]. rewrite app_nil_r. reflexivity.
  - rewrite IH. rewrite <- app_assoc. f_equal.
    cbn [List.length seq map app].
    replace (y + 0 * spacing) with y by lia. f_equal.
    rewrite <- seq_shift, map_map. apply map_ext.
    intros k. f_equal. lia.
Qed.

Lemma sub_field_rects_spec (it : item) :
  sub_field_rects it
  = map (fun k => box col2_x (i_y it + k * spacing) "#C5E1A5")
      (seq 0 (List.length (sub_fields it))).
Proof. unfold sub_field_rects. rewrite sub_fields_fold. reflexivity. Qed.

Definition in_canvas (height : nat) (r : rect) : Prop :=
  r_x r + r_width r <= svg_width /\ r_y r + r_height r <= height.

Lemma item_rects_in_canvas (its : list item) (it : item) :
  In it its -> Forall (in_canvas (Nat.max (max_y its + 100) 200))
                 (item_rects it).
Proof.
  intros Hin.
  assert (Hy : i_y it <= max_y its).
  { unfold max_y.
    destruct (grow_ge its (max_or entity_y (map i_y its))) as [H _].
    assert (H' := @max_or_ge entity_y (map i_y its) (i_y it)
                    (in_map i_y its it Hin)).
    lia. }
  assert (Hbox : forall fill,
             in_canvas (Nat.max (max_y its + 100) 200)
               (box col1_x (i_y it) fill)).
  { intros fill. unfold in_canvas, box.
    cbn [r_x r_y r_width r_height].
    unfold col1_x, box_width, box_height, svg_width. lia. }
  unfold item_rects.
  destruct (i_type it) eqn:Ht.
  - constructor; [apply Hbox | constructor].
  - constructor; [apply Hbox | constructor].
  - constructor; [apply Hbox|].
    destruct (nonempty_fields it) eqn:Hne; [|constructor].
    assert (Hg : i_y it + List.length (sub_fields it) * spacing <= max_y its).
    { unfold max_y.
      destruct (grow_ge its (max_or entity_y (map i_y its))) as [_ H].
      apply H; [exact Hin|].
      unfold is_group. rewrite Ht, Hne. reflexivity. }
    rewrite sub_field_rects_spec.
    apply Forall_forall. intros r Hr.
    apply in_map_iff in Hr. destruct Hr as [k [E Hk]]. subst r.
    apply in_seq in Hk.
    unfold in_canvas, box. cbn [r_x r_y r_width r_height].
    unfold col2_x, box_width, box_height, svg_width, spacing in *. lia.
Qed.

(** X20.  Every rectangle of a diagram, those of the legend, the box of the
    entity, the boxes of the first column and the boxes of the sub-fields,
    lies within the canvas of width 900 and of the height computed for the
    entity. *)
Theorem rectangles_in_canvas (e : entity_data) :
  200 <= svg_height e
  /\ Forall (in_canvas (svg_height e)) (rects e).
Proof.
  split; [unfold svg_height; lia|].
  unfold rects. apply Forall_app. split.
  - assert (H : 200 <= svg_height e) by (unfold svg_height; lia).
    unfold heading_rects, in_canvas, box.
    repeat (constructor;
            [cbn [r_x r_y r_width r_height];
             unfold entity_x, entity_y, box_width, box_height, svg_width;
             lia|]).
    constructor.
  - apply Forall_flat_map. apply Forall_forall. intros it Hin.
    unfold svg_height. apply item_rects_in_canvas. exact Hin.
Qed.

(** *** Sub-fields of neighbouring field groups *)

Lemma twice_app {A} (r : A) (p la lb q : list A) :
  In r la -> In r lb ->
  exists l1 l2 l3, (p ++ la ++ lb ++ q = l1 ++ r :: l2 ++ r :: l3)%list.
Proof.
  intros Ha Hb.
  apply in_split in Ha. destruct Ha as [a1 [a2 Ea]].
  apply in_split in Hb. destruct Hb as [b1 [b2 Eb]].
  exists (p ++ a1)%list, (a2 ++ b1)%list, (b2 ++ q)%list.
  subst la lb. repeat (rewrite <- app_assoc; cbn [app]). reflexivity.
Qed.

Lemma group_rect (st : layout) (fg : field_group) (k : nat) :
  k < List.length (fields_of fg) ->
  exists it,
    add_group st fg = ((fst st ++ [it])%list, snd st + spacing)
    /\ In (box col2_x (snd st + k * spacing) "#C5E1A5") (item_rects it).
Proof.
  intros Hk.
  exists {| i_type := field_group_item; i_name := group_name fg;
            i_y := snd st; has_dropdown := false; is_custom := false;
            fg_type := group_type fg; sub_fields := fields_of fg |}.
  split; [reflexivity|].
  unfold item_rects. cbn [i_type]. right.
  unfold nonempty_fields. rewrite sub_field_rects_spec.
  cbn [sub_fields i_y].
  destruct (fields_of fg) as [|a l] eqn:E;
    [cbn [List.length] in Hk; lia|].
  apply in_map_iff. exists k. split; [reflexivity|].
  apply in_seq. lia.
Qed.

(** X21.  When two field groups follow each other, the first with at least two
    sub-fields and the second with at least one, the box of the second
    sub-field of the first group and the box of the first sub-field of the
    second group are one and the same rectangle of the second column, drawn
    twice: the sub-fields are drawn over each other. *)
Theorem neighbouring_sub_fields_collide (e : entity_data)
  (before after : list field_group) (g1 g2 : field_group) :
  ed_field_groups e = (before ++ g1 :: g2 :: after)%list ->
  2 <= List.length (fields_of g1) ->
  1 <= List.length (fields_of g2) ->
  exists r l1 l2 l3,
    rects e = (l1 ++ r :: l2 ++ r :: l3)%list
    /\ r_x r = col2_x /\ r_fill r = "#C5E1A5".
Proof.
  intros Hg H1 H2. unfold rects, items. rewrite Hg.
  set (st0 := fold_left (add_attribute true) (ed_custom e)
                (fold_left (add_attribute false) (ed_ootb e)
                   (fold_left add_identifier (ed_identifiers e)
                      ([], entity_y + box_height + spacing)))).
  rewrite fold_left_app. cbn [fold_left].
  set (st := fold_left add_group before st0).
  destruct (@group_rect st g1 1) as [it1 [E1 In1]]; [lia|].
  rewrite E1.
  destruct (@group_rect (fst st ++ [it1], snd st + spacing)%list g2 0)
    as [it2 [E2 In2]]; [lia|].
  rewrite E2. cbn [fst snd] in *.
  destruct (@fold_extends _ add_group group_name add_group_appends after
              (((fst st ++ [it1]) ++ [it2])%list,
               snd st + spacing + spacing))
    as [new [E _]].
  rewrite E. cbn [fst].
  replace (snd st + spacing + 0 * spacing) with (snd st + 1 * spacing)
    in In2 by lia.
  exists (box col2_x (snd st + 1 * spacing) "#C5E1A5").
  rewrite !flat_map_app. cbn [flat_map]. rewrite !app_nil_r.
  destruct (@twice_app _ (box col2_x (snd st + 1 * spacing) "#C5E1A5")
              (heading_rects ++ flat_map item_rects (fst st))%list
              (item_rects it1) (item_rects it2)
              (flat_map item_rects new) In1 In2)
    as [l1 [l2 [l3 E3]]].
  exists l1, l2, l3. split; [|split; reflexivity].
  rewrite <- E3. repeat rewrite <- app_assoc. reflexivity.
Qed.

Definition two_groups : entity_data :=
  {| ed_name := "Person";
     ed_original_name := "Person";
     ed_type := "OOTB";
     ed_purpose := "";
     ed_identifiers := ["PersonId"];
     ed_ootb := ["FirstName"];
     ed_custom := [];
     ed_custom_with_fr := [];
     ed_field_groups :=
       [{| group_name := "Address";
           group_type := "OOTB";
           group_ootb_fields := Some ["City"];
           group_custom_fields := ["SourceSystemKey"] |};
        {| group_name := "Identifier";
           group_type := "OOTB";
           group_ootb_fields := Some identifier_standard_fields;
           group_custom_fields := ["SourceSystemKey"] |}] |}.

Lemma neighbouring_sub_fields_collide_witness :
  exists r l1 l2 l3,
    rects two_groups = (l1 ++ r :: l2 ++ r :: l3)%list
    /\ r_x r = col2_x /\ r_fill r = "#C5E1A5".
Proof.
  apply (@neighbouring_sub_fields_collide two_groups []
           []
           {| group_name := "Address";
              group_type := "OOTB";
              group_ootb_fields := Some ["City"];
              group_custom_fields := ["SourceSystemKey"] |}
           {| group_name := "Identifier";
              group_type := "OOTB";
              group_ootb_fields := Some identifier_standard_fields;
              group_custom_fields := ["SourceSystemKey"] |}).
  - reflexivity.
  - vm_compute. lia.
  - vm_compute. lia.
Defined.

(** *** The diagrams of a run *)

(** X22.  A run draws exactly one diagram; its file is named after the
    template the consolidation selected, in lower case. *)
Theorem one_diagram (w : surroundings) (excel_file : string) (df : list row) :
  exists s1 s2 s3,
    main w excel_file df = Assembled s1 s2 s3
    /\ step4_create_diagrams s3
       = [if nonempty (person_requirements s1)
             || negb (nonempty (organization_requirements s1))
          then "outputs/step4_diagrams/step4_person_entity_hierarchy.svg"
          else "outputs/step4_diagrams/step4_organization_entity_hierarchy.svg"].
Proof.
  unfold main.
  destruct (Consolidation.one_mapping (clock2 w) (extract w excel_file df))
    as [m [Hm [Hsel _]]].
  rewrite Consolidation.selected_template in Hsel.
  unfold step3_design_data_model. rewrite Hm.
  destruct (purpose_and_identifiers m) as [purpose identifiers].
  eexists. eexists. eexists. split; [reflexivity|].
  unfold step4_create_diagrams. cbn [entities map]. f_equal.
  unfold diagram_path. cbn [ed_name].
  injection Hsel as Hsel. rewrite <- Hsel.
  destruct (nonempty (person_requirements (extract w excel_file df))
            || negb (nonempty (organization_requirements
                                 (extract w excel_file df))));
    reflexivity.
Qed.

End Diagram.
